(** * bsdec2-image-upload: a shallow embedding of [main.c]

    The program uploads a disk image to S3 in parts, imports it as an EBS
    volume, snapshots it, registers an AMI, optionally copies the AMI to
    every region and publishes an SNS notification.

    Conventions of the embedding.
    - C strings are [string]; a [char *] result that may be [NULL] is an
      [option string]; an [int] status is a [Z] (0 or -1).
    - [off_t], [uint64_t], [size_t] and [int] values are [Z] with their
      wrap-around written out ([to_int64], [to_uint64], [to_int32]) where
      a conversion or unsigned arithmetic wraps; a signed sum that can
      overflow is checked ([fits_off_t]) and ends in [Undefined].  The
      platform is LP64, as on the FreeBSD hosts the tool is written for.
    - Effects (the TLS transport, stderr, stdout, sleeping) are threaded
      through an explicit [world]; [exit] and loops without a bound are
      handled by the [result] type and a fuel argument.
    - Memory allocation ([malloc], [asprintf], [strdup], the elastic arrays)
      is taken to succeed; the out-of-memory exits are not modelled. *)

From Stdlib Require Import ZArith List String Ascii Bool Lia.
From Stdlib Require Import DecimalString.
Import ListNotations.

Local Open Scope string_scope.
Local Open Scope Z_scope.

(** ** C string helpers *)

Module CStr.

(** [&s[n]]: the string that starts [n] bytes into [s]. *)
Fixpoint drop (n : nat) (s : string) : string :=
  match n, s with
  | O, _ => s
  | S _, EmptyString => EmptyString
  | S n', String _ s' => drop n' s'
  end.

(** The first [n] bytes of [s] (what is left of [s] after [s[n] = '\0']). *)
Fixpoint take (n : nat) (s : string) : string :=
  match n, s with
  | O, _ => EmptyString
  | S _, EmptyString => EmptyString
  | S n', String c s' => String c (take n' s')
  end.

(** Does the byte [c] occur in [set]? *)
Fixpoint mem (c : ascii) (set : string) : bool :=
  match set with
  | EmptyString => false
  | String d set' => Ascii.eqb c d || mem c set'
  end.

(** [strcspn(s, reject)]: length of the longest prefix of [s] with no byte
    of [reject]. *)
Fixpoint strcspn (s reject : string) : nat :=
  match s with
  | EmptyString => O
  | String c s' => if mem c reject then O else S (strcspn s' reject)
  end.

(** [strchr(s, c)] as the offset of the first [c], [None] for [NULL]. *)
Fixpoint strchr (s : string) (c : ascii) : option nat :=
  match s with
  | EmptyString => None
  | String d s' =>
      if Ascii.eqb d c then Some O
      else match strchr s' c with Some n => Some (S n) | None => None end
  end.

(** [strstr(s, pat)] as the offset of the first occurrence, [None] for
    [NULL]. *)
Fixpoint strstr (s pat : string) : option nat :=
  if prefix pat s then Some O
  else match s with
       | EmptyString => None
       | String _ s' =>
           match strstr s' pat with Some n => Some (S n) | None => None end
       end.

(** What the C string functions see of a buffer: the bytes before the first
    NUL. *)
Fixpoint cstr (buf : string) : string :=
  match buf with
  | EmptyString => EmptyString
  | String c buf' =>
      if Ascii.eqb c zero then EmptyString else String c (cstr buf')
  end.

(** [%d], [%zu], [PRId64], [PRIu64]. *)
Definition decimal (z : Z) : string := NilZero.string_of_int (Z.to_int z).

End CStr.
Import CStr.

(** ** Machine integers *)

Definition to_uint64 (z : Z) : Z := z mod 2 ^ 64.
Definition to_int64 (z : Z) : Z := (z + 2 ^ 63) mod 2 ^ 64 - 2 ^ 63.
Definition to_int32 (z : Z) : Z := (z + 2 ^ 31) mod 2 ^ 32 - 2 ^ 31.

(** Does a signed 64-bit sum or difference fit an [off_t]?  When it does
    not, evaluating it is undefined behaviour. *)
Definition fits_off_t (z : Z) : bool := (- 2 ^ 63 <=? z) && (z <? 2 ^ 63).

Definition PARTSZ : Z := 10 * 1024 * 1024.

(** ** [encodeamp] *)

Definition amp : ascii := "&"%char.

(** First loop of [encodeamp]: the length of the escaped string, starting
    from [len]. *)
Fixpoint encodeamp_len (s : string) (len : nat) : nat :=
  match s with
  | EmptyString => len
  | String c s' =>
      if Ascii.eqb c amp then encodeamp_len s' (len + 5)
      else encodeamp_len s' (len + 1)
  end.

(** Second loop of [encodeamp]: the bytes written to [t], in order. *)
Fixpoint encodeamp (s : string) : string :=
  match s with
  | EmptyString => EmptyString
  | String c s' =>
      if Ascii.eqb c amp then "&amp;" ++ encodeamp s'
      else String c (encodeamp s')
  end.

(** Number of ['&'] bytes of a string. *)
Fixpoint count_amp (s : string) : nat :=
  match s with
  | EmptyString => O
  | String c s' => (if Ascii.eqb c amp then 1 else 0) + count_amp s'
  end.

(** ** The world the program runs in *)

(** A buffer handed to the transport: bytes held in memory, or a window of
    the disk image left symbolic ([Img pos len] is what [fread] put into the
    part buffer at file offset [pos]). *)
Inductive buffer : Type :=
| Mem (s : string)
| Img (pos len : Z).

(** One call of [sslreq]: the host connected to, the request text and the
    bytes that follow it. *)
Record request : Type := {
  rq_host : string;
  rq_port : string;
  rq_head : string;
  rq_body : buffer
}.

(** The mutable part: [net] holds the replies the transport will give to the
    coming [sslreq] calls, in order ([None] is a transport error, and so is
    an exhausted script); the other fields record what the program did. *)
Record world : Type := {
  net : list (option string);
  sent : list request;
  stderr : list string;
  stdout : list string;
  slept : Z
}.

(** The key file as stdio sees it. *)
Record key_file : Type := {
  kf_bytes : string;        (* the bytes read before EOF or a read error *)
  kf_ferror : bool;         (* the stream ends in a read error, not in EOF *)
  kf_fclose_fails : bool
}.

(** The disk image as stdio sees it. *)
Record disk_image : Type := {
  im_fstat : option Z;            (* [st_size], [None] when fstat fails *)
  im_fread : Z -> Z -> bool       (* does reading [len] bytes at [pos] work *)
}.

(** The read-only part, and the helpers of the repository that live outside
    [main.c].  Signing reads the clock and can fail, so the signers see the
    world as well. *)
Record env : Type := {
  open_keyfile : string -> option key_file;
  open_image : string -> option disk_image;
  entropy_read : option string;
  hexify : string -> string;
  rfc3986_encode : string -> string;
  aws_sign_s3_headers :
    world -> string -> string -> string -> string -> string -> string ->
    buffer -> Z -> option (string * string * string);
  aws_sign_s3_querystr :
    world -> string -> string -> string -> string -> string -> string ->
    Z -> option string;
  aws_sign_ec2_headers :
    world -> string -> string -> string -> string ->
    option (string * string * string);
  aws_sign_sns_headers :
    world -> string -> string -> string -> string ->
    option (string * string * string)
}.

(** How a C function can end. *)
Inductive result (A : Type) : Type :=
| Ret (a : A)          (* it returned [a] *)
| Exit (code : Z)      (* [exit(code)] was called *)
| OutOfFuel            (* a loop outlived the fuel *)
| Undefined.           (* undefined behaviour was reached *)

Arguments Ret {A} a.
Arguments Exit {A} code.
Arguments OutOfFuel {A}.
Arguments Undefined {A}.

Definition M (A : Type) : Type := world -> result A * world.

Definition ret {A} (a : A) : M A := fun w => (Ret a, w).

Definition bind {A B} (m : M A) (k : A -> M B) : M B :=
  fun w =>
    match m w with
    | (Ret a, w') => k a w'
    | (Exit c, w') => (Exit c, w')
    | (OutOfFuel, w') => (OutOfFuel, w')
    | (Undefined, w') => (Undefined, w')
    end.

Definition exit {A} (code : Z) : M A := fun w => (Exit code, w).
Definition out_of_fuel {A} : M A := fun w => (OutOfFuel, w).
Definition undefined {A} : M A := fun w => (Undefined, w).

Declare Scope m_scope.
Delimit Scope m_scope with m.
Notation "x <- m ;; k" := (bind m (fun x => k))
  (at level 61, m at next level, right associativity) : m_scope.
Notation "m ;; k" := (bind m (fun _ => k))
  (at level 61, right associativity) : m_scope.
Local Open Scope m_scope.

(** [fprintf(stderr, ...)]. *)
Definition eprintf (s : string) : M unit :=
  fun w => (Ret tt, {| net := net w; sent := sent w;
                       stderr := stderr w ++ [s]; stdout := stdout w;
                       slept := slept w |}).

(** [printf(...)]. *)
Definition printf (s : string) : M unit :=
  fun w => (Ret tt, {| net := net w; sent := sent w;
                       stderr := stderr w; stdout := stdout w ++ [s];
                       slept := slept w |}).

(** [warnp] and [warn0]: one line on stderr (the program name and the errno
    text are left out). *)
Definition warnp (s : string) : M unit := eprintf s.
Definition warn0 (s : string) : M unit := eprintf s.

(** [sleep(n)]. *)
Definition sleep (n : Z) : M unit :=
  fun w => (Ret tt, {| net := net w; sent := sent w;
                       stderr := stderr w; stdout := stdout w;
                       slept := slept w + n |}).

(** [sslreq(host, port, CERTFILE, req, len, resp, &resplen)]: the request is
    sent, the next scripted reply comes back cut to the [resplen] bytes the
    caller's buffer holds; [None] stands for a non-NULL error string. *)
Definition sslreq (host port head : string) (body : buffer) (resplen : Z)
  : M (option string) :=
  fun w =>
    let rq := {| rq_host := host; rq_port := port;
                 rq_head := head; rq_body := body |} in
    let reply := match net w with
                 | Some r :: _ => Some (take (Z.to_nat resplen) r)
                 | _ => None
                 end in
    (Ret reply, {| net := tl (net w); sent := sent w ++ [rq];
                   stderr := stderr w; stdout := stdout w;
                   slept := slept w |}).

(** Reading the world, for the signers. *)
Definition observe {A} (f : world -> A) : M A := fun w => (Ret (f w), w).

Definition CR : string := String "013"%char EmptyString.
Definition LF : string := String "010"%char EmptyString.
Definition CRLF : string := CR ++ LF.
Definition DQ : string := String "034"%char EmptyString.

(** The status check shared by [s3_put], [ec2_apicall] and [sns_publish]:
    [" 200 "] occurs, and not after the end of the first line. *)
Definition status_200 (resp : string) : bool :=
  let pos := strcspn resp (CR ++ LF) in
  match strstr resp " 200 " with
  | None => false
  | Some i => (i <=? pos)%nat
  end.

(** ** Storage: [s3_put], [s3_put_loop] *)

Section Program.

Variable E : env.

Definition s3_put (key_id key_secret region bucket path : string)
    (buf : buffer) (buflen : Z) : M Z :=
  signed <- observe (fun w => aws_sign_s3_headers E w key_id key_secret
                                 region "PUT" bucket path buf buflen) ;;
  match signed with
  | None => warnp "Failed to sign PUT request" ;; ret (-1)
  | Some (x_amz_content_sha256, x_amz_date, authorization) =>
      let headers :=
        "PUT " ++ path ++ " HTTP/1.1" ++ CRLF ++
        "Host: " ++ bucket ++ ".s3.amazonaws.com" ++ CRLF ++
        "X-Amz-Date: " ++ x_amz_date ++ CRLF ++
        "X-Amz-Content-SHA256: " ++ x_amz_content_sha256 ++ CRLF ++
        "Authorization: " ++ authorization ++ CRLF ++
        "Content-Length: " ++ decimal buflen ++ CRLF ++
        "Connection: close" ++ CRLF ++
        CRLF in
      let host :=
        if negb (region =? "us-east-1")%string
        then "s3." ++ region ++ ".amazonaws.com"
        else "s3.amazonaws.com" in
      reply <- sslreq host "443" headers buf 16384 ;;
      match reply with
      | None => warnp "SSL request failed" ;; ret (-1)
      | Some resp =>
          let resp := cstr resp in
          if status_200 resp then ret 0
          else warnp ("S3 request failed:" ++ LF ++ resp ++ LF) ;; ret (-1)
      end
  end.

(** [for (i = 0; i < 10; i++)], [n] being the tries left ([10 - i]). *)
Fixpoint s3_put_tries (n : nat) (i : Z)
    (key_id key_secret region bucket path : string)
    (buf : buffer) (buflen : Z) : M Z :=
  match n with
  | O => ret (-1)
  | S n' =>
      r <- s3_put key_id key_secret region bucket path buf buflen ;;
      if r =? 0 then ret 0
      else
        eprintf ("S3 PUT failed " ++ decimal (i + 1) ++ " times: "
                 ++ path ++ LF) ;;
        s3_put_tries n' (i + 1) key_id key_secret region bucket path
          buf buflen
  end.

Definition s3_put_loop := s3_put_tries 10 0.

(** ** The import manifest *)

(** The manifest is an elastic string; each [str_append] adds one of these
    pieces, kept here with the arguments of its format string. *)
Inductive manifest_item : Type :=
| MHeader (bucket path query : string) (size volume_size count : Z)
| MPart (index start end_ : Z) (noncehex : string) (keyindex : Z)
| MHeadUrl (bucket path query : string)
| MGetUrl (bucket path query : string)
| MDeleteUrl (bucket path query : string)
| MPartEnd
| MFooter.

(** The text of a piece, as its format string prints it. *)
Definition render_item (it : manifest_item) : string :=
  match it with
  | MHeader bucket path query size volume_size count =>
      "<?xml version=" ++ DQ ++ "1.0" ++ DQ ++ " encoding=" ++ DQ ++ "UTF-8"
      ++ DQ ++ " standalone=" ++ DQ ++ "yes" ++ DQ ++ "?>"
      ++ "<manifest>"
      ++ "<version>2010-11-15</version>"
      ++ "<file-format>RAW</file-format>"
      ++ "<importer>"
      ++ "<name>bsdec2-image-upload</name>"
      ++ "<version>1.2.2</version>"
      ++ "<release>2019-03-20</release>"
      ++ "</importer>"
      ++ "<self-destruct-url>https://" ++ bucket ++ ".s3.amazonaws.com"
      ++ path ++ "?" ++ query ++ "</self-destruct-url>"
      ++ "<import>"
      ++ "<size>" ++ decimal size ++ "</size>"
      ++ "<volume-size>" ++ decimal volume_size ++ "</volume-size>"
      ++ "<parts count=" ++ DQ ++ decimal count ++ DQ ++ ">"
  | MPart index start end_ noncehex keyindex =>
      "<part index=" ++ DQ ++ decimal index ++ DQ ++ ">"
      ++ "<byte-range start=" ++ DQ ++ decimal start ++ DQ
      ++ " end=" ++ DQ ++ decimal end_ ++ DQ ++ "/>"
      ++ "<key>" ++ noncehex ++ "/part" ++ decimal keyindex ++ "</key>"
  | MHeadUrl bucket path query =>
      "<head-url>https://" ++ bucket ++ ".s3.amazonaws.com" ++ path ++ "?"
      ++ query ++ "</head-url>"
  | MGetUrl bucket path query =>
      "<get-url>https://" ++ bucket ++ ".s3.amazonaws.com" ++ path ++ "?"
      ++ query ++ "</get-url>"
  | MDeleteUrl bucket path query =>
      "<delete-url>https://" ++ bucket ++ ".s3.amazonaws.com" ++ path ++ "?"
      ++ query ++ "</delete-url>"
  | MPartEnd => "</part>"
  | MFooter => "</parts></import></manifest>"
  end.

(** [str_export]: the whole document. *)
Definition render (m : list manifest_item) : string :=
  String.concat "" (map render_item m).

(** The byte ranges of the manifest's parts, in document order. *)
Fixpoint byte_ranges (m : list manifest_item) : list (Z * Z) :=
  match m with
  | [] => []
  | MPart _ start end_ _ _ :: m' => (start, end_) :: byte_ranges m'
  | _ :: m' => byte_ranges m'
  end.

(** ** [uploadvolume] *)

Definition presign (key_id key_secret region method bucket path : string)
  : M (option string) :=
  observe (fun w => aws_sign_s3_querystr E w key_id key_secret region method
                      bucket path 604800).

(** The part loop, [for (pos = 0; pos < sb.st_size; pos += buflen)]; the
    result is the manifest so far, [None] after a [goto err].  The signed
    difference [sb.st_size - pos] is taken with [0 <= pos < sb.st_size] and
    fits; [pos += buflen] and [pos + buflen - 1] are unsigned sums that are
    converted back. *)
Fixpoint upload_parts (fuel : nat) (f : disk_image)
    (fname region bucket key_id key_secret noncehex : string)
    (st_size pos buflen : Z) (manifest : list manifest_item)
  : M (option (list manifest_item)) :=
  match fuel with
  | O => out_of_fuel
  | S fuel' =>
      if pos <? st_size then
        eprintf "." ;;
        let buflen :=
          if to_int64 (st_size - pos) <? to_int64 buflen
          then to_uint64 (to_int64 (st_size - pos))
          else buflen in
        if negb (im_fread f pos buflen) then
          warnp ("Error reading file: " ++ fname) ;; ret None
        else
          let partno := to_uint64 (pos ÷ PARTSZ) in
          let path := "/" ++ noncehex ++ "/part" ++ decimal partno in
          r <- s3_put_loop key_id key_secret region bucket path
                 (Img pos buflen) buflen ;;
          if negb (r =? 0) then warnp "PUT failed" ;; ret None
          else
            let manifest :=
              (manifest ++
               [MPart (to_int64 partno) pos
                  (to_int64 (to_uint64 (to_uint64 (pos + buflen) - 1)))
                  noncehex partno])%list in
            q <- presign key_id key_secret region "HEAD" bucket path ;;
            match q with
            | None => warnp "Error generating presigned URL" ;; ret None
            | Some query =>
            let manifest :=
              (manifest ++ [MHeadUrl bucket path (encodeamp query)])%list in
            q <- presign key_id key_secret region "GET" bucket path ;;
            match q with
            | None => warnp "Error generating presigned URL" ;; ret None
            | Some query =>
            let manifest :=
              (manifest ++ [MGetUrl bucket path (encodeamp query)])%list in
            q <- presign key_id key_secret region "DELETE" bucket path ;;
            match q with
            | None => warnp "Error generating presigned URL" ;; ret None
            | Some query =>
            let manifest :=
              (manifest ++ [MDeleteUrl bucket path (encodeamp query)])%list in
            let manifest := (manifest ++ [MPartEnd])%list in
            upload_parts fuel' f fname region bucket key_id key_secret
              noncehex st_size (to_int64 (to_uint64 (pos + buflen))) buflen
              manifest
            end end end
      else ret (Some manifest)
  end.

(** The result is the manifest path and [*size], [None] for [NULL]. *)
Definition uploadvolume (fuel : nat)
    (fname region bucket key_id key_secret : string)
  : M (option (string * Z)) :=
  match entropy_read E with
  | None => warnp "Cannot generate nonce" ;; ret None
  | Some nonce =>
  let noncehex := hexify E nonce in
  match open_image E fname with
  | None => warnp ("Cannot open disk image: " ++ fname) ;; ret None
  | Some f =>
  match im_fstat f with
  | None => warnp ("Cannot stat: " ++ fname) ;; ret None
  | Some st_size =>
  let path := "/" ++ noncehex ++ "/manifest.xml" in
  q <- presign key_id key_secret region "DELETE" bucket path ;;
  match q with
  | None => warnp "Error generating presigned URL" ;; ret None
  | Some query =>
  let query := encodeamp query in
  (* [sb.st_size + (1 << 30) - 1] and [sb.st_size + PARTSZ - 1] are sums of
     [off_t]: they must not overflow. *)
  if negb (fits_off_t (st_size + 2 ^ 30) && fits_off_t (st_size + 2 ^ 30 - 1)
           && fits_off_t (st_size + PARTSZ)
           && fits_off_t (st_size + PARTSZ - 1))
  then undefined
  else
  let count := to_uint64 (to_int64 (st_size + PARTSZ - 1)) ÷ PARTSZ in
  let manifest :=
    [MHeader bucket path query
       (to_int64 (to_uint64 st_size))
       (to_int32 (to_int64 (st_size + 2 ^ 30 - 1) ÷ 2 ^ 30))
       (to_int64 count)] in
  eprintf ("Uploading " ++ fname ++ " to" ++ LF ++ "http://" ++ bucket
           ++ ".s3.amazonaws.com/" ++ noncehex ++ "/" ++ LF ++ "in "
           ++ decimal (to_int64 count) ++ " part(s)") ;;
  r <- upload_parts fuel f fname region bucket key_id key_secret noncehex
         st_size 0 PARTSZ manifest ;;
  match r with
  | None => ret None
  | Some manifest =>
  eprintf (" done." ++ LF) ;;
  let manifest := (manifest ++ [MFooter])%list in
  let s := render manifest in
  eprintf "Uploading volume manifest..." ;;
  r <- s3_put_loop key_id key_secret region bucket path (Mem s)
         (Z.of_nat (String.length s)) ;;
  if negb (r =? 0) then ret None
  else
    eprintf (" done." ++ LF) ;;
    ret (Some (path, to_uint64 st_size))
  end end end end end.

(** ** Compute API: [ec2_apicall], [ec2_apicall_loop] *)

(** The result is the response body, [None] for [NULL].  The whole request
    is one string, so [sslreq] gets no bytes to append. *)
Definition ec2_apicall (key_id key_secret region s : string)
  : M (option string) :=
  signed <- observe (fun w => aws_sign_ec2_headers E w key_id key_secret
                                 region s) ;;
  match signed with
  | None => warnp "Failed to sign EC2 POST request" ;; ret None
  | Some (x_amz_content_sha256, x_amz_date, authorization) =>
      let req :=
        "POST / HTTP/1.0" ++ CRLF ++
        "Host: ec2." ++ region ++ ".amazonaws.com" ++ CRLF ++
        "X-Amz-Date: " ++ x_amz_date ++ CRLF ++
        "X-Amz-Content-SHA256: " ++ x_amz_content_sha256 ++ CRLF ++
        "Authorization: " ++ authorization ++ CRLF ++
        "Content-Length: " ++ decimal (Z.of_nat (String.length s)) ++ CRLF ++
        "Connection: close" ++ CRLF ++
        CRLF ++
        s in
      let host := "ec2." ++ region ++ ".amazonaws.com" in
      reply <- sslreq host "443" req (Mem "") 16384 ;;
      match reply with
      | None => warnp "SSL request failed" ;; ret None
      | Some resp =>
          if negb (String.length (cstr resp) =? String.length resp)%nat then
            warnp "NUL byte in EC2 API response" ;; ret None
          else if negb (status_200 resp) then
            warnp ("EC2 API request failed:" ++ LF ++ resp ++ LF) ;; ret None
          else
            match strstr resp (CRLF ++ CRLF) with
            | None =>
                warnp ("Bad EC2 API response received:" ++ LF ++ resp ++ LF) ;;
                ret None
            | Some i => ret (Some (drop (i + 4) resp))
            end
      end
  end.

(** [for (i = 0; i < 10; i++)], [n] being the tries left ([10 - i]). *)
Fixpoint ec2_apicall_tries (n : nat) (i : Z)
    (key_id key_secret region s : string) : M (option string) :=
  match n with
  | O => ret None
  | S n' =>
      body <- ec2_apicall key_id key_secret region s ;;
      match body with
      | Some b => ret (Some b)
      | None =>
          eprintf ("EC2 API call failed " ++ decimal (i + 1) ++ " times" ++ LF) ;;
          ec2_apicall_tries n' (i + 1) key_id key_secret region s
      end
  end.

Definition ec2_apicall_loop := ec2_apicall_tries 10 0.

(** ** Response parsing: [xmlextracts], [xmlextract] *)

(** The [while ((pst = strstr(s, tag)) != NULL)] loop.  Every round drops at
    least the two tags from [s], so [S (length s)] rounds of fuel are never
    used up; [None] is the [-1] taken when a closing tag is missing. *)
Fixpoint xmlextracts_from (fuel : nat) (s tag stag : string)
    (vallist : list string) : option (list string) :=
  match fuel with
  | O => None
  | S fuel' =>
      match strstr s tag with
      | None => Some vallist
      | Some i =>
          let pst := drop (i + String.length tag) s in
          match strstr pst stag with
          | None => None
          | Some j =>
              xmlextracts_from fuel' (drop (j + String.length stag) pst)
                tag stag (vallist ++ [take j pst])
          end
      end
  end.

Definition xmlextracts (s tagname : string) : option (list string) :=
  xmlextracts_from (S (String.length s)) s
    ("<" ++ tagname ++ ">") ("</" ++ tagname ++ ">") [].

Definition xmlextract (s tagname : string) : option string :=
  match xmlextracts s tagname with
  | None => None
  | Some [] => None
  | Some (contents :: _) => Some contents
  end.

(** ** The pipeline stages *)

(** The result is the list of region names, [None] for [-1]. *)
Definition getregionlist (key_id key_secret region : string)
  : M (option (list string)) :=
  r <- ec2_apicall_loop key_id key_secret region
         "Action=DescribeRegions&Version=2014-09-01" ;;
  match r with
  | None => ret None
  | Some resp =>
      match xmlextract resp "regionInfo" with
      | None =>
          warnp ("Could not find regionInfo in DescribeRegions response:"
                 ++ LF ++ resp ++ LF) ;;
          ret None
      | Some regionInfo =>
          match xmlextracts regionInfo "regionName" with
          | None => ret None
          | Some [] =>
              warn0 ("Could not find any regions in DescribeRegions response:"
                     ++ LF ++ resp ++ LF) ;;
              ret None
          | Some regions => ret (Some regions)
          end
      end
  end.

Definition importvolume (region bucket manifest : string) (size : Z)
    (key_id key_secret : string) : M (option string) :=
  q <- observe (fun w => aws_sign_s3_querystr E w key_id key_secret region
                           "GET" bucket manifest 604800) ;;
  match q with
  | None => ret None
  | Some query =>
      let url := "https://" ++ bucket ++ ".s3.amazonaws.com" ++ manifest
                 ++ "?" ++ query in
      let urlenc := rfc3986_encode E url in
      let s :=
        "Action=ImportVolume&" ++
        "AvailabilityZone=" ++ region ++ "a&" ++
        "Image.Format=RAW&" ++
        "Image.Bytes=" ++ decimal (to_int64 size) ++ "&" ++
        "Image.ImportManifestUrl=" ++ urlenc ++ "&" ++
        "Volume.Size=" ++
        decimal (to_int64 (to_uint64 (size + 2 ^ 30 - 1) ÷ 2 ^ 30)) ++ "&" ++
        "Version=2014-09-01" in
      r <- ec2_apicall key_id key_secret region s ;;
      match r with
      | None => ret None
      | Some resp =>
          match xmlextract resp "conversionTaskId" with
          | None =>
              warnp ("Could not find conversionTaskID in ImportVolume response:"
                     ++ LF ++ resp ++ LF) ;;
              ret None
          | Some taskid => ret (Some taskid)
          end
      end
  end.

(** The result is the new [*laststatus]. *)
Definition printstatus (prefix status : string) (laststatus : option string)
  : M (option string) :=
  match laststatus with
  | None =>
      eprintf (prefix ++ ": " ++ status) ;;
      ret (Some status)
  | Some last =>
      if negb (status =? last)%string then
        eprintf LF ;;
        eprintf (prefix ++ ": " ++ status) ;;
        ret (Some status)
      else
        eprintf "." ;;
        ret (Some last)
  end.

(** The [do ... while (1)] loop of [waitforimport]; the result is the volume
    ID, [None] for [NULL]. *)
Fixpoint waitforimport_poll (fuel : nat)
    (region taskid key_id key_secret : string) (laststatus : option string)
  : M (option string) :=
  match fuel with
  | O => out_of_fuel
  | S fuel' =>
      let s :=
        "Action=DescribeConversionTasks&" ++
        "ConversionTaskId.1=" ++ taskid ++ "&" ++
        "Version=2014-09-01" in
      r <- ec2_apicall_loop key_id key_secret region s ;;
      match r with
      | None => ret None
      | Some resp =>
          match xmlextract resp "volume" with
          | None =>
              warnp ("Could not find <volume> in DescribeConversionTasks response: "
                     ++ resp) ;;
              ret None
          | Some volume =>
              let finished :=
                match strstr resp "<state>active</state>" with
                | None => xmlextract volume "id"
                | Some _ => None
                end in
              match finished with
              | Some volid =>
                  eprintf (" done." ++ LF) ;;
                  ret (Some volid)
              | None =>
                  match xmlextract resp "statusMessage" with
                  | None =>
                      warnp ("Could not find <statusMessage> in DescribeConversionTasks response: "
                             ++ resp) ;;
                      ret None
                  | Some status =>
                      laststatus <- printstatus "Importing volume" status
                                      laststatus ;;
                      sleep 10 ;;
                      waitforimport_poll fuel' region taskid key_id key_secret
                        laststatus
                  end
              end
          end
      end
  end.

Definition waitforimport (fuel : nat)
    (region taskid key_id key_secret : string) : M (option string) :=
  waitforimport_poll fuel region taskid key_id key_secret None.

Definition createsnapshot (region volume key_id key_secret : string)
  : M (option string) :=
  let s :=
    "Action=CreateSnapshot&" ++
    "VolumeId=" ++ volume ++ "&" ++
    "Version=2014-09-01" in
  eprintf "Creating snapshot" ;;
  r <- ec2_apicall key_id key_secret region s ;;
  match r with
  | None => ret None
  | Some resp =>
      match xmlextract resp "snapshotId" with
      | None =>
          warnp ("Could not find <snapshotId> in CreateSnapshot response: "
                 ++ resp) ;;
          ret None
      | Some snapshot => ret (Some snapshot)
      end
  end.

(** The [do ... while (1)] loop of [waitforsnapshot]. *)
Fixpoint waitforsnapshot (fuel : nat)
    (region snapshot key_id key_secret : string) : M Z :=
  match fuel with
  | O => out_of_fuel
  | S fuel' =>
      let s :=
        "Action=DescribeSnapshots&" ++
        "SnapshotId.1=" ++ snapshot ++ "&" ++
        "Version=2014-09-01" in
      r <- ec2_apicall_loop key_id key_secret region s ;;
      match r with
      | None => ret (-1)
      | Some resp =>
          match xmlextract resp "status" with
          | None =>
              warnp ("Could not find <status> in DescribeSnapshots response: "
                     ++ resp) ;;
              ret (-1)
          | Some status =>
              if (status =? "completed")%string then
                eprintf (" done." ++ LF) ;;
                ret 0
              else if (status =? "pending")%string then
                eprintf "." ;;
                sleep 10 ;;
                waitforsnapshot fuel' region snapshot key_id key_secret
              else
                warnp ("Bad status from DescribeSnapshots: " ++ status) ;;
                ret (-1)
          end
      end
  end.

Definition deletevolume (region volume key_id key_secret : string) : M Z :=
  let s :=
    "Action=DeleteVolume&" ++
    "VolumeId=" ++ volume ++ "&" ++
    "Version=2014-09-01" in
  r <- ec2_apicall key_id key_secret region s ;;
  match r with
  | None => ret (-1)
  | Some resp =>
      match strstr resp "<return>true</return>" with
      | None => warnp ("DeleteVolume failed: " ++ resp) ;; ret (-1)
      | Some _ => ret 0
      end
  end.

Definition registerimage (region snapshot name desc arch : string)
    (sriov ena : bool) (key_id key_secret : string) : M (option string) :=
  let nameenc := rfc3986_encode E name in
  let descenc := rfc3986_encode E desc in
  let archenc := rfc3986_encode E arch in
  let s :=
    "Action=RegisterImage&" ++
    "Name=" ++ nameenc ++ "&" ++
    "Description=" ++ descenc ++ "&" ++
    "Architecture=" ++ archenc ++ "&" ++
    "RootDeviceName=%2Fdev%2Fsda1&" ++
    "VirtualizationType=hvm&" ++
    (if sriov then "SriovNetSupport=simple&" else "") ++
    (if ena then "EnaSupport=true&" else "") ++
    "BlockDeviceMapping.1.DeviceName=%2Fdev%2Fsda1&" ++
    "BlockDeviceMapping.1.Ebs.SnapshotId=" ++ snapshot ++ "&" ++
    "BlockDeviceMapping.1.Ebs.VolumeType=gp2&" ++
    "BlockDeviceMapping.1.Ebs.VolumeSize=10&" ++
    "BlockDeviceMapping.2.DeviceName=%2Fdev%2Fsdb&" ++
    "BlockDeviceMapping.2.VirtualName=ephemeral0&" ++
    "BlockDeviceMapping.3.DeviceName=%2Fdev%2Fsdc&" ++
    "BlockDeviceMapping.3.VirtualName=ephemeral1&" ++
    "BlockDeviceMapping.4.DeviceName=%2Fdev%2Fsdd&" ++
    "BlockDeviceMapping.4.VirtualName=ephemeral2&" ++
    "BlockDeviceMapping.5.DeviceName=%2Fdev%2Fsde&" ++
    "BlockDeviceMapping.5.VirtualName=ephemeral3&" ++
    "Version=2016-11-15" in
  eprintf "Registering AMI..." ;;
  r <- ec2_apicall key_id key_secret region s ;;
  match r with
  | None => ret None
  | Some resp =>
      match xmlextract resp "imageId" with
      | None =>
          warnp ("Could not find <imageId> in RegisterImage response: "
                 ++ resp) ;;
          ret None
      | Some ami => ret (Some ami)
      end
  end.

(** The [do ... while (1)] loop of [waitforami]. *)
Fixpoint waitforami (fuel : nat) (region ami key_id key_secret : string)
  : M Z :=
  match fuel with
  | O => out_of_fuel
  | S fuel' =>
      let s :=
        "Action=DescribeImages&" ++
        "ImageId.1=" ++ ami ++ "&" ++
        "Version=2014-09-01" in
      r <- ec2_apicall_loop key_id key_secret region s ;;
      match r with
      | None => ret (-1)
      | Some resp =>
          match xmlextract resp "imageState" with
          | None =>
              warnp ("Could not find <imageState> in DescribeImages response: "
                     ++ resp) ;;
              ret (-1)
          | Some status =>
              if (status =? "available")%string then
                eprintf (" done." ++ LF) ;;
                ret 0
              else if (status =? "pending")%string then
                eprintf "." ;;
                sleep 10 ;;
                waitforami fuel' region ami key_id key_secret
              else
                warnp ("Bad status from DescribeImages: " ++ status) ;;
                ret (-1)
          end
      end
  end.

Definition copyimage (region ami toregion key_id key_secret : string)
  : M (option string) :=
  let s :=
    "Action=CopyImage&" ++
    "SourceRegion=" ++ region ++ "&" ++
    "SourceImageId=" ++ ami ++ "&" ++
    "Version=2014-09-01" in
  r <- ec2_apicall key_id key_secret toregion s ;;
  match r with
  | None => ret None
  | Some resp =>
      match xmlextract resp "imageId" with
      | None =>
          warnp ("Could not find <imageId> in CopyImage response: " ++ resp) ;;
          ret None
      | Some toami => ret (Some toami)
      end
  end.

Definition makepublic (region ami key_id key_secret : string) : M Z :=
  let s :=
    "Action=ModifyImageAttribute&" ++
    "ImageId=" ++ ami ++ "&" ++
    "LaunchPermission.Add.1.Group=all&" ++
    "Version=2014-09-01" in
  r <- ec2_apicall_loop key_id key_secret region s ;;
  match r with
  | None => ret (-1)
  | Some resp =>
      match strstr resp "<return>true</return>" with
      | None => warnp ("ModifyImageAttribute failed: " ++ resp) ;; ret (-1)
      | Some _ => ret 0
      end
  end.

Definition makesnappublic (region snapshot key_id key_secret : string)
  : M Z :=
  let s :=
    "Action=ModifySnapshotAttribute&" ++
    "SnapshotId=" ++ snapshot ++ "&" ++
    "CreateVolumePermission.Add.1.Group=all&" ++
    "Version=2014-09-01" in
  r <- ec2_apicall_loop key_id key_secret region s ;;
  match r with
  | None => ret (-1)
  | Some resp =>
      match strstr resp "<return>true</return>" with
      | None => warnp ("ModifySnapshotAttribute failed: " ++ resp) ;; ret (-1)
      | Some _ => ret 0
      end
  end.

(** ** Notification: [sns_publish] *)

(** [strdup(&topicarn[12])] cut at the first [':']; reading past the end of
    a shorter [topicarn] is undefined, hence the [option]. *)
Definition sns_region (topicarn : string) : option string :=
  if (String.length topicarn <? 12)%nat then None
  else
    let region := drop 12 topicarn in
    Some (take (strcspn region ":") region).

(** The [for (i = 0; i < nregions; i++)] loop writing the region entries,
    [n] being the rounds left. *)
Fixpoint sns_message_regions (n i nregions : nat) (name : string)
    (regions amis : list string) : string :=
  match n with
  | O => ""
  | S n' =>
      "      " ++ DQ ++ nth i regions "" ++ DQ ++ ": [" ++ LF
      ++ "        {" ++ LF
      ++ "          " ++ DQ ++ "Name" ++ DQ ++ ": " ++ DQ ++ name ++ DQ ++ ","
      ++ LF
      ++ "          " ++ DQ ++ "ImageId" ++ DQ ++ ": " ++ DQ ++ nth i amis ""
      ++ DQ ++ LF ++ "        }" ++ LF ++ "      ]"
      ++ (if negb (i =? nregions - 1)%nat then "," else "")
      ++ LF
      ++ sns_message_regions n' (S i) nregions name regions amis
  end.

Definition sns_message (releaseversion imageversion name : string)
    (nregions : nat) (regions amis : list string) : string :=
  "{" ++ LF ++ "  " ++ DQ ++ "v1" ++ DQ ++ ": {" ++ LF
  ++ "    " ++ DQ ++ "ReleaseVersion" ++ DQ ++ ": " ++ DQ
  ++ releaseversion
  ++ DQ ++ "," ++ LF ++ "    " ++ DQ ++ "ImageVersion" ++ DQ ++ ": " ++ DQ
  ++ imageversion
  ++ DQ ++ "," ++ LF ++ "    " ++ DQ ++ "Regions" ++ DQ ++ ": {" ++ LF
  ++ sns_message_regions nregions 0 nregions name regions amis
  ++ "    }" ++ LF ++ "  }" ++ LF ++ "}".

(** The form-encoded request [s] that [sns_publish] builds. *)
Definition sns_request (topicarn releaseversion imageversion name : string)
    (nregions : nat) (regions amis : list string) : string :=
  let msg_subject := encodeamp ("New " ++ releaseversion ++ " AMIs") in
  let msg_topicarn := encodeamp topicarn in
  let msg_message :=
    sns_message releaseversion imageversion name nregions regions amis in
  "Action=Publish&Message=" ++ msg_message ++ "&" ++
  "Subject=" ++ msg_subject ++ "&TopicArn=" ++ msg_topicarn
  ++ "&Version=2010-03-31".

Definition sns_publish (key_id key_secret topicarn releaseversion
    imageversion name : string) (nregions : nat)
    (regions amis : list string) : M Z :=
  let s :=
    sns_request topicarn releaseversion imageversion name nregions regions
      amis in
  match sns_region topicarn with
  | None => undefined
  | Some region =>
  signed <- observe (fun w => aws_sign_sns_headers E w key_id key_secret
                                 region s) ;;
  match signed with
  | None => warnp "Failed to sign SNS POST request" ;; ret (-1)
  | Some (x_amz_content_sha256, x_amz_date, authorization) =>
      let req :=
        "POST / HTTP/1.0" ++ CRLF ++
        "Host: sns." ++ region ++ ".amazonaws.com" ++ CRLF ++
        "X-Amz-Date: " ++ x_amz_date ++ CRLF ++
        "X-Amz-Content-SHA256: " ++ x_amz_content_sha256 ++ CRLF ++
        "Authorization: " ++ authorization ++ CRLF ++
        "Content-Length: " ++ decimal (Z.of_nat (String.length s)) ++ CRLF ++
        "Content-Type: application/x-www-form-urlencoded" ++ CRLF ++
        "Connection: close" ++ CRLF ++
        CRLF ++
        s in
      let host := "sns." ++ region ++ ".amazonaws.com" in
      reply <- sslreq host "443" req (Mem "") 16384 ;;
      match reply with
      | None => warnp "SSL request failed" ;; ret (-1)
      | Some resp =>
          if negb (String.length (cstr resp) =? String.length resp)%nat then
            warnp "NUL byte in SNS API response" ;; ret (-1)
          else if negb (status_200 resp) then
            warnp ("SNS API request failed:" ++ LF ++ resp ++ LF) ;; ret (-1)
          else
            match strstr resp (CRLF ++ CRLF) with
            | None =>
                warnp ("Bad SNS API response received:" ++ LF ++ resp ++ LF) ;;
                ret (-1)
            | Some i =>
                let body := drop (i + 4) resp in
                match strstr body "<MessageId>" with
                | None =>
                    warnp ("SNS API call failed?" ++ LF ++ body ++ LF) ;;
                    ret (-1)
                | Some _ => ret 0
                end
            end
      end
  end end.

(** ** Credentials: [readkeys] *)

(** [fgets(buf, size, f)] on the unread bytes [s] of the stream: up to [n]
    bytes ([size - 1]), stopping after a newline; the buffer and what is
    left unread. *)
Fixpoint fgets_split (n : nat) (s : string) : string * string :=
  match n, s with
  | O, _ => (EmptyString, s)
  | S _, EmptyString => (EmptyString, EmptyString)
  | S n', String c s' =>
      if Ascii.eqb c "010"%char then (String c EmptyString, s')
      else let (buf, rest) := fgets_split n' s' in (String c buf, rest)
  end.

(** Does the stream run out while [fgets] still asks for bytes, that is,
    within the first [n] bytes and before a newline? *)
Fixpoint fgets_hits_end (n : nat) (s : string) : bool :=
  match n, s with
  | O, _ => false
  | S _, EmptyString => true
  | S n', String c s' =>
      if Ascii.eqb c "010"%char then false else fgets_hits_end n' s'
  end.

(** [fgets(buf, size, f)], [ferr] telling whether the stream ends in a read
    error and not in an end of file.  [None] is [NULL]: at the end of the
    stream, and on a read error, whatever was read before it.  The error
    indicator of the stream is then set exactly when [ferr] holds; a call
    that returns a line has not met the end of the stream in an error. *)
Definition fgets (size : nat) (ferr : bool) (s : string)
  : option (string * string) :=
  match s with
  | EmptyString => None
  | _ =>
      if ferr && fgets_hits_end (size - 1) s then None
      else Some (fgets_split (size - 1) s)
  end.

(** The [while (fgets(...) != NULL)] loop of [readkeys].  [None] is a jump
    to [err1] or [err2]; otherwise the keys found so far and the error
    indicator of the stream, what [ferror(f)] returns after the loop: it is
    set when the loop ended because [fgets] returned [NULL] on a read error,
    and it is clear at the [break], which follows a line that was read.
    Every round reads at least one byte, so a fuel above the length of the
    stream is never used up. *)
Fixpoint readkeys_lines (fuel : nat) (fname : string) (ferr : bool)
    (stream : string) (key_id key_secret : option string)
  : M (option (option string * option string * bool)) :=
  match fuel with
  | O => out_of_fuel
  | S fuel' =>
      match fgets 1024 ferr stream with
      | None => ret (Some (key_id, key_secret, ferr))
      | Some (buf, rest) =>
          let buf := cstr buf in
          let p := strcspn buf (CR ++ LF) in
          if (p =? String.length buf)%nat then
            warn0 ("Missing EOL in " ++ fname) ;;
            ret (Some (key_id, key_secret, false))
          else
            let buf := take p buf in
            match strchr buf "="%char with
            | None =>
                warn0 ("Lines in " ++ fname
                       ++ " must be ACCESS_KEY_(ID|SECRET)=...") ;;
                ret None
            | Some q =>
                let value := drop (S q) buf in
                let buf := take q buf in
                if (buf =? "ACCESS_KEY_ID")%string then
                  match key_id with
                  | Some _ => warn0 "ACCESS_KEY_ID specified twice" ;; ret None
                  | None =>
                      readkeys_lines fuel' fname ferr rest (Some value)
                        key_secret
                  end
                else if (buf =? "ACCESS_KEY_SECRET")%string then
                  match key_secret with
                  | Some _ =>
                      warn0 "ACCESS_KEY_SECRET specified twice" ;; ret None
                  | None =>
                      readkeys_lines fuel' fname ferr rest key_id
                        (Some value)
                  end
                else
                  warn0 ("Lines in " ++ fname
                         ++ " must be ACCESS_KEY_(ID|SECRET)=...") ;;
                  ret None
            end
      end
  end.

(** The result is [( *key_id, *key_secret)] when [readkeys] returns 0 and
    [None] when it returns -1. *)
Definition readkeys (fname : string) : M (option (string * string)) :=
  match open_keyfile E fname with
  | None => warnp ("fopen(" ++ fname ++ ")") ;; ret None
  | Some f =>
      r <- readkeys_lines (S (String.length (kf_bytes f))) fname
             (kf_ferror f) (kf_bytes f) None None ;;
      match r with
      | None => ret None
      | Some (key_id, key_secret, ferror) =>
          if ferror then
            warnp ("Error reading " ++ fname) ;; ret None
          else if kf_fclose_fails f then
            warnp "fclose" ;; ret None
          else
            match key_id, key_secret with
            | Some id, Some secret => ret (Some (id, secret))
            | _, _ =>
                warn0 "Need ACCESS_KEY_ID and ACCESS_KEY_SECRET" ;; ret None
            end
      end
  end.

(** ** [main] *)

Record flags : Type := {
  public : bool;
  publicsnap : bool;
  sriov : bool;
  ena : bool;
  arch : string
}.

Definition no_flags : flags :=
  {| public := false; publicsnap := false; sriov := false; ena := false;
     arch := "x86_64" |}.

(** The [while (argc > 1)] loop over the leading flags; [args] is
    [argv[1..]], and what is returned of it starts at the first word that is
    not a flag. *)
Fixpoint parse_flags (args : list string) (fl : flags)
  : flags * list string :=
  match args with
  | [] => (fl, [])
  | a :: rest =>
      if (a =? "--public")%string then
        parse_flags rest
          {| public := true; publicsnap := publicsnap fl; sriov := sriov fl;
             ena := ena fl; arch := arch fl |}
      else if (a =? "--publicsnap")%string then
        parse_flags rest
          {| public := public fl; publicsnap := true; sriov := sriov fl;
             ena := ena fl; arch := arch fl |}
      else if (a =? "--sriov")%string then
        parse_flags rest
          {| public := public fl; publicsnap := publicsnap fl; sriov := true;
             ena := ena fl; arch := arch fl |}
      else if (a =? "--ena")%string then
        parse_flags rest
          {| public := public fl; publicsnap := publicsnap fl;
             sriov := sriov fl; ena := true; arch := arch fl |}
      else if (a =? "--arm64")%string then
        parse_flags rest
          {| public := public fl; publicsnap := publicsnap fl;
             sriov := sriov fl; ena := ena fl; arch := "arm64" |}
      else (fl, args)
  end.

Definition usage : string :=
  "usage: bsdec2-image-upload [--public] [--publicsnap] [--sriov] [--ena]"
  ++ " [--arm64] <disk image> <name> <description> <region> <bucket>"
  ++ " <AWS keyfile> [<topicarn> <releaseversion> <imageversion>]" ++ LF.

(** First loop over the regions: copy the image everywhere but home. *)
Fixpoint copy_images (regions : list string)
    (region ami key_id key_secret : string) : M (list string) :=
  match regions with
  | [] => ret []
  | r :: rest =>
      if (r =? region)%string then
        amis <- copy_images rest region ami key_id key_secret ;;
        ret (ami :: amis)
      else
        eprintf (" " ++ r) ;;
        a <- copyimage region ami r key_id key_secret ;;
        match a with
        | None => warnp ("Error copying AMI to region " ++ r) ;; exit 1
        | Some toami =>
            amis <- copy_images rest region ami key_id key_secret ;;
            ret (toami :: amis)
        end
  end.

(** Second loop: wait for each copy in turn. *)
Fixpoint wait_copies (fuel : nat) (regions amis : list string)
    (region key_id key_secret : string) : M unit :=
  match regions, amis with
  | r :: regions', a :: amis' =>
      if (r =? region)%string then
        wait_copies fuel regions' amis' region key_id key_secret
      else
        eprintf ("Waiting for AMI copying to " ++ r ++ "...") ;;
        st <- waitforami fuel r a key_id key_secret ;;
        if negb (st =? 0) then warnp "Failure waiting for AMI" ;; exit 1
        else wait_copies fuel regions' amis' region key_id key_secret
  | _, _ => ret tt
  end.

(** Third loop: mark every image public. *)
Fixpoint make_all_public (regions amis : list string)
    (key_id key_secret : string) : M unit :=
  match regions, amis with
  | r :: regions', a :: amis' =>
      st <- makepublic r a key_id key_secret ;;
      if negb (st =? 0) then warnp "Error marking AMI as public" ;; exit 1
      else make_all_public regions' amis' key_id key_secret
  | _, _ => ret tt
  end.

(** Fourth loop: print the list of images. *)
Fixpoint print_amis (regions amis : list string) : M unit :=
  match regions, amis with
  | r :: regions', a :: amis' =>
      printf ("Created AMI in " ++ r ++ " region: " ++ a ++ LF) ;;
      print_amis regions' amis'
  | _, _ => ret tt
  end.

(** [main] from "Load AWS keys" to "Print the list of AMIs": every stage
    that comes before the notification.  [args] are the positional
    arguments.  A normal return hands the keys, the regions and their images
    to the rest of [main]. *)
Definition main_stages (fuel : nat) (fl : flags) (args : list string)
  : M (string * string * list string * list string) :=
  let diskimg := nth 0 args "" in
  let name := nth 1 args "" in
  let desc := nth 2 args "" in
  let region := nth 3 args "" in
  let bucket := nth 4 args "" in
  let keyfile := nth 5 args "" in
  keys <- readkeys keyfile ;;
  match keys with
  | None => warnp "Cannot read AWS keys" ;; exit 1
  | Some (key_id, key_secret) =>
  rl <- getregionlist key_id key_secret region ;;
  match rl with
  | None => warnp "Failure getting list of AWS regions" ;; exit 1
  | Some regions =>
  up <- uploadvolume fuel diskimg region bucket key_id key_secret ;;
  match up with
  | None => warnp "Failure uploading disk image" ;; exit 1
  | Some (manifest, size) =>
  t <- importvolume region bucket manifest size key_id key_secret ;;
  match t with
  | None => warnp "Failure importing disk image" ;; exit 1
  | Some taskid =>
  v <- waitforimport fuel region taskid key_id key_secret ;;
  match v with
  | None => warnp "Failure waiting for EBS volume" ;; exit 1
  | Some volume =>
  sn <- createsnapshot region volume key_id key_secret ;;
  match sn with
  | None => warnp "Failure creating snapshot" ;; exit 1
  | Some snapshot =>
  st <- waitforsnapshot fuel region snapshot key_id key_secret ;;
  if negb (st =? 0) then warnp "Failure waiting for EBS snapshot" ;; exit 1
  else
  st <- deletevolume region volume key_id key_secret ;;
  if negb (st =? 0) then warnp "Failure deleting EBS volume" ;; exit 1
  else
  (if publicsnap fl then
     eprintf ("Marking " ++ snapshot ++ " in " ++ region ++ " as public...") ;;
     st <- makesnappublic region snapshot key_id key_secret ;;
     if negb (st =? 0) then
       warnp "Error marking EBS snapshot as public" ;; exit 1
     else eprintf (" done." ++ LF)
   else ret tt) ;;
  a <- registerimage region snapshot name desc (arch fl) (sriov fl) (ena fl)
         key_id key_secret ;;
  match a with
  | None => warnp "Failure registering AMI" ;; exit 1
  | Some ami =>
  st <- waitforami fuel region ami key_id key_secret ;;
  if negb (st =? 0) then warnp "Failure waiting for AMI" ;; exit 1
  else
  if negb (public fl) then
    printf ("Created AMI in " ++ region ++ " region: " ++ ami ++ LF) ;;
    exit 0
  else
  eprintf "Copying AMI to regions:" ;;
  amis <- copy_images regions region ami key_id key_secret ;;
  eprintf ("." ++ LF) ;;
  wait_copies fuel regions amis region key_id key_secret ;;
  eprintf "Marking images as public..." ;;
  make_all_public regions amis key_id key_secret ;;
  eprintf (" done." ++ LF) ;;
  print_amis regions amis ;;
  ret (key_id, key_secret, regions, amis)
  end end end end end end end.

(** [main]; [argv] starts with the program name.  The result is the value
    [main] returns. *)
Definition main (fuel : nat) (argv : list string) : M Z :=
  let (fl, args) := parse_flags (tl argv) no_flags in
  let argc := (1 + List.length args)%nat in
  if negb (argc =? 7)%nat && negb (argc =? 10)%nat then
    eprintf usage ;; exit 1
  else
    let name := nth 1 args "" in
    let topicarn := if (argc =? 10)%nat then Some (nth 6 args "") else None in
    let releaseversion := nth 7 args "" in
    let imageversion := nth 8 args "" in
    r <- main_stages fuel fl args ;;
    let '(key_id, key_secret, regions, amis) := r in
    match topicarn with
    | Some topicarn =>
        st <- sns_publish key_id key_secret topicarn releaseversion
                imageversion name (List.length regions) regions amis ;;
        if negb (st =? 0) then
          warnp "Failed to send SNS notification" ;; ret 0
        else ret 0
    | None => ret 0
    end.

End Program.

(** The exit status of the process, when it ends. *)
Definition exit_status (r : result Z) : option Z :=
  match r with
  | Ret v => Some v
  | Exit code => Some code
  | OutOfFuel => None
  | Undefined => None
  end.

(** ** Notions used to state the properties of the loops *)

Section Runs.

Variable E : env.

(** [k] calls of [s3_put] in a row, made and reported the way [s3_put_loop]
    does from its counter value [i] on, and every one of them failing: the
    world they leave behind.  [None] when one of the [k] calls succeeds. *)
Fixpoint s3_put_failures (k : nat) (i : Z)
    (key_id key_secret region bucket path : string)
    (buf : buffer) (buflen : Z) (w : world) : option world :=
  match k with
  | O => Some w
  | S k' =>
      match s3_put E key_id key_secret region bucket path buf buflen w with
      | (Ret r, w1) =>
          if r =? 0 then None
          else
            s3_put_failures k' (i + 1) key_id key_secret region bucket path
              buf buflen
              (snd (eprintf ("S3 PUT failed " ++ decimal (i + 1) ++ " times: "
                             ++ path ++ LF) w1))
      | _ => None
      end
  end.

(** The same for [ec2_apicall] under [ec2_apicall_loop]. *)
Fixpoint ec2_apicall_failures (k : nat) (i : Z)
    (key_id key_secret region s : string) (w : world) : option world :=
  match k with
  | O => Some w
  | S k' =>
      match ec2_apicall E key_id key_secret region s w with
      | (Ret None, w1) =>
          ec2_apicall_failures k' (i + 1) key_id key_secret region s
            (snd (eprintf ("EC2 API call failed " ++ decimal (i + 1)
                           ++ " times" ++ LF) w1))
      | _ => None
      end
  end.

(** The status query of [waitforsnapshot]. *)
Definition snapshot_query (region snapshot key_id key_secret : string)
  : M (option string) :=
  ec2_apicall_loop E key_id key_secret region
    ("Action=DescribeSnapshots&" ++ "SnapshotId.1=" ++ snapshot ++ "&"
     ++ "Version=2014-09-01").

(** [n] status queries in a row that all observe ["pending"], each followed
    by a dot on stderr and a sleep of 10 seconds: the world they leave
    behind.  [None] when one of them observes anything else. *)
Fixpoint pending_polls (n : nat) (region snapshot key_id key_secret : string)
    (w : world) : option world :=
  match n with
  | O => Some w
  | S n' =>
      match snapshot_query region snapshot key_id key_secret w with
      | (Ret (Some resp), w1) =>
          match xmlextract resp "status" with
          | Some status =>
              if (status =? "pending")%string then
                pending_polls n' region snapshot key_id key_secret
                  (snd (sleep 10 (snd (eprintf "." w1))))
              else None
          | None => None
          end
      | _ => None
      end
  end.

(** The status query of [waitforimport]. *)
Definition import_query (region taskid key_id key_secret : string)
  : M (option string) :=
  ec2_apicall_loop E key_id key_secret region
    ("Action=DescribeConversionTasks&" ++ "ConversionTaskId.1=" ++ taskid
     ++ "&" ++ "Version=2014-09-01").

End Runs.

(** The progress dots on stderr. *)
Definition dots (w : world) : nat := count_occ string_dec (stderr w) ".".

(** ** A concrete environment, for the examples *)

(** A well-formed reply with the given body. *)
Definition http_ok (body : string) : option string :=
  Some ("HTTP/1.1 200 OK" ++ CRLF ++ "Content-Type: text/xml" ++ CRLF
        ++ CRLF ++ body).

(** Every file name opens the key file [keys] and a readable disk image of
    [size] bytes; signing always works. *)
Definition demo_env (keys : string) (size : Z) : env :=
  {| open_keyfile := fun _ =>
       Some {| kf_bytes := keys; kf_ferror := false;
               kf_fclose_fails := false |};
     open_image := fun _ =>
       Some {| im_fstat := Some size; im_fread := fun _ _ => true |};
     entropy_read := Some "0123456789abcdef";
     hexify := fun _ => "30313233343536373839616263646566";
     rfc3986_encode := fun s => s;
     aws_sign_s3_headers := fun _ _ _ _ _ _ _ _ _ =>
       Some ("e3b0c442", "20190320T000000Z", "AWS4-HMAC-SHA256 Signature=00");
     aws_sign_s3_querystr := fun _ _ _ _ method _ _ _ =>
       Some ("X-Amz-Algorithm=AWS4-HMAC-SHA256&X-Amz-Expires=604800"
             ++ "&X-Amz-SignedHeaders=host&X-Amz-Signature=" ++ method);
     aws_sign_ec2_headers := fun _ _ _ _ _ =>
       Some ("e3b0c442", "20190320T000000Z", "AWS4-HMAC-SHA256 Signature=00");
     aws_sign_sns_headers := fun _ _ _ _ _ =>
       Some ("e3b0c442", "20190320T000000Z", "AWS4-HMAC-SHA256 Signature=00")
  |}.

(** A world in which nothing has happened yet and the transport will give
    the [replies]. *)
Definition fresh_world (replies : list (option string)) : world :=
  {| net := replies; sent := []; stderr := []; stdout := []; slept := 0 |}.

Definition demo_keys : string :=
  "ACCESS_KEY_ID=AKIDEXAMPLE" ++ LF ++ "ACCESS_KEY_SECRET=wJalrXUtnFEMI" ++ LF.

(** A [DescribeConversionTasks] response for a cancelled task whose volume
    was never created. *)
Definition cancelled_task : string :=
  "<DescribeConversionTasksResponse><conversionTasks><item>"
  ++ "<conversionTaskId>import-vol-1</conversionTaskId>"
  ++ "<importVolume><bytesConverted>0</bytesConverted>"
  ++ "<volume><size>1</size></volume></importVolume>"
  ++ "<state>cancelled</state>"
  ++ "<statusMessage>ClientError: Disk validation failed</statusMessage>"
  ++ "</item></conversionTasks></DescribeConversionTasksResponse>".

(** A response for a cancelled task that names a volume. *)
Definition cancelled_task_with_volume : string :=
  "<DescribeConversionTasksResponse><conversionTasks><item>"
  ++ "<conversionTaskId>import-vol-1</conversionTaskId>"
  ++ "<importVolume><bytesConverted>0</bytesConverted>"
  ++ "<volume><size>1</size><id>vol-123</id></volume></importVolume>"
  ++ "<state>cancelled</state>"
  ++ "<statusMessage>ClientError: Disk validation failed</statusMessage>"
  ++ "</item></conversionTasks></DescribeConversionTasksResponse>".

(** The answers of a run in which every stage succeeds, for an empty image,
    two regions and [--public]; the last one is the answer to the SNS
    request. *)
Definition happy_answers (sns_answer : option string)
  : list (option string) :=
  [ http_ok ("<DescribeRegionsResponse><regionInfo>"
             ++ "<item><regionName>us-west-2</regionName></item>"
             ++ "<item><regionName>eu-west-1</regionName></item>"
             ++ "</regionInfo></DescribeRegionsResponse>");
    http_ok "";
    http_ok ("<ImportVolumeResponse><conversionTask>"
             ++ "<conversionTaskId>import-vol-1</conversionTaskId>"
             ++ "</conversionTask></ImportVolumeResponse>");
    http_ok ("<DescribeConversionTasksResponse><conversionTasks><item>"
             ++ "<importVolume><volume><size>1</size><id>vol-123</id>"
             ++ "</volume></importVolume><state>completed</state>"
             ++ "</item></conversionTasks></DescribeConversionTasksResponse>");
    http_ok "<CreateSnapshotResponse><snapshotId>snap-1</snapshotId></CreateSnapshotResponse>";
    http_ok "<DescribeSnapshotsResponse><status>completed</status></DescribeSnapshotsResponse>";
    http_ok "<DeleteVolumeResponse><return>true</return></DeleteVolumeResponse>";
    http_ok "<RegisterImageResponse><imageId>ami-1</imageId></RegisterImageResponse>";
    http_ok "<DescribeImagesResponse><imageState>available</imageState></DescribeImagesResponse>";
    http_ok "<CopyImageResponse><imageId>ami-2</imageId></CopyImageResponse>";
    http_ok "<DescribeImagesResponse><imageState>available</imageState></DescribeImagesResponse>";
    http_ok "<ModifyImageAttributeResponse><return>true</return></ModifyImageAttributeResponse>";
    http_ok "<ModifyImageAttributeResponse><return>true</return></ModifyImageAttributeResponse>";
    sns_answer ].

Definition demo_argv : list string :=
  ["bsdec2-image-upload"; "--public"; "disk.img"; "FreeBSD 12.0-RELEASE";
   "FreeBSD/amd64 releng/12.0"; "us-west-2"; "bucket"; "aws.keys";
   "arn:aws:sns:us-east-1:123456789012:ami-updates"; "12.0-RELEASE"; "1"].

(** ** Notions used to state the properties of the upload *)

(** Length of the part that starts at offset [pos] of an image of [len]
    bytes. *)
Definition part_len (len pos : Z) : Z := Z.min PARTSZ (len - pos).

(** How many parts are still to be uploaded from [pos] on. *)
Definition parts_left (len pos : Z) : nat :=
  Z.to_nat ((len - pos + PARTSZ - 1) / PARTSZ).

(** The byte ranges of [n] consecutive parts, the first one at [pos]. *)
Fixpoint ranges_from (len : Z) (n : nat) (pos : Z) : list (Z * Z) :=
  match n with
  | O => []
  | S n' =>
      (pos, pos + part_len len pos - 1) :: ranges_from len n' (pos + PARTSZ)
  end.

(** The path of the part that starts at [pos]. *)
Definition part_path (noncehex : string) (pos : Z) : string :=
  "/" ++ noncehex ++ "/part" ++ decimal (pos / PARTSZ).

(** What one round of the part loop appends to the manifest. *)
Definition part_items (bucket noncehex : string) (len pos : Z)
    (q1 q2 q3 : string) : list manifest_item :=
  [MPart (pos / PARTSZ) pos (pos + part_len len pos - 1) noncehex
     (pos / PARTSZ);
   MHeadUrl bucket (part_path noncehex pos) (encodeamp q1);
   MGetUrl bucket (part_path noncehex pos) (encodeamp q2);
   MDeleteUrl bucket (part_path noncehex pos) (encodeamp q3);
   MPartEnd].

(** The ranges [rs] cut the bytes [0 .. len - 1] into [count] parts: they
    follow one another without a gap from 0 to [len - 1], none is empty,
    every byte lies in exactly one of them, and the last one holds what the
    [count - 1] full parts before it leave. *)
Definition cut_into_parts (rs : list (Z * Z)) (len count : Z) : Prop :=
  let range i := nth i rs (0, 0) in
  let n := List.length rs in
  Z.of_nat n = count
  /\ fst (range O) = 0
  /\ (forall i, (S i < n)%nat -> fst (range (S i)) = snd (range i) + 1)
  /\ (forall i, (i < n)%nat -> fst (range i) <= snd (range i))
  /\ snd (range (n - 1)%nat) = len - 1
  /\ (forall b, 0 <= b < len <->
        exists i, (i < n)%nat /\ fst (range i) <= b <= snd (range i))
  /\ (forall i j b, (i < n)%nat -> (j < n)%nat ->
        fst (range i) <= b <= snd (range i) ->
        fst (range j) <= b <= snd (range j) -> i = j)
  /\ snd (range (n - 1)%nat) - fst (range (n - 1)%nat) + 1
     = len - (count - 1) * PARTSZ.

(** A run that prints no progress dot, does not sleep and leaves stdout
    alone. *)
Definition quiet (w w' : world) : Prop :=
  dots w' = dots w /\ slept w' = slept w /\ stdout w' = stdout w.

(** ** The key file format, in the words of the specification *)

(** The bytes of a file made of the given lines, each one ended by a
    newline. *)
Fixpoint unlines (lines : list string) : string :=
  match lines with
  | [] => EmptyString
  | l :: ls => l ++ LF ++ unlines ls
  end.

(** The value of a line of the form [name=<value>]. *)
Definition key_value (name line : string) : option string :=
  if prefix (name ++ "=") line
  then Some (drop (S (String.length name)) line)
  else None.

(** A line of one of the two forms. *)
Definition is_key_line (line : string) : bool :=
  match key_value "ACCESS_KEY_ID" line,
        key_value "ACCESS_KEY_SECRET" line with
  | None, None => false
  | _, _ => true
  end.

(** The values given to [name], in file order. *)
Fixpoint values_of (name : string) (lines : list string) : list string :=
  match lines with
  | [] => []
  | l :: ls =>
      match key_value name l with
      | Some v => v :: values_of name ls
      | None => values_of name ls
      end
  end.

(** The keys of a well-formed file: every line has one of the two forms and
    each key appears exactly once; [None] for any other file. *)
Definition keys_of (lines : list string) : option (string * string) :=
  if forallb is_key_line lines then
    match values_of "ACCESS_KEY_ID" lines,
          values_of "ACCESS_KEY_SECRET" lines with
    | [id], [secret] => Some (id, secret)
    | _, _ => None
    end
  else None.

(** A line that fits the 1024-byte buffer of [readkeys] with its newline
    and holds no CR, LF or NUL byte. *)
Definition plain_line (line : string) : Prop :=
  (String.length line < 1023)%nat
  /\ strcspn line (CR ++ LF ++ String zero EmptyString) = String.length line.

(** The key held once the values [later] have been read after [seen];
    [None] when that makes two of them. *)
Definition one_key (seen : option string) (later : list string)
  : option (option string) :=
  match seen, later with
  | _, [] => Some seen
  | None, [v] => Some (Some v)
  | _, _ => None
  end.

(** ** Notions used to state the properties of the responses *)

(** Does [pat] occur in [s]? *)
Definition contains (s pat : string) : bool :=
  match strstr s pat with
  | Some _ => true
  | None => false
  end.

(** The bytes of a response before its first CR or LF. *)
Definition first_line (resp : string) : string :=
  take (strcspn resp (CR ++ LF)) resp.

(** ** Notions used to state the properties of the XML extraction *)

(** The element [<tagname>value</tagname>]. *)
Definition element (tagname value : string) : string :=
  ("<" ++ tagname ++ ">") ++ value ++ ("</" ++ tagname ++ ">").

(** A document made of elements named [tagname], each one after some text,
    and of what follows the last one; an item is the text before an element
    and the value of the element. *)
Fixpoint elements (tagname : string) (items : list (string * string))
    (trailer : string) : string :=
  match items with
  | [] => trailer
  | (text, value) :: items' =>
      text ++ element tagname value ++ elements tagname items' trailer
  end.

(** The first [pat] of [s ++ pat] is the one at its end: [s] neither holds
    [pat] nor ends in a part of it that the [pat] after it completes. *)
Definition clear_of (s pat : string) : bool :=
  match strstr (s ++ pat) pat with
  | Some i => (i =? String.length s)%nat
  | None => false
  end.

(** The items of a document whose elements [xmlextracts] can tell apart: no
    text opens an element, and no value closes one. *)
Definition separable (tagname : string) (items : list (string * string))
  : bool :=
  forallb (fun it => clear_of (fst it) ("<" ++ tagname ++ ">")
                     && clear_of (snd it) ("</" ++ tagname ++ ">")) items.

(** A response as HTTP writes it: the status line, every header line after
    a CR LF, then an empty line and the body. *)
Definition http_response (status : string) (headers : list string)
    (body : string) : string :=
  status ++ String.concat "" (map (append CRLF) headers)
  ++ (CRLF ++ CRLF) ++ body.

(** A line of the head of a response: not empty, and without CR or LF. *)
Definition head_line (l : string) : bool :=
  negb (l =? "")%string && (strcspn l (CR ++ LF) =? String.length l)%nat.

(** No NUL byte in [s]. *)
Definition no_nul (s : string) : bool :=
  (String.length (cstr s) =? String.length s)%nat.

(** ** Notions used to state the properties of a whole run *)

(** A request to a notification host. *)
Definition sns_host (rq : request) : bool := prefix "sns." (rq_host rq).

(** A line of the list of images that [main] prints. *)
Definition ami_line (line : string) : bool := prefix "Created AMI in " line.

(** What the stages before the notification may do to the world: send
    requests, none of them to a notification host; add lines to stdout, all
    of them lines of the list of images; add lines to stderr; take replies
    off the transport. *)
Definition calm (w w' : world) : Prop :=
  (exists rqs, sent w' = (sent w ++ rqs)%list
               /\ Forall (fun rq => sns_host rq = false) rqs)
  /\ (exists lines, stdout w' = (stdout w ++ lines)%list
                    /\ Forall (fun l => ami_line l = true) lines)
  /\ (exists lines, stderr w' = (stderr w ++ lines)%list)
  /\ (List.length (net w') <= List.length (net w))%nat.

(** Why a run started in [w] may run out of fuel: the fuel [n] is not above
    the number of replies the transport still holds, or [p] holds. *)
Definition starved (n : nat) (p : Prop) (w : world) : Prop :=
  (n <= List.length (net w))%nat \/ p.

(** How a computation ends, from any world: the world it leaves is related
    to the one it started in as [calm] says; a value it returns satisfies
    [R]; when it ends the process, [X] holds of the exit status and of the
    world left; it runs out of fuel only when [starved n p] holds of the
    world it started in; and it reaches undefined behaviour only when [u]
    holds. *)
Definition ends {A} (n : nat) (p u : Prop) (m : M A) (R : A -> Prop)
    (X : Z -> world -> Prop) : Prop :=
  forall w,
    calm w (snd (m w))
    /\ match fst (m w) with
       | Ret a => R a
       | Exit code => X code (snd (m w))
       | OutOfFuel => starved n p w
       | Undefined => u
       end.

(** A query that takes a reply off the transport whenever it returns a
    response. *)
Definition consumes (m : M (option string)) : Prop :=
  forall w b w',
    m w = (Ret (Some b), w') ->
    (List.length (net w') < List.length (net w))%nat.

(** The part loop of [uploadvolume] has fuel for the image [fname]: more
    than the image has parts. *)
Definition image_fits (E : env) (fuel : nat) (fname : string) : Prop :=
  forall f L,
    open_image E fname = Some f -> im_fstat f = Some L ->
    0 <= L < 2 ^ 63 /\ (parts_left L 0 < fuel)%nat.

(** The image [fname] is too large for the size arithmetic of
    [uploadvolume]: its size is not an [off_t] below [2^63 - 2^30], so that
    [sb.st_size + (1 << 30)] overflows. *)
Definition oversized (E : env) (fname : string) : Prop :=
  exists f L,
    open_image E fname = Some f /\ im_fstat f = Some L
    /\ ~ (- 2 ^ 63 <= L < 2 ^ 63 - 2 ^ 30).

(** The messages [main] prints before [exit(1)]. *)
Definition diagnostics : list string :=
  [usage;
   "Cannot read AWS keys";
   "Failure getting list of AWS regions";
   "Failure uploading disk image";
   "Failure importing disk image";
   "Failure waiting for EBS volume";
   "Failure creating snapshot";
   "Failure waiting for EBS snapshot";
   "Failure deleting EBS volume";
   "Error marking EBS snapshot as public";
   "Failure registering AMI";
   "Failure waiting for AMI";
   "Error marking AMI as public"].

Definition diagnostic (msg : string) : bool :=
  prefix "Error copying AMI to region " msg
  || existsb (String.eqb msg) diagnostics.

(** The two ways [main] ends the process: with status 1, a diagnostic being
    the last line on stderr, or with status 0, a line of the list of images
    being the last line on stdout. *)
Definition main_exit (code : Z) (w : world) : Prop :=
  (code = 1 /\ diagnostic (last (stderr w) "") = true)
  \/ (code = 0 /\ ami_line (last (stdout w) "") = true).

(** ** Notions used to state the properties of the command line *)

(** The words [main] takes for flags. *)
Definition is_flag (a : string) : bool :=
  existsb (String.eqb a)
    ["--public"; "--publicsnap"; "--sriov"; "--ena"; "--arm64"].

(** Is the flag [name] among the words [fs]? *)
Definition given (name : string) (fs : list string) : bool :=
  existsb (fun a => (a =? name)%string) fs.

(** The first of [args], if any, is not a flag. *)
Definition no_flag_first (args : list string) : bool :=
  match args with
  | [] => true
  | a :: _ => negb (is_flag a)
  end.

(** ** Notions used to state the properties of key files with CR *)

(** The bytes of a file each of whose lines holds a CR: an item is what
    comes before the first CR of a line and what comes between that CR and
    the newline. *)
Fixpoint unlines_cr (lines : list (string * string)) : string :=
  match lines with
  | [] => EmptyString
  | (l, after) :: ls => l ++ CR ++ after ++ LF ++ unlines_cr ls
  end.

(** Such a line fits the 1024-byte buffer of [readkeys] with its newline;
    there is no CR, LF or NUL byte before its first CR, and no LF or NUL
    byte after it. *)
Definition cr_line (it : string * string) : Prop :=
  plain_line (fst it)
  /\ strcspn (snd it) (LF ++ String zero EmptyString)
     = String.length (snd it)
  /\ (String.length (fst it) + 1 + String.length (snd it) < 1023)%nat.

(** ** Notions used to state what the upload sends *)

(** The window of the image that a request carries, as a byte range. *)
Definition window (rq : request) : option (Z * Z) :=
  match rq_body rq with
  | Img pos len => Some (pos, pos + len - 1)
  | Mem _ => None
  end.

(** The windows of the image that a list of requests carries, in order. *)
Fixpoint windows (rqs : list request) : list (Z * Z) :=
  match rqs with
  | [] => []
  | rq :: rqs' =>
      match window rq with
      | Some r => r :: windows rqs'
      | None => windows rqs'
      end
  end.

(** Each range of [rs] as many times in a row as [ks] says. *)
Fixpoint repeated (rs : list (Z * Z)) (ks : list nat) : list (Z * Z) :=
  match rs, ks with
  | r :: rs', k :: ks' => (repeat r k ++ repeated rs' ks')%list
  | _, _ => []
  end.

(** ** The import manifest as a document *)

(** The text of the manifest written out in one piece, to be compared with
    what [uploadvolume] assembles from its format strings.  A part is given
    by its byte range and by the three query strings the signer handed out
    for it. *)

(** The [<part>] element of the part number [index]. *)
Definition part_element (bucket noncehex : string) (index : Z)
    (part : (Z * Z) * (string * string * string)) : string :=
  let '((start, end_), (q_head, q_get, q_delete)) := part in
  let url q :=
    "https://" ++ bucket ++ ".s3.amazonaws.com/" ++ noncehex ++ "/part"
    ++ decimal index ++ "?" ++ encodeamp q in
  "<part index=" ++ DQ ++ decimal index ++ DQ ++ ">"
  ++ "<byte-range start=" ++ DQ ++ decimal start ++ DQ
  ++ " end=" ++ DQ ++ decimal end_ ++ DQ ++ "/>"
  ++ "<key>" ++ noncehex ++ "/part" ++ decimal index ++ "</key>"
  ++ "<head-url>" ++ url q_head ++ "</head-url>"
  ++ "<get-url>" ++ url q_get ++ "</get-url>"
  ++ "<delete-url>" ++ url q_delete ++ "</delete-url>"
  ++ "</part>".

(** The [<part>] elements of [parts], numbered from [index] on. *)
Fixpoint part_elements (bucket noncehex : string) (index : Z)
    (parts : list ((Z * Z) * (string * string * string))) : string :=
  match parts with
  | [] => EmptyString
  | part :: parts' =>
      part_element bucket noncehex index part
      ++ part_elements bucket noncehex (index + 1) parts'
  end.

(** What comes before the [<import>] element. *)
Definition manifest_prologue (bucket noncehex self_destruct : string)
  : string :=
  "<?xml version=" ++ DQ ++ "1.0" ++ DQ ++ " encoding=" ++ DQ ++ "UTF-8"
  ++ DQ ++ " standalone=" ++ DQ ++ "yes" ++ DQ ++ "?>"
  ++ "<manifest>"
  ++ "<version>2010-11-15</version>"
  ++ "<file-format>RAW</file-format>"
  ++ "<importer>"
  ++ "<name>bsdec2-image-upload</name>"
  ++ "<version>1.2.2</version>"
  ++ "<release>2019-03-20</release>"
  ++ "</importer>"
  ++ "<self-destruct-url>https://" ++ bucket ++ ".s3.amazonaws.com/"
  ++ noncehex ++ "/manifest.xml?" ++ encodeamp self_destruct
  ++ "</self-destruct-url>".

(** The document: the prologue, then the [<import>] element with the size
    of the image, the size of the volume, the number of parts and the
    parts. *)
Definition manifest_document (bucket noncehex self_destruct : string)
    (size volume_size count : Z)
    (parts : list ((Z * Z) * (string * string * string))) : string :=
  manifest_prologue bucket noncehex self_destruct
  ++ "<import>"
  ++ "<size>" ++ decimal size ++ "</size>"
  ++ "<volume-size>" ++ decimal volume_size ++ "</volume-size>"
  ++ "<parts count=" ++ DQ ++ decimal count ++ DQ ++ ">"
  ++ part_elements bucket noncehex 0 parts
  ++ "</parts></import></manifest>".

(** The query strings of a part are what the signer handed out, in some
    state of the world, for the three methods and the path of the part,
    which is named after the number of the part. *)
Definition presigned (E : env) (key_id key_secret region bucket
    noncehex : string) (part : (Z * Z) * (string * string * string)) : Prop :=
  let '((start, _), (q_head, q_get, q_delete)) := part in
  let path := "/" ++ noncehex ++ "/part" ++ decimal (start / PARTSZ) in
  exists w,
    aws_sign_s3_querystr E w key_id key_secret region "HEAD" bucket path
      604800 = Some q_head
    /\ aws_sign_s3_querystr E w key_id key_secret region "GET" bucket path
         604800 = Some q_get
    /\ aws_sign_s3_querystr E w key_id key_secret region "DELETE" bucket
         path 604800 = Some q_delete.

(** ** Requests and the replies to them *)

(** An exchange is a request with the reply the transport gave to it
    ([None]: a transport error).  [xs] are the exchanges of a run that went
    from [w] to [w']: the requests the run sent, in order, and the replies
    to them, which are the replies the transport held in [w], in order (an
    exhausted transport gives errors); the run took these replies off the
    transport. *)
Definition exchanged (w w' : world) (xs : list (request * option string))
  : Prop :=
  sent w' = (sent w ++ map fst xs)%list
  /\ map snd xs
     = map (fun i => nth i (net w) None) (seq 0 (List.length xs))
  /\ net w' = skipn (List.length xs) (net w).

(** The exchange by which the image [ami] of the region [home] was copied
    to the region [r], where it is [toami]: the request went to the
    endpoint of [r] and asks for a copy of [ami] from [home]; the reply
    holds an [imageId] element with the content [toami]. *)
Definition image_copied (home ami r toami : string)
    (x : request * option string) : Prop :=
  rq_host (fst x) = "ec2." ++ r ++ ".amazonaws.com"
  /\ (exists head,
        rq_head (fst x)
        = head ++ "Action=CopyImage&SourceRegion=" ++ home
          ++ "&SourceImageId=" ++ ami ++ "&Version=2014-09-01")
  /\ exists reply,
       snd x = Some reply
       /\ contains reply (element "imageId" toami) = true.

(** The images [amis] are those of the regions [regions], one for each and
    in that order, and [xs] are the exchanges that made them: none for the
    region [home], whose image is [ami] itself, and one for every other
    region, by which [ami] was copied to it. *)
Fixpoint copied (home ami : string) (regions amis : list string)
    (xs : list (request * option string)) : Prop :=
  match regions, amis with
  | [], [] => xs = []
  | r :: regions', a :: amis' =>
      if (r =? home)%string then
        a = ami /\ copied home ami regions' amis' xs
      else
        match xs with
        | x :: xs' =>
            image_copied home ami r a x
            /\ copied home ami regions' amis' xs'
        | [] => False
        end
  | _, _ => False
  end.

(** Does [s3_put] take the reply for a success?  It does when the reply,
    cut to the 16 kB of the buffer and at its first NUL byte, passes the
    status check. *)
Definition put_accepted (reply : option string) : bool :=
  match reply with
  | Some r => status_200 (cstr (take (Z.to_nat 16384) r))
  | None => false
  end.

(** The exchanges of an upload of the window [range] of the image that
    went well: up to 9 requests that were refused, then one that was
    accepted, all of them carrying the window. *)
Definition part_uploaded (range : Z * Z)
    (xs : list (request * option string)) : Prop :=
  exists refused last,
    xs = (refused ++ [last])%list
    /\ (List.length refused < 10)%nat
    /\ Forall (fun x => window (fst x) = Some range
                        /\ put_accepted (snd x) = false) refused
    /\ window (fst last) = Some range
    /\ put_accepted (snd last) = true.

(** A response that passes the checks [ec2_apicall] and [sns_publish] make
    before they look at the body: it fits the 16 kB buffer, holds no NUL
    byte, has [" 200 "] in its status line, and the lines of its head are
    not empty. *)
Definition accepted (status : string) (headers : list string)
    (body : string) : bool :=
  contains status " 200 "
  && forallb head_line (status :: headers)
  && no_nul (http_response status headers body)
  && (String.length (http_response status headers body)
      <=? Z.to_nat 16384)%nat.

(** ** Notions used to state the properties of the other polling loops *)

Section Polling.

Variable E : env.

(** The status query of [waitforami]. *)
Definition image_query (region ami key_id key_secret : string)
  : M (option string) :=
  ec2_apicall_loop E key_id key_secret region
    ("Action=DescribeImages&" ++ "ImageId.1=" ++ ami ++ "&"
     ++ "Version=2014-09-01").

(** [n] status queries in a row that all observe the image state
    ["pending"], each followed by a dot on stderr and a sleep of 10
    seconds: the world they leave behind.  [None] when one of them observes
    anything else. *)
Fixpoint pending_images (n : nat) (region ami key_id key_secret : string)
    (w : world) : option world :=
  match n with
  | O => Some w
  | S n' =>
      match image_query region ami key_id key_secret w with
      | (Ret (Some resp), w1) =>
          match xmlextract resp "imageState" with
          | Some status =>
              if (status =? "pending")%string then
                pending_images n' region ami key_id key_secret
                  (snd (sleep 10 (snd (eprintf "." w1))))
              else None
          | None => None
          end
      | _ => None
      end
  end.

(** Is a response to the status query of [waitforimport] final?  It is
    when it has no active marker and its volume has an identifier. *)
Definition import_final (resp : string) : bool :=
  match xmlextract resp "volume" with
  | Some volume =>
      match strstr resp "<state>active</state>" with
      | None =>
          match xmlextract volume "id" with
          | Some _ => true
          | None => false
          end
      | Some _ => false
      end
  | None => false
  end.

(** [n] status queries of [waitforimport] in a row that all get a response
    that is not final and carries the status message [status], each
    followed by the report of [printstatus] and a sleep of 10 seconds: the
    world they leave behind.  [None] when one of them gets anything
    else. *)
Fixpoint steady_polls (n : nat) (region taskid key_id key_secret : string)
    (status : string) (laststatus : option string) (w : world)
  : option world :=
  match n with
  | O => Some w
  | S n' =>
      match import_query E region taskid key_id key_secret w with
      | (Ret (Some resp), w1) =>
          match xmlextract resp "volume", xmlextract resp "statusMessage" with
          | Some _, Some s =>
              if negb (import_final resp) && (s =? status)%string then
                steady_polls n' region taskid key_id key_secret status
                  (Some status)
                  (snd (sleep 10
                          (snd (printstatus "Importing volume" status
                                  laststatus w1))))
              else None
          | _, _ => None
          end
      | _ => None
      end
  end.

End Polling.

(** ** Notions used to state the properties of the notification message *)

(** The entry of one region in the message. *)
Definition region_entry (name region ami : string) : string :=
  "      " ++ DQ ++ region ++ DQ ++ ": [" ++ LF
  ++ "        {" ++ LF
  ++ "          " ++ DQ ++ "Name" ++ DQ ++ ": " ++ DQ ++ name ++ DQ ++ ","
  ++ LF
  ++ "          " ++ DQ ++ "ImageId" ++ DQ ++ ": " ++ DQ ++ ami
  ++ DQ ++ LF ++ "        }" ++ LF ++ "      ]".

(** The entries of a list, each on lines of its own, with a comma between
    two of them and none after the last. *)
Fixpoint comma_separated (entries : list string) : string :=
  match entries with
  | [] => EmptyString
  | [e] => e ++ LF
  | e :: es => e ++ "," ++ LF ++ comma_separated es
  end.

(** * Properties *)

(** ** Strings *)

Lemma length_append (a b : string) :
  String.length (a ++ b) = (String.length a + String.length b)%nat.
Proof. induction a as [|c a IH]; simpl; [reflexivity | now rewrite IH]. Qed.

Lemma drop_append (p s : string) : drop (String.length p) (p ++ s) = s.
Proof. induction p as [|c p IH]; simpl; [now destruct s | exact IH]. Qed.

Lemma take_append (p s : string) : take (String.length p) (p ++ s) = p.
Proof.
  induction p as [|c p IH]; simpl; [now destruct s | now rewrite IH].
Qed.

Lemma strcspn_stops (p s : string) (c : ascii) :
  strchr p c = None ->
  strcspn (p ++ String c s) (String c EmptyString) = String.length p.
Proof.
  induction p as [|d p IH]; simpl; intros H.
  - now rewrite Ascii.eqb_refl.
  - destruct (Ascii.eqb d c) eqn:Hd; [discriminate|].
    destruct (strchr p c); [discriminate|].
    simpl. now rewrite IH.
Qed.

Lemma append_assoc (a b c : string) : (a ++ b) ++ c = a ++ b ++ c.
Proof. induction a as [|x a IH]; [reflexivity | cbn; now rewrite IH]. Qed.

Lemma append_nil_r (a : string) : a ++ "" = a.
Proof. induction a as [|x a IH]; [reflexivity | cbn; now rewrite IH]. Qed.

Lemma concat_cons (x : string) (xs : list string) :
  String.concat "" (x :: xs) = x ++ String.concat "" xs.
Proof. destruct xs; cbn; [now rewrite append_nil_r | reflexivity]. Qed.

(** ** [encodeamp] *)

(** The buffer of [len + 1] bytes that [encodeamp] allocates after its
    first loop is filled exactly by its second loop. *)
Lemma encodeamp_len_copy (s : string) (len : nat) :
  encodeamp_len s len = (len + String.length (encodeamp s))%nat.
Proof.
  revert len; induction s as [|c s IH]; intros len; simpl.
  - lia.
  - destruct (Ascii.eqb c amp); rewrite IH; simpl; lia.
Qed.

Lemma encodeamp_length (s : string) :
  String.length (encodeamp s) = (String.length s + 4 * count_amp s)%nat.
Proof.
  induction s as [|c s IH]; simpl; [reflexivity|].
  destruct (Ascii.eqb c amp); simpl; rewrite IH; lia.
Qed.

Lemma encodeamp_keeps_bytes (s : string) :
  forall (i : nat) (c : ascii),
    get i s = Some c ->
    get (i + 4 * count_amp (take i s)) (encodeamp s) = Some c.
Proof.
  induction s as [|a s IH]; intros i c Hget; [destruct i; discriminate|].
  destruct i as [|i].
  - simpl in Hget. injection Hget as ->. simpl.
    destruct (Ascii.eqb c amp) eqn:Hc; [|reflexivity].
    apply Ascii.eqb_eq in Hc. subst c. reflexivity.
  - simpl in Hget. apply IH in Hget.
    cbn [take count_amp encodeamp].
    destruct (Ascii.eqb a amp).
    + replace (S i + 4 * (1 + count_amp (take i s)))%nat
        with (5 + (i + 4 * count_amp (take i s)))%nat by lia.
      exact Hget.
    + replace (S i + 4 * (0 + count_amp (take i s)))%nat
        with (S (i + 4 * count_amp (take i s)))%nat by lia.
      exact Hget.
Qed.

Lemma encodeamp_amp_escaped (s : string) :
  forall j : nat,
    get j (encodeamp s) = Some amp ->
    take 4 (drop (S j) (encodeamp s)) = "amp;".
Proof.
  induction s as [|a s IH]; intros j Hget; [destruct j; discriminate|].
  cbn [encodeamp] in *.
  destruct (Ascii.eqb a amp) eqn:Ha.
  - do 5 (destruct j as [|j]; [try reflexivity; discriminate|]).
    apply IH. exact Hget.
  - destruct j as [|j].
    + simpl in Hget. injection Hget as ->. discriminate.
    + apply IH. exact Hget.
Qed.

(** C5.  For every string [s], [encodeamp s] is 4 bytes longer than [s]
    for each ['&'] of [s]; the byte at offset [i] of [s] is found again, in
    order, at offset [i] plus 4 times the number of ['&'] before it (so
    every byte that is not ['&'] is kept as it is); and every ['&'] of the
    result is followed by ["amp;"]. *)
Theorem encodeamp_escapes (s : string) :
  String.length (encodeamp s) = (String.length s + 4 * count_amp s)%nat
  /\ (forall (i : nat) (c : ascii),
        get i s = Some c ->
        get (i + 4 * count_amp (take i s)) (encodeamp s) = Some c)
  /\ (forall j : nat,
        get j (encodeamp s) = Some amp ->
        take 4 (drop (S j) (encodeamp s)) = "amp;").
Proof.
  split; [apply encodeamp_length|].
  split; [apply encodeamp_keeps_bytes | apply encodeamp_amp_escaped].
Qed.

(** ** [sns_publish]: the region of the topic *)

Lemma sns_region_skips_prefix (pre region rest : string) :
  String.length pre = 12%nat ->
  strchr region ":"%char = None ->
  sns_region (pre ++ region ++ ":" ++ rest) = Some region.
Proof.
  intros Hp Hr. unfold sns_region.
  replace (String.length (pre ++ region ++ ":" ++ rest) <? 12)%nat
    with false
    by (symmetry; apply Nat.ltb_ge; rewrite length_append; lia).
  rewrite <- Hp, drop_append.
  change (":" ++ rest) with (String ":"%char rest).
  rewrite (strcspn_stops _ _ _ Hr), take_append. reflexivity.
Qed.

(** [sns_publish] signs for, and connects to, the region that [sns_region]
    finds in the topic. *)
Lemma sns_publish_uses_region (E : env)
    (key_id key_secret topicarn rv iv name region : string) (n : nat)
    (regions amis : list string) (w : world) :
  sns_region topicarn = Some region ->
  match aws_sign_sns_headers E w key_id key_secret region
          (sns_request topicarn rv iv name n regions amis) with
  | None =>
      sns_publish E key_id key_secret topicarn rv iv name n regions amis w
      = (Ret (-1), snd (warnp "Failed to sign SNS POST request" w))
  | Some _ =>
      exists rq,
        sent (snd (sns_publish E key_id key_secret topicarn rv iv name n
                     regions amis w)) = (sent w ++ [rq])%list
        /\ rq_host rq = "sns." ++ region ++ ".amazonaws.com"
  end.
Proof.
  intros Hr. unfold sns_publish. rewrite Hr. cbv zeta.
  destruct (aws_sign_sns_headers E w key_id key_secret region _)
    as [[[sha date] auth]|] eqn:Hsign.
  - eexists. unfold bind at 1. unfold observe. rewrite Hsign.
    unfold bind at 1. unfold sslreq at 1.
    destruct (match net w with
              | Some r :: _ => Some (take (Z.to_nat 16384) r)
              | _ => None
              end) as [resp|]; [|split; reflexivity].
    destruct (negb _); [split; reflexivity|].
    destruct (negb _); [split; reflexivity|].
    destruct (strstr resp _); [|split; reflexivity].
    destruct (strstr _ _); split; reflexivity.
  - unfold bind, observe. rewrite Hsign. reflexivity.
Qed.

(** C7.  [sns_publish] takes its region from the topic by skipping 12 bytes
    and reading up to the next [':']: for a topic
    [arn:aws:sns:<region>:<rest>] (the region holding no [':']) that is
    [<region>], and so it is after any other 12-byte prefix; the request is
    signed for that region and, once signed, sent to its SNS host. *)
Theorem sns_region_of_topic (E : env)
    (key_id key_secret rv iv name region rest : string) (n : nat)
    (regions amis : list string) (w : world) :
  strchr region ":"%char = None ->
  let topicarn := "arn:aws:sns:" ++ region ++ ":" ++ rest in
  sns_region topicarn = Some region
  /\ (forall pre, String.length pre = 12%nat ->
        sns_region (pre ++ region ++ ":" ++ rest) = Some region)
  /\ match aws_sign_sns_headers E w key_id key_secret region
             (sns_request topicarn rv iv name n regions amis) with
     | None =>
         sns_publish E key_id key_secret topicarn rv iv name n regions amis w
         = (Ret (-1), snd (warnp "Failed to sign SNS POST request" w))
     | Some _ =>
         exists rq,
           sent (snd (sns_publish E key_id key_secret topicarn rv iv name n
                        regions amis w)) = (sent w ++ [rq])%list
           /\ rq_host rq = "sns." ++ region ++ ".amazonaws.com"
     end.
Proof.
  intros Hr topicarn.
  assert (Hregion : sns_region topicarn = Some region)
    by (apply (sns_region_skips_prefix "arn:aws:sns:"); [reflexivity | exact Hr]).
  split; [exact Hregion|].
  split; [intros pre Hp; now apply sns_region_skips_prefix|].
  now apply sns_publish_uses_region.
Qed.

Lemma sns_region_of_topic_witness :
  sns_region "arn:aws:sns:eu-west-1:123456789012:ami-updates"
  = Some "eu-west-1".
Proof.
  exact (proj1 (sns_region_of_topic (demo_env demo_keys 0) "AKIDEXAMPLE"
                  "wJalrXUtnFEMI" "12.0-RELEASE" "1" "FreeBSD" "eu-west-1"
                  "123456789012:ami-updates" 0 [] [] (fresh_world [])
                  eq_refl)).
Defined.

(** ** What a run leaves untouched *)

Lemma dots_log (w w' : world) (msg : string) :
  stderr w' = (stderr w ++ [msg])%list -> msg <> "." -> dots w' = dots w.
Proof.
  intros Herr Hmsg. unfold dots. rewrite Herr, count_occ_app. cbn.
  destruct (string_dec msg "."); [contradiction | lia].
Qed.

Lemma quiet_refl (w : world) : quiet w w.
Proof. repeat split. Qed.

Lemma quiet_trans (w1 w2 w3 : world) :
  quiet w1 w2 -> quiet w2 w3 -> quiet w1 w3.
Proof. unfold quiet. intuition congruence. Qed.

Lemma quiet_log (w w' : world) (msg : string) :
  stderr w' = (stderr w ++ [msg])%list -> msg <> "." ->
  slept w' = slept w -> stdout w' = stdout w -> quiet w w'.
Proof.
  intros Herr Hmsg Hs Ho. split; [|split; assumption].
  now apply dots_log with msg.
Qed.

Ltac quiet_warning :=
  eapply quiet_log; [reflexivity | discriminate | reflexivity | reflexivity].

(** ** Storage requests *)

Section Storage.

Variable E : env.
Variables key_id key_secret region bucket path : string.
Variable buf : buffer.
Variable buflen : Z.

(** One call of [s3_put] returns 0 or -1 and hands at most one request to
    the transport, exactly one when it returns 0; the request goes to the
    host chosen from the region and carries [buf]. *)
Lemma s3_put_run (w : world) :
  exists r w',
    s3_put E key_id key_secret region bucket path buf buflen w = (Ret r, w')
    /\ (r = 0 \/ r = -1)
    /\ ((r = -1 /\ sent w' = sent w /\ net w' = net w)
        \/ exists rq,
             sent w' = (sent w ++ [rq])%list
             /\ net w' = tl (net w)
             /\ rq_host rq
                = (if (region =? "us-east-1")%string then "s3.amazonaws.com"
                   else "s3." ++ region ++ ".amazonaws.com")
             /\ rq_body rq = buf).
Proof.
  unfold s3_put. unfold bind at 1. unfold observe.
  destruct (aws_sign_s3_headers E w key_id key_secret region "PUT" bucket
              path buf buflen) as [[[sha date] auth]|].
  - unfold bind at 1. unfold sslreq at 1.
    assert (Hhost : (if negb (region =? "us-east-1")%string
                     then "s3." ++ region ++ ".amazonaws.com"
                     else "s3.amazonaws.com")
                    = (if (region =? "us-east-1")%string
                       then "s3.amazonaws.com"
                       else "s3." ++ region ++ ".amazonaws.com"))
      by now destruct (region =? "us-east-1")%string.
    destruct (match net w with
              | Some r :: _ => Some (take (Z.to_nat 16384) r)
              | _ => None
              end) as [resp|]; [destruct (status_200 (cstr resp))|];
      (do 2 eexists; split; [reflexivity|]; split; [auto|]; right;
       eexists; repeat split; exact Hhost).
  - do 2 eexists. split; [reflexivity|]. split; [auto|]. left.
    repeat split.
Qed.

(** C9.  A request made by [s3_put] goes to ["s3.amazonaws.com"] when the
    region is ["us-east-1"] and to ["s3.<region>.amazonaws.com"] otherwise,
    and the second name is never the first one: ["us-east-1"] is the only
    region served by the host without a region in its name. *)
Theorem s3_put_endpoint (w : world) :
  let w' := snd (s3_put E key_id key_secret region bucket path buf buflen w) in
  sent w' = sent w
  \/ exists rq,
       sent w' = (sent w ++ [rq])%list
       /\ (region = "us-east-1" -> rq_host rq = "s3.amazonaws.com")
       /\ (region <> "us-east-1" ->
           rq_host rq = "s3." ++ region ++ ".amazonaws.com"
           /\ rq_host rq <> "s3.amazonaws.com").
Proof.
  destruct (s3_put_run w) as (r & w' & Hrun & _ & Hsent).
  rewrite Hrun. cbn [snd].
  destruct Hsent as [(_ & Hs & _) | (rq & Hs & _ & Hhost & _)];
    [left; exact Hs | right].
  exists rq. split; [exact Hs|].
  destruct (String.eqb_spec region "us-east-1") as [Heq | Hne].
  - split; [intros _; exact Hhost | intros Hc; contradiction].
  - split; [intros Hc; contradiction | intros _].
    split; [exact Hhost|]. rewrite Hhost. intros Hc.
    apply (f_equal String.length) in Hc.
    cbn in Hc. rewrite length_append in Hc. cbn in Hc. lia.
Qed.

Lemma s3_put_tries_S (n : nat) (i : Z) (w w1 : world) (r0 : Z) :
  s3_put E key_id key_secret region bucket path buf buflen w = (Ret r0, w1) ->
  s3_put_tries E (S n) i key_id key_secret region bucket path buf buflen w
  = if r0 =? 0 then (Ret 0, w1)
    else s3_put_tries E n (i + 1) key_id key_secret region bucket path buf
           buflen
           (snd (eprintf ("S3 PUT failed " ++ decimal (i + 1) ++ " times: "
                          ++ path ++ LF) w1)).
Proof.
  intros Hrun. cbn [s3_put_tries]. unfold bind at 1. rewrite Hrun.
  destruct (r0 =? 0); reflexivity.
Qed.

Lemma s3_put_failures_S (m : nat) (i : Z) (w w1 : world) (r0 : Z) :
  s3_put E key_id key_secret region bucket path buf buflen w = (Ret r0, w1) ->
  s3_put_failures E (S m) i key_id key_secret region bucket path buf buflen w
  = if r0 =? 0 then None
    else s3_put_failures E m (i + 1) key_id key_secret region bucket path
           buf buflen
           (snd (eprintf ("S3 PUT failed " ++ decimal (i + 1) ++ " times: "
                          ++ path ++ LF) w1)).
Proof. intros Hrun. cbn [s3_put_failures]. now rewrite Hrun. Qed.

(** The loop either meets a success after fewer than [n] failures and
    stops there, or fails [n] times. *)
Lemma s3_put_tries_run (n : nat) :
  forall (i : Z) (w : world),
    let r := s3_put_tries E n i key_id key_secret region bucket path buf
               buflen w in
    (exists k w1,
        (k < n)%nat
        /\ s3_put_failures E k i key_id key_secret region bucket path buf
             buflen w = Some w1
        /\ s3_put E key_id key_secret region bucket path buf buflen w1
           = (Ret 0, snd r)
        /\ fst r = Ret 0
        /\ forall m, (k < m)%nat ->
             s3_put_failures E m i key_id key_secret region bucket path buf
               buflen w = None)
    \/ (s3_put_failures E n i key_id key_secret region bucket path buf
          buflen w = Some (snd r)
        /\ fst r = Ret (-1)).
Proof.
  induction n as [|n IH]; intros i w r.
  - right. split; reflexivity.
  - subst r.
    destruct (s3_put_run w) as (r0 & w1 & Hrun & Hr0 & _).
    rewrite (s3_put_tries_S n i w w1 r0 Hrun).
    pose proof (fun m => s3_put_failures_S m i w w1 r0 Hrun) as Hfail.
    destruct (Z.eqb_spec r0 0) as [-> | Hne].
    + left. exists O, w. cbn [fst snd].
      split; [lia|]. split; [reflexivity|]. split; [exact Hrun|].
      split; [reflexivity|].
      intros [|m] Hm; [lia|]. now rewrite Hfail.
    + specialize (IH (i + 1)
                    (snd (eprintf ("S3 PUT failed " ++ decimal (i + 1)
                                   ++ " times: " ++ path ++ LF) w1))).
      cbv zeta in IH.
      destruct IH as [(k & w1' & Hk & Hf & Hs & Hr & Hnone) | (Hf & Hr)].
      * left. exists (S k), w1'. split; [lia|].
        rewrite Hfail.
        destruct (Z.eqb_spec r0 0); [contradiction|].
        split; [exact Hf|]. split; [exact Hs|]. split; [exact Hr|].
        intros [|m] Hm; [lia|]. rewrite Hfail.
        destruct (Z.eqb_spec r0 0); [contradiction|].
        apply Hnone. lia.
      * right. rewrite Hfail.
        destruct (Z.eqb_spec r0 0); [contradiction|].
        split; [exact Hf | exact Hr].
Qed.

(** Every request of the loop carries [buf]; there are at most [n] of them,
    and at least one after a success. *)
Lemma s3_put_tries_sent (n : nat) :
  forall (i : Z) (w : world),
  exists r w' reqs,
    s3_put_tries E n i key_id key_secret region bucket path buf buflen w
    = (Ret r, w')
    /\ (r = 0 \/ r = -1)
    /\ sent w' = (sent w ++ reqs)%list
    /\ Forall (fun rq => rq_body rq = buf) reqs
    /\ (r = 0 -> reqs <> [])
    /\ (List.length reqs <= n)%nat.
Proof.
  induction n as [|n IH]; intros i w.
  - exists (-1), w, []. cbn. rewrite app_nil_r.
    repeat split; auto; try lia.
  - destruct (s3_put_run w) as (r0 & w1 & Hrun & Hr0 & Hsent).
    rewrite (s3_put_tries_S n i w w1 r0 Hrun).
    destruct (Z.eqb_spec r0 0) as [-> | Hne].
    + destruct Hsent as [(Hc & _) | (rq & Hs & _ & _ & Hb)]; [lia|].
      exists 0, w1, [rq]. repeat split; auto.
      * discriminate.
      * cbn. lia.
    + destruct (IH (i + 1)
                  (snd (eprintf ("S3 PUT failed " ++ decimal (i + 1)
                                 ++ " times: " ++ path ++ LF) w1)))
        as (r & w' & reqs & Hrun' & Hr & Hs' & Hall & Hne' & Hlen).
      cbn [snd eprintf sent] in Hs'.
      destruct Hsent as [(_ & Hs & _) | (rq & Hs & _ & _ & Hb)].
      * exists r, w', reqs. rewrite Hs in Hs'. repeat split; auto.
      * exists r, w', (rq :: reqs). rewrite Hs, <- app_assoc in Hs'.
        repeat split; auto.
        -- discriminate.
        -- cbn. lia.
Qed.

Lemma s3_put_loop_sent (w : world) :
  exists r w' reqs,
    s3_put_loop E key_id key_secret region bucket path buf buflen w
    = (Ret r, w')
    /\ (r = 0 \/ r = -1)
    /\ sent w' = (sent w ++ reqs)%list
    /\ Forall (fun rq => rq_body rq = buf) reqs
    /\ (r = 0 -> reqs <> [])
    /\ (List.length reqs <= 10)%nat.
Proof. apply s3_put_tries_sent. Qed.

End Storage.

(** ** Requests and the replies to them *)

Lemma exchanged_refl (w : world) : exchanged w w [].
Proof. repeat split. cbn. now rewrite app_nil_r. Qed.

Lemma nth_skipn_reply (l : list (option string)) :
  forall a i, nth i (skipn a l) None = nth (a + i) l None.
Proof.
  induction l as [|x l IH]; intros a i.
  - rewrite skipn_nil. now destruct (a + i)%nat, i.
  - destruct a as [|a]; [reflexivity|]. cbn [skipn Nat.add nth]. apply IH.
Qed.

Lemma map_seq_from {A} (f : nat -> A) (a b : nat) :
  map f (seq a b) = map (fun i => f (a + i)%nat) (seq 0 b).
Proof.
  revert f a. induction b as [|b IH]; intros f a; [reflexivity|].
  cbn [seq map]. rewrite Nat.add_0_r. f_equal.
  rewrite (IH f (S a)), (IH (fun i => f (a + i)%nat) 1%nat).
  apply map_ext. intros i. f_equal. lia.
Qed.

Lemma exchanged_trans (w1 w2 w3 : world)
    (xs ys : list (request * option string)) :
  exchanged w1 w2 xs -> exchanged w2 w3 ys -> exchanged w1 w3 (xs ++ ys).
Proof.
  intros (Hs1 & Hr1 & Hn1) (Hs2 & Hr2 & Hn2). repeat split.
  - now rewrite Hs2, Hs1, map_app, app_assoc.
  - rewrite map_app, length_app, seq_app, map_app. rewrite Hr1, Hr2. f_equal.
    cbn [Nat.add]. rewrite (map_seq_from _ (List.length xs)).
    apply map_ext. intros i.
    rewrite Hn1. apply nth_skipn_reply.
  - rewrite Hn2, Hn1, skipn_skipn, length_app. f_equal. lia.
Qed.

(** Writing to stderr is no exchange. *)
Lemma exchanged_eprintf (w : world) (s : string) :
  exchanged w (snd (eprintf s w)) [].
Proof. repeat split. cbn. now rewrite app_nil_r. Qed.

Lemma exchanged_log (w1 w2 : world) (xs : list (request * option string))
    (s : string) :
  exchanged w1 w2 xs -> exchanged w1 (snd (eprintf s w2)) xs.
Proof.
  intros H. rewrite <- (app_nil_r xs).
  apply exchanged_trans with w2; [exact H | apply exchanged_eprintf].
Qed.

Lemma exchanged_log_first (w1 w2 : world)
    (xs : list (request * option string)) (s : string) :
  exchanged (snd (eprintf s w1)) w2 xs -> exchanged w1 w2 xs.
Proof.
  intros H. change xs with ([] ++ xs)%list.
  apply exchanged_trans with (snd (eprintf s w1));
    [apply exchanged_eprintf | exact H].
Qed.

Lemma exchanged_sent (w w' : world) (xs : list (request * option string)) :
  exchanged w w' xs -> sent w' = (sent w ++ map fst xs)%list.
Proof. now intros (H & _). Qed.

Section Exchanges.

Variable E : env.
Variables key_id key_secret region bucket path : string.
Variable buf : buffer.
Variable buflen : Z.

(** One call of [s3_put]: no exchange and -1 when the request cannot be
    signed; otherwise one exchange, whose reply decides. *)
Lemma s3_put_exchange (w : world) :
  exists r w',
    s3_put E key_id key_secret region bucket path buf buflen w = (Ret r, w')
    /\ ((r = -1 /\ exchanged w w' [])
        \/ exists rq reply,
             exchanged w w' [(rq, reply)]
             /\ rq_body rq = buf
             /\ r = if put_accepted reply then 0 else -1).
Proof.
  unfold s3_put. unfold bind at 1. unfold observe.
  destruct (aws_sign_s3_headers E w key_id key_secret region "PUT" bucket
              path buf buflen) as [[[sha date] auth]|].
  - unfold bind at 1. unfold sslreq at 1.
    assert (Hx : forall rq w',
               sent w' = (sent w ++ [rq])%list -> net w' = tl (net w) ->
               exchanged w w' [(rq, nth 0 (net w) None)]).
    { intros rq w' Hs Hn. repeat split; [exact Hs|].
      rewrite Hn. now destruct (net w). }
    destruct (net w) as [|[r|] rest] eqn:Hnet.
    + do 2 eexists. split; [reflexivity|]. right.
      eexists. exists None.
      split; [apply Hx; reflexivity | split; reflexivity].
    + destruct (status_200 (cstr (take (Z.to_nat 16384) r))) eqn:Hst;
        (do 2 eexists; split; [reflexivity|]; right;
         eexists; exists (Some r);
         split; [apply Hx; reflexivity|];
         split; [reflexivity|]; cbn [put_accepted]; now rewrite Hst).
    + do 2 eexists. split; [reflexivity|]. right.
      eexists. exists None.
      split; [apply Hx; reflexivity | split; reflexivity].
  - do 2 eexists. split; [reflexivity|]. left.
    split; [reflexivity | apply exchanged_eprintf].
Qed.

(** The exchanges of the loop: all of them carry [buf]; after a success
    the last reply was accepted and the ones before were not; after a
    failure none was accepted. *)
Lemma s3_put_tries_exchanges (n : nat) :
  forall (i : Z) (w : world),
  exists r w' xs,
    s3_put_tries E n i key_id key_secret region bucket path buf buflen w
    = (Ret r, w')
    /\ exchanged w w' xs
    /\ (List.length xs <= n)%nat
    /\ Forall (fun x => rq_body (fst x) = buf) xs
    /\ ((r = 0
         /\ exists refused last,
              xs = (refused ++ [last])%list
              /\ Forall (fun x => put_accepted (snd x) = false) refused
              /\ put_accepted (snd last) = true)
        \/ (r = -1 /\ Forall (fun x => put_accepted (snd x) = false) xs)).
Proof.
  induction n as [|n IH]; intros i w.
  - exists (-1), w, []. split; [reflexivity|].
    split; [apply exchanged_refl|]. split; [cbn; lia|].
    split; [constructor|]. right. split; [reflexivity | constructor].
  - destruct (s3_put_exchange w) as (r0 & w1 & Hrun & Hx).
    rewrite (s3_put_tries_S E key_id key_secret region bucket path buf
               buflen n i w w1 r0 Hrun).
    destruct (IH (i + 1)
                (snd (eprintf ("S3 PUT failed " ++ decimal (i + 1)
                               ++ " times: " ++ path ++ LF) w1)))
      as (r & w' & xs & Hrun' & Hx' & Hlen & Hall & Hres).
    apply exchanged_log_first in Hx'.
    destruct Hx as [(-> & Hx) | (rq & reply & Hx & Hb & ->)].
    + cbn [Z.eqb]. exists r, w', xs. split; [exact Hrun'|].
      split; [exact (exchanged_trans _ _ _ _ _ Hx Hx')|].
      split; [lia|]. split; [exact Hall | exact Hres].
    + destruct (put_accepted reply) eqn:Hacc; cbn [Z.eqb].
      * exists 0, w1, [(rq, reply)]. split; [reflexivity|].
        split; [exact Hx|]. split; [cbn; lia|].
        split; [repeat constructor; exact Hb|]. left.
        split; [reflexivity|]. exists [], (rq, reply).
        repeat split; [constructor | exact Hacc].
      * exists r, w', ((rq, reply) :: xs). split; [exact Hrun'|].
        split; [exact (exchanged_trans _ _ _ _ _ Hx Hx')|].
        split; [cbn; lia|].
        split; [constructor; [exact Hb | exact Hall]|].
        destruct Hres as [(-> & refused & last & -> & Hrf & Hl)
                         | (-> & Hrf)].
        -- left. split; [reflexivity|].
           exists ((rq, reply) :: refused), last.
           repeat split; [constructor; [exact Hacc | exact Hrf] | exact Hl].
        -- right. split; [reflexivity|]. constructor; [exact Hacc | exact Hrf].
Qed.

Lemma s3_put_loop_exchanges (w : world) :
  exists r w' xs,
    s3_put_loop E key_id key_secret region bucket path buf buflen w
    = (Ret r, w')
    /\ exchanged w w' xs
    /\ (List.length xs <= 10)%nat
    /\ Forall (fun x => rq_body (fst x) = buf) xs
    /\ ((r = 0
         /\ exists refused last,
              xs = (refused ++ [last])%list
              /\ Forall (fun x => put_accepted (snd x) = false) refused
              /\ put_accepted (snd last) = true)
        \/ (r = -1 /\ Forall (fun x => put_accepted (snd x) = false) xs)).
Proof. apply s3_put_tries_exchanges. Qed.

End Exchanges.

(** ** Compute API calls *)

Section Compute.

Variable E : env.
Variables key_id key_secret region s : string.

(** One call of [ec2_apicall] returns, prints no dot, does not sleep, and
    hands at most one request to the transport. *)
Lemma ec2_apicall_run (w : world) :
  exists body w',
    ec2_apicall E key_id key_secret region s w = (Ret body, w')
    /\ quiet w w'
    /\ (List.length (sent w') <= S (List.length (sent w)))%nat.
Proof.
  unfold ec2_apicall. unfold bind at 1. unfold observe.
  destruct (aws_sign_ec2_headers E w key_id key_secret region s)
    as [[[sha date] auth]|].
  - unfold bind at 1. unfold sslreq at 1.
    assert (Hlen : forall rq : request,
               (List.length (sent w ++ [rq]) <= S (List.length (sent w)))%nat)
      by (intros rq; rewrite length_app; cbn; lia).
    destruct (match net w with
              | Some r :: _ => Some (take (Z.to_nat 16384) r)
              | _ => None
              end) as [resp|].
    + destruct (negb _);
        [do 2 eexists; split; [reflexivity|]; split;
         [quiet_warning | apply Hlen]|].
      destruct (negb _);
        [do 2 eexists; split; [reflexivity|]; split;
         [quiet_warning | apply Hlen]|].
      destruct (strstr resp _);
        do 2 eexists; (split; [reflexivity|]); split;
        solve [repeat split | quiet_warning | apply Hlen].
    + do 2 eexists. split; [reflexivity|]. split; [quiet_warning | apply Hlen].
  - do 2 eexists. split; [reflexivity|]. split; [quiet_warning|]. cbn. lia.
Qed.

Lemma ec2_apicall_tries_S (n : nat) (i : Z) (w w1 : world)
    (body : option string) :
  ec2_apicall E key_id key_secret region s w = (Ret body, w1) ->
  ec2_apicall_tries E (S n) i key_id key_secret region s w
  = match body with
    | Some b => (Ret (Some b), w1)
    | None =>
        ec2_apicall_tries E n (i + 1) key_id key_secret region s
          (snd (eprintf ("EC2 API call failed " ++ decimal (i + 1)
                         ++ " times" ++ LF) w1))
    end.
Proof.
  intros Hrun. cbn [ec2_apicall_tries]. unfold bind at 1. rewrite Hrun.
  destruct body; reflexivity.
Qed.

Lemma ec2_apicall_failures_S (m : nat) (i : Z) (w w1 : world)
    (body : option string) :
  ec2_apicall E key_id key_secret region s w = (Ret body, w1) ->
  ec2_apicall_failures E (S m) i key_id key_secret region s w
  = match body with
    | Some _ => None
    | None =>
        ec2_apicall_failures E m (i + 1) key_id key_secret region s
          (snd (eprintf ("EC2 API call failed " ++ decimal (i + 1)
                         ++ " times" ++ LF) w1))
    end.
Proof.
  intros Hrun. cbn [ec2_apicall_failures]. rewrite Hrun. now destruct body.
Qed.

Lemma ec2_apicall_tries_run (n : nat) :
  forall (i : Z) (w : world),
    let r := ec2_apicall_tries E n i key_id key_secret region s w in
    (exists k w1 body,
        (k < n)%nat
        /\ ec2_apicall_failures E k i key_id key_secret region s w = Some w1
        /\ ec2_apicall E key_id key_secret region s w1
           = (Ret (Some body), snd r)
        /\ fst r = Ret (Some body)
        /\ forall m, (k < m)%nat ->
             ec2_apicall_failures E m i key_id key_secret region s w = None)
    \/ (ec2_apicall_failures E n i key_id key_secret region s w
        = Some (snd r)
        /\ fst r = Ret None).
Proof.
  induction n as [|n IH]; intros i w r.
  - right. split; reflexivity.
  - subst r.
    destruct (ec2_apicall_run w) as (body & w1 & Hrun & _).
    rewrite (ec2_apicall_tries_S n i w w1 body Hrun).
    pose proof (fun m => ec2_apicall_failures_S m i w w1 body Hrun) as Hfail.
    destruct body as [b|].
    + left. exists O, w, b. cbn [fst snd].
      split; [lia|]. split; [reflexivity|]. split; [exact Hrun|].
      split; [reflexivity|].
      intros [|m] Hm; [lia|]. now rewrite Hfail.
    + specialize (IH (i + 1)
                    (snd (eprintf ("EC2 API call failed " ++ decimal (i + 1)
                                   ++ " times" ++ LF) w1))).
      cbv zeta in IH.
      destruct IH as [(k & w1' & b & Hk & Hf & Hs & Hr & Hnone) | (Hf & Hr)].
      * left. exists (S k), w1', b. split; [lia|].
        rewrite Hfail.
        split; [exact Hf|]. split; [exact Hs|]. split; [exact Hr|].
        intros [|m] Hm; [lia|]. rewrite Hfail. apply Hnone. lia.
      * right. rewrite Hfail. split; [exact Hf | exact Hr].
Qed.

(** The loop returns, prints no dot, does not sleep, and hands at most [n]
    requests to the transport. *)
Lemma ec2_apicall_tries_quiet (n : nat) :
  forall (i : Z) (w : world),
  exists body w',
    ec2_apicall_tries E n i key_id key_secret region s w = (Ret body, w')
    /\ quiet w w'
    /\ (List.length (sent w') <= List.length (sent w) + n)%nat.
Proof.
  induction n as [|n IH]; intros i w.
  - exists None, w. split; [reflexivity|]. split; [apply quiet_refl | lia].
  - destruct (ec2_apicall_run w) as (body & w1 & Hrun & Hq & Hlen).
    rewrite (ec2_apicall_tries_S n i w w1 body Hrun).
    destruct body as [b|].
    + exists (Some b), w1. split; [reflexivity|]. split; [exact Hq | lia].
    + destruct (IH (i + 1)
                  (snd (eprintf ("EC2 API call failed " ++ decimal (i + 1)
                                 ++ " times" ++ LF) w1)))
        as (body & w' & Hrun' & Hq' & Hlen').
      exists body, w'. split; [exact Hrun'|]. split.
      * eapply quiet_trans; [exact Hq|].
        eapply quiet_trans; [|exact Hq'].
        quiet_warning.
      * cbn [snd eprintf sent] in Hlen'. lia.
Qed.

Lemma ec2_apicall_loop_quiet (w : world) :
  exists body w',
    ec2_apicall_loop E key_id key_secret region s w = (Ret body, w')
    /\ quiet w w'
    /\ (List.length (sent w') <= List.length (sent w) + 10)%nat.
Proof. apply ec2_apicall_tries_quiet. Qed.

End Compute.

(** C2.  [s3_put_loop] returns 0 or -1.  It returns 0 exactly when some
    call of [s3_put] succeeds after fewer than 10 failed ones, and then the
    world it leaves is the one that call left: nothing is tried after it.
    It returns -1 exactly when 10 calls in a row fail, and then the world
    it leaves is the one the tenth report left.  Either way at most 10
    requests reach the transport.  The same holds of [ec2_apicall_loop]
    and [ec2_apicall], with the response body for 0 and [NULL] for -1. *)
Theorem retry_loops_bounded (E : env)
    (key_id key_secret region bucket path s : string) (buf : buffer)
    (buflen : Z) (w : world) :
  let put := s3_put E key_id key_secret region bucket path buf buflen in
  let put_failures k :=
    s3_put_failures E k 0 key_id key_secret region bucket path buf buflen w in
  let r := s3_put_loop E key_id key_secret region bucket path buf buflen w in
  let call := ec2_apicall E key_id key_secret region s in
  let call_failures k :=
    ec2_apicall_failures E k 0 key_id key_secret region s w in
  let c := ec2_apicall_loop E key_id key_secret region s w in
  ((fst r = Ret 0 /\
    exists k w1, (k < 10)%nat /\ put_failures k = Some w1
                 /\ put w1 = (Ret 0, snd r))
   \/ (fst r = Ret (-1) /\ put_failures 10%nat = Some (snd r)))
  /\ (fst r = Ret (-1) <-> exists w', put_failures 10%nat = Some w')
  /\ (List.length (sent (snd r)) <= List.length (sent w) + 10)%nat
  /\ ((exists body, fst c = Ret (Some body) /\
       exists k w1, (k < 10)%nat /\ call_failures k = Some w1
                    /\ call w1 = (Ret (Some body), snd c))
      \/ (fst c = Ret None /\ call_failures 10%nat = Some (snd c)))
  /\ (fst c = Ret None <-> exists w', call_failures 10%nat = Some w')
  /\ (List.length (sent (snd c)) <= List.length (sent w) + 10)%nat.
Proof.
  cbv zeta. unfold s3_put_loop, ec2_apicall_loop.
  pose proof (s3_put_tries_run E key_id key_secret region bucket path buf
                buflen 10 0 w) as Hput.
  pose proof (ec2_apicall_tries_run E key_id key_secret region s 10 0 w)
    as Hcall.
  cbv zeta in Hput, Hcall.
  split; [|split; [|split; [|split; [|split]]]].
  - destruct Hput as [(k & w1 & Hk & Hf & Hs & Hr & _) | (Hf & Hr)].
    + left. split; [exact Hr|]. now exists k, w1.
    + right. now split.
  - destruct Hput as [(k & w1 & Hk & Hf & Hs & Hr & Hnone) | (Hf & Hr)].
    + rewrite Hr, (Hnone 10%nat Hk). split; [discriminate|].
      intros (w' & Hw'). discriminate.
    + split; [intros _; eexists; exact Hf | intros _; exact Hr].
  - destruct (s3_put_tries_sent E key_id key_secret region bucket path buf
                buflen 10 0 w)
      as (r & w' & reqs & Hrun & _ & Hs & _ & _ & Hlen).
    rewrite Hrun. cbn [snd]. rewrite Hs, length_app. lia.
  - destruct Hcall as [(k & w1 & b & Hk & Hf & Hs & Hr & _) | (Hf & Hr)].
    + left. exists b. split; [exact Hr|]. now exists k, w1.
    + right. now split.
  - destruct Hcall as [(k & w1 & b & Hk & Hf & Hs & Hr & Hnone) | (Hf & Hr)].
    + rewrite Hr, (Hnone 10%nat Hk). split; [discriminate|].
      intros (w' & Hw'). discriminate.
    + split; [intros _; eexists; exact Hf | intros _; exact Hr].
  - destruct (ec2_apicall_tries_quiet E key_id key_secret region s 10 0 w)
      as (body & w' & Hrun & _ & Hlen).
    rewrite Hrun. exact Hlen.
Qed.

(** ** Waiting for the snapshot *)

Section Snapshot.

Variable E : env.
Variables region snapshot key_id key_secret : string.

Lemma snapshot_query_quiet (w w1 : world) (r : result (option string)) :
  snapshot_query E region snapshot key_id key_secret w = (r, w1) ->
  quiet w w1.
Proof.
  unfold snapshot_query. intros Hq.
  destruct (ec2_apicall_loop_quiet E key_id key_secret region
              ("Action=DescribeSnapshots&" ++ "SnapshotId.1=" ++ snapshot
               ++ "&" ++ "Version=2014-09-01") w)
    as (body & w' & Hrun & Hquiet & _).
  rewrite Hrun in Hq. now injection Hq as _ <-.
Qed.

(** One round of the loop, by the status it observes. *)
Lemma waitforsnapshot_S (fuel : nat) (w w1 : world) (resp status : string) :
  snapshot_query E region snapshot key_id key_secret w
  = (Ret (Some resp), w1) ->
  xmlextract resp "status" = Some status ->
  waitforsnapshot E (S fuel) region snapshot key_id key_secret w
  = if (status =? "completed")%string then
      (Ret 0, snd (eprintf (" done." ++ LF) w1))
    else if (status =? "pending")%string then
      waitforsnapshot E fuel region snapshot key_id key_secret
        (snd (sleep 10 (snd (eprintf "." w1))))
    else
      (Ret (-1),
       snd (warnp ("Bad status from DescribeSnapshots: " ++ status) w1)).
Proof.
  unfold snapshot_query. intros Hq Hst.
  cbn [waitforsnapshot]. unfold bind at 1. rewrite Hq, Hst.
  destruct (status =? "completed")%string; [reflexivity|].
  destruct (status =? "pending")%string; reflexivity.
Qed.

(** C6.  When the first [n] status queries of [waitforsnapshot] observe
    ["pending"] and the next one observes another [status], the stage ends
    at that query: with 0 and [" done."] for ["completed"], with -1 and a
    diagnostic for anything else.  No request follows the query that saw
    [status]; the stage has slept 10 seconds after each of the [n] pending
    answers and printed exactly [n] dots.  For [n = 2] and ["completed"]
    this is: two dots, then completion. *)
Theorem waitforsnapshot_outcome (n fuel : nat) (w w1 w2 : world)
    (resp status : string) :
  pending_polls E n region snapshot key_id key_secret w = Some w1 ->
  snapshot_query E region snapshot key_id key_secret w1
  = (Ret (Some resp), w2) ->
  xmlextract resp "status" = Some status ->
  status <> "pending" ->
  (n < fuel)%nat ->
  exists w' : world,
    waitforsnapshot E fuel region snapshot key_id key_secret w
    = (Ret (if (status =? "completed")%string then 0 else -1), w')
    /\ stderr w'
       = (stderr w2
          ++ [if (status =? "completed")%string then (" done." ++ LF)%string
              else ("Bad status from DescribeSnapshots: " ++ status)%string])%list
    /\ sent w' = sent w2
    /\ net w' = net w2
    /\ slept w' = slept w + 10 * Z.of_nat n
    /\ dots w' = (dots w + n)%nat.
Proof.
  intros Hpoll Hq Hst Hnp Hfuel.
  destruct (snapshot_query_quiet w1 w2 _ Hq) as (Hd2 & Hs2 & _).
  revert w fuel Hpoll Hfuel.
  induction n as [|n IH]; intros w fuel Hpoll Hfuel.
  - cbn in Hpoll. injection Hpoll as ->.
    destruct fuel as [|fuel]; [lia|].
    rewrite (waitforsnapshot_S fuel w1 w2 resp status Hq Hst).
    destruct (String.eqb_spec status "completed") as [Hc | Hc];
      [|destruct (String.eqb_spec status "pending") as [Hp | Hp];
        [contradiction|]];
      (eexists; split; [reflexivity|];
       cbn [snd warnp eprintf stderr sent net slept];
       repeat split; try lia;
       rewrite Nat.add_0_r, <- Hd2;
       eapply dots_log; [reflexivity | discriminate]).
  - destruct fuel as [|fuel]; [lia|].
    cbn [pending_polls] in Hpoll.
    destruct (snapshot_query E region snapshot key_id key_secret w)
      as [[[resp0|]| | |] w0] eqn:Hq0; try discriminate.
    destruct (xmlextract resp0 "status") as [status0|] eqn:Hst0;
      [|discriminate].
    destruct (String.eqb_spec status0 "pending") as [-> | Hp0];
      [|discriminate].
    rewrite (waitforsnapshot_S fuel w w0 resp0 "pending" Hq0 Hst0).
    cbn [String.eqb Ascii.eqb Bool.eqb].
    destruct (IH _ fuel Hpoll ltac:(lia))
      as (w' & Hrun & Herr & Hsent & Hnet & Hslept & Hdots).
    exists w'. split; [exact Hrun|].
    split; [exact Herr|]. split; [exact Hsent|]. split; [exact Hnet|].
    destruct (snapshot_query_quiet w w0 _ Hq0) as (Hd0 & Hs0 & _).
    split.
    + rewrite Hslept. cbn [snd sleep eprintf slept]. rewrite Hs0. lia.
    + rewrite Hdots. unfold dots at 1. cbn [snd sleep eprintf stderr].
      rewrite count_occ_app. cbn. fold (dots w0). rewrite Hd0. lia.
Qed.

End Snapshot.

(** Scenario D: the statuses pending, pending, completed. *)
Lemma waitforsnapshot_outcome_witness :
  let E := demo_env demo_keys 0 in
  let answer status :=
    http_ok ("<DescribeSnapshotsResponse><snapshotSet><item>"
             ++ "<snapshotId>snap-1</snapshotId><status>" ++ status
             ++ "</status></item></snapshotSet></DescribeSnapshotsResponse>") in
  let w := fresh_world [answer "pending"; answer "pending";
                        answer "completed"] in
  exists w' : world,
    waitforsnapshot E 3 "us-west-2" "snap-1" "AKIDEXAMPLE" "wJalrXUtnFEMI" w
    = (Ret 0, w')
    /\ stderr w' = ["."; "."; (" done." ++ LF)%string]
    /\ List.length (sent w') = 3%nat
    /\ net w' = []
    /\ slept w' = 20
    /\ dots w' = 2%nat.
Proof.
  intros E answer w.
  edestruct (waitforsnapshot_outcome E "us-west-2" "snap-1" "AKIDEXAMPLE"
               "wJalrXUtnFEMI" 2 3 w)
    as (w' & Hrun & Herr & Hsent & Hnet & Hslept & Hdots);
    [lazy; reflexivity | lazy; reflexivity | lazy; reflexivity
     | discriminate | lia |].
  exists w'. split; [exact Hrun|].
  split; [rewrite Herr; vm_compute; reflexivity|].
  split; [rewrite Hsent; vm_compute; reflexivity|].
  split; [rewrite Hnet; vm_compute; reflexivity|].
  split; [rewrite Hslept; vm_compute; reflexivity|].
  rewrite Hdots. vm_compute. reflexivity.
Defined.

(** ** Waiting for the import *)

(** C3, as the code has it.  [waitforimport] never looks for an error state
    in a response.  A response without the ["<state>active</state>"] marker
    whose [<volume>] holds an [<id>] ends the stage with that volume, and
    no query follows; any other response that has a [<volume>] and a
    [<statusMessage>] is reported, and the stage sleeps 10 seconds and
    polls again, whatever the [<state>] says; when such a response has no
    [<statusMessage>], the stage fails. *)
Theorem waitforimport_ignores_state (E : env)
    (region taskid key_id key_secret : string) (fuel : nat)
    (laststatus : option string) (w w1 : world) (resp volume : string) :
  import_query E region taskid key_id key_secret w = (Ret (Some resp), w1) ->
  xmlextract resp "volume" = Some volume ->
  let poll := waitforimport_poll E in
  let final :=
    strstr resp "<state>active</state>" = None
    /\ xmlextract volume "id" <> None in
  (forall volid,
      strstr resp "<state>active</state>" = None ->
      xmlextract volume "id" = Some volid ->
      poll (S fuel) region taskid key_id key_secret laststatus w
      = (Ret (Some volid), snd (eprintf (" done." ++ LF) w1)))
  /\ (forall status,
        ~ final ->
        xmlextract resp "statusMessage" = Some status ->
        poll (S fuel) region taskid key_id key_secret laststatus w
        = (last <- printstatus "Importing volume" status laststatus ;;
           sleep 10 ;;
           poll fuel region taskid key_id key_secret last) w1)
  /\ (~ final ->
      xmlextract resp "statusMessage" = None ->
      poll (S fuel) region taskid key_id key_secret laststatus w
      = (Ret None,
         snd (warnp ("Could not find <statusMessage> in DescribeConversionTasks response: "
                     ++ resp) w1))).
Proof.
  unfold import_query. intros Hq Hvol. cbv zeta.
  split; [|split].
  - intros volid Hact Hid.
    cbn [waitforimport_poll]. unfold bind at 1.
    rewrite Hq, Hvol, Hact, Hid. reflexivity.
  - intros status Hfinal Hst.
    cbn [waitforimport_poll]. unfold bind at 1.
    rewrite Hq, Hvol, Hst.
    destruct (strstr resp "<state>active</state>") as [i|]; [reflexivity|].
    destruct (xmlextract volume "id") as [volid|]; [|reflexivity].
    exfalso. apply Hfinal. split; [reflexivity | discriminate].
  - intros Hfinal Hst.
    cbn [waitforimport_poll]. unfold bind at 1.
    rewrite Hq, Hvol, Hst.
    destruct (strstr resp "<state>active</state>") as [i|]; [reflexivity|].
    destruct (xmlextract volume "id") as [volid|]; [|reflexivity].
    exfalso. apply Hfinal. split; [reflexivity | discriminate].
Qed.

(** A cancelled task that names a volume ends the stage with success. *)
Lemma waitforimport_ignores_state_witness :
  let E := demo_env demo_keys 0 in
  let w := fresh_world [http_ok cancelled_task_with_volume] in
  waitforimport_poll E 1 "us-west-2" "import-vol-1" "AKIDEXAMPLE"
    "wJalrXUtnFEMI" None w
  = (Ret (Some "vol-123"),
     snd (eprintf (" done." ++ LF)
            (snd (import_query E "us-west-2" "import-vol-1" "AKIDEXAMPLE"
                    "wJalrXUtnFEMI" w)))).
Proof.
  intros E w.
  refine (proj1 (waitforimport_ignores_state E "us-west-2" "import-vol-1"
                   "AKIDEXAMPLE" "wJalrXUtnFEMI" 0 None w
                   (snd (import_query E "us-west-2" "import-vol-1"
                           "AKIDEXAMPLE" "wJalrXUtnFEMI" w))
                   cancelled_task_with_volume "<size>1</size><id>vol-123</id>"
                   _ _) "vol-123" _ _); vm_compute; reflexivity.
Defined.

(** C3 as stated fails: the first answer reports a cancelled task, and the
    stage does not fail; it sleeps, polls a second time and ends with
    success. *)
Lemma waitforimport_polls_on_after_error :
  let E := demo_env demo_keys 0 in
  let w := fresh_world [http_ok cancelled_task;
                        http_ok cancelled_task_with_volume] in
  let r := waitforimport E 2 "us-west-2" "import-vol-1" "AKIDEXAMPLE"
             "wJalrXUtnFEMI" w in
  strstr cancelled_task "<state>cancelled</state>" <> None
  /\ fst r = Ret (Some "vol-123")
  /\ List.length (sent (snd r)) = 2%nat
  /\ slept (snd r) = 10.
Proof. vm_compute. repeat split; discriminate. Qed.

(** ** Machine integers *)

Lemma to_int64_small (z : Z) : - 2 ^ 63 <= z < 2 ^ 63 -> to_int64 z = z.
Proof. intros H. unfold to_int64. rewrite Z.mod_small; lia. Qed.

Lemma to_uint64_small (z : Z) : 0 <= z < 2 ^ 64 -> to_uint64 z = z.
Proof. intros H. unfold to_uint64. now rewrite Z.mod_small. Qed.

(** Going through [off_t] does not change what a [uint64_t] ends up as. *)
Lemma to_uint64_int64 (z : Z) : to_uint64 (to_int64 z) = to_uint64 z.
Proof.
  unfold to_uint64, to_int64.
  rewrite (Z.mod_eq (z + 2 ^ 63) (2 ^ 64)) by lia.
  replace (z + 2 ^ 63 - 2 ^ 64 * ((z + 2 ^ 63) / 2 ^ 64) - 2 ^ 63)
    with (z + (- ((z + 2 ^ 63) / 2 ^ 64)) * 2 ^ 64) by lia.
  apply Z_mod_plus_full.
Qed.

Lemma PARTSZ_pos : 0 < PARTSZ.
Proof. reflexivity. Qed.

Lemma PARTSZ_small : PARTSZ < 2 ^ 31.
Proof. reflexivity. Qed.

(** ** The parts of an image *)

Lemma byte_ranges_app (a b : list manifest_item) :
  byte_ranges (a ++ b) = (byte_ranges a ++ byte_ranges b)%list.
Proof.
  induction a as [|it a IH]; [reflexivity|].
  destruct it; cbn; now rewrite IH.
Qed.

Section Parts.

Variable L : Z.

(** [(L + PARTSZ - 1) / PARTSZ] is the ceiling of [L / PARTSZ]. *)
Lemma count_is_ceiling :
  ((L + PARTSZ - 1) / PARTSZ - 1) * PARTSZ < L
  <= (L + PARTSZ - 1) / PARTSZ * PARTSZ.
Proof.
  pose proof PARTSZ_pos as HP.
  pose proof (Z.div_mod (L + PARTSZ - 1) PARTSZ ltac:(lia)) as Hdm.
  pose proof (Z.mod_pos_bound (L + PARTSZ - 1) PARTSZ HP) as Hm.
  nia.
Qed.

Lemma count_pos : 0 < L -> 0 < (L + PARTSZ - 1) / PARTSZ.
Proof. pose proof count_is_ceiling. pose proof PARTSZ_pos. nia. Qed.

Lemma parts_left_0 : parts_left L 0 = Z.to_nat ((L + PARTSZ - 1) / PARTSZ).
Proof. unfold parts_left. now rewrite Z.sub_0_r. Qed.

Lemma parts_left_end (pos : Z) : pos = L -> parts_left L pos = O.
Proof.
  intros ->. unfold parts_left. pose proof PARTSZ_pos.
  replace (L - L + PARTSZ - 1) with (PARTSZ - 1) by lia.
  rewrite Z.div_small by lia. reflexivity.
Qed.

Lemma parts_left_step (pos : Z) :
  0 <= pos < L ->
  parts_left L pos = S (parts_left L (pos + part_len L pos)).
Proof.
  intros Hpos. unfold parts_left, part_len. pose proof PARTSZ_pos as HP.
  destruct (Z.le_ge_cases PARTSZ (L - pos)) as [Hfull | Hshort].
  - rewrite Z.min_l by lia.
    replace (L - pos + PARTSZ - 1)
      with (L - (pos + PARTSZ) + PARTSZ - 1 + 1 * PARTSZ) by lia.
    rewrite Z.div_add by lia.
    rewrite Z2Nat.inj_add; [|apply Z.div_pos; lia | lia].
    cbn. lia.
  - rewrite Z.min_r by lia.
    replace (L - (pos + (L - pos)) + PARTSZ - 1) with (PARTSZ - 1) by lia.
    rewrite (Z.div_small (PARTSZ - 1)) by lia.
    replace ((L - pos + PARTSZ - 1) / PARTSZ) with 1; [reflexivity|].
    apply Z.div_unique with (L - pos - 1); lia.
Qed.

Lemma ranges_from_length (n : nat) (pos : Z) :
  List.length (ranges_from L n pos) = n.
Proof.
  revert pos; induction n as [|n IH]; intros pos; cbn;
    [reflexivity | now rewrite IH].
Qed.

Lemma ranges_from_nth (n : nat) :
  forall (pos : Z) (i : nat),
    (i < n)%nat ->
    nth i (ranges_from L n pos) (0, 0)
    = (pos + Z.of_nat i * PARTSZ,
       pos + Z.of_nat i * PARTSZ
       + part_len L (pos + Z.of_nat i * PARTSZ) - 1).
Proof.
  induction n as [|n IH]; intros pos i Hi; [lia|].
  destruct i as [|i]; cbn [ranges_from nth].
  - now rewrite Z.add_0_r.
  - rewrite IH by lia.
    replace (pos + PARTSZ + Z.of_nat i * PARTSZ)
      with (pos + Z.of_nat (S i) * PARTSZ) by lia.
    reflexivity.
Qed.

(** The [i]-th range of the whole image. *)
Lemma ranges_nth (count : Z) (i : nat) :
  (L + PARTSZ - 1) / PARTSZ = count ->
  (i < Z.to_nat count)%nat ->
  nth i (ranges_from L (Z.to_nat count) 0) (0, 0)
  = (Z.of_nat i * PARTSZ,
     if (Z.of_nat i + 1 <? count) then (Z.of_nat i + 1) * PARTSZ - 1
     else L - 1).
Proof.
  intros Hcount Hi. rewrite ranges_from_nth by exact Hi. cbn [Z.add].
  pose proof count_is_ceiling as Hc. rewrite Hcount in Hc.
  pose proof PARTSZ_pos as HP.
  unfold part_len. f_equal.
  destruct (Z.ltb_spec (Z.of_nat i + 1) count) as [Hlt | Hge].
  - rewrite Z.min_l by nia. lia.
  - assert (Z.of_nat i + 1 = count) by lia.
    rewrite Z.min_r by nia. lia.
Qed.

(** The ranges of [ceil(L / PARTSZ)] parts cut the image as the manifest
    must. *)
Lemma ranges_cut (count : Z) :
  0 < L ->
  (L + PARTSZ - 1) / PARTSZ = count ->
  cut_into_parts (ranges_from L (Z.to_nat count) 0) L count.
Proof.
  intros HL Hcount.
  pose proof count_is_ceiling as Hceil. pose proof (count_pos HL) as Hcpos.
  rewrite Hcount in Hceil, Hcpos.
  pose proof (fun i => ranges_nth count i Hcount) as Hnth.
  pose proof PARTSZ_pos as HP.
  unfold cut_into_parts. cbv zeta. rewrite ranges_from_length.
  split; [lia|].
  split; [rewrite Hnth by lia; reflexivity|].
  split.
  { intros i Hi. rewrite !Hnth by lia. cbn [fst snd].
    destruct (Z.ltb_spec (Z.of_nat i + 1) count); lia. }
  split.
  { intros i Hi. rewrite Hnth by lia. cbn [fst snd].
    destruct (Z.ltb_spec (Z.of_nat i + 1) count); nia. }
  split.
  { rewrite Hnth by lia. cbn [snd].
    destruct (Z.ltb_spec (Z.of_nat (Z.to_nat count - 1) + 1) count); lia. }
  split.
  { intros b. split.
    - intros Hb. exists (Z.to_nat (b / PARTSZ)).
      assert (Hq : 0 <= b / PARTSZ < count).
      { split; [apply Z.div_pos; lia|].
        apply Z.div_lt_upper_bound; nia. }
      pose proof (Z.div_mod b PARTSZ ltac:(lia)) as Hdm.
      pose proof (Z.mod_pos_bound b PARTSZ HP) as Hm.
      split; [lia|]. rewrite Hnth by lia. cbn [fst snd].
      rewrite Z2Nat.id by lia.
      destruct (Z.ltb_spec (b / PARTSZ + 1) count); nia.
    - intros (i & Hi & Hb). rewrite Hnth in Hb by lia. cbn [fst snd] in Hb.
      destruct (Z.ltb_spec (Z.of_nat i + 1) count); nia. }
  split.
  { intros i j b Hi Hj Hbi Hbj.
    rewrite Hnth in Hbi, Hbj by lia. cbn [fst snd] in Hbi, Hbj.
    destruct (Z.ltb_spec (Z.of_nat i + 1) count);
      destruct (Z.ltb_spec (Z.of_nat j + 1) count); nia. }
  rewrite Hnth by lia. cbn [fst snd].
  destruct (Z.ltb_spec (Z.of_nat (Z.to_nat count - 1) + 1) count); nia.
Qed.

End Parts.

(** ** [uploadvolume] *)

(** The size arithmetic of the manifest header is defined for an image
    below [2^63 - 2^30] bytes, and only for such an image. *)
Lemma size_fits (L : Z) :
  - 2 ^ 63 <= L < 2 ^ 63 - 2 ^ 30 ->
  negb (fits_off_t (L + 2 ^ 30) && fits_off_t (L + 2 ^ 30 - 1)
        && fits_off_t (L + PARTSZ) && fits_off_t (L + PARTSZ - 1)) = false.
Proof.
  intros HL. pose proof PARTSZ_pos.
  assert (PARTSZ < 2 ^ 30) by reflexivity.
  unfold fits_off_t.
  repeat match goal with
         | |- context [?a <=? ?b] => destruct (Z.leb_spec a b); [|lia]
         | |- context [?a <? ?b] => destruct (Z.ltb_spec a b); [|lia]
         end.
  reflexivity.
Qed.

Lemma size_overflows (L : Z) :
  negb (fits_off_t (L + 2 ^ 30) && fits_off_t (L + 2 ^ 30 - 1)
        && fits_off_t (L + PARTSZ) && fits_off_t (L + PARTSZ - 1)) = true ->
  ~ (- 2 ^ 63 <= L < 2 ^ 63 - 2 ^ 30).
Proof. intros Hc HL. rewrite (size_fits L HL) in Hc. discriminate. Qed.

(** *** The text of the manifest *)

Lemma render_cons (it : manifest_item) (m : list manifest_item) :
  render (it :: m) = render_item it ++ render m.
Proof. apply concat_cons. Qed.

Lemma render_app (a b : list manifest_item) :
  render (a ++ b) = render a ++ render b.
Proof.
  induction a as [|it a IH]; [reflexivity|].
  cbn [app]. now rewrite !render_cons, IH, append_assoc.
Qed.

(** What one round of the part loop appends is the [<part>] element. *)
Lemma render_part_items (bucket noncehex : string) (L pos : Z)
    (q1 q2 q3 : string) :
  render (part_items bucket noncehex L pos q1 q2 q3)
  = part_element bucket noncehex (pos / PARTSZ)
      ((pos, pos + part_len L pos - 1), (q1, q2, q3)).
Proof.
  unfold part_items, part_path, part_element.
  rewrite !render_cons. unfold render_item.
  change (render []) with EmptyString.
  repeat rewrite append_assoc. rewrite ?append_nil_r. reflexivity.
Qed.

(** The pieces of a finished manifest make the document. *)
Lemma render_manifest (bucket noncehex query : string)
    (size volume_size count : Z) (m : list manifest_item)
    (parts : list ((Z * Z) * (string * string * string))) :
  render m
  = render [MHeader bucket ("/" ++ noncehex ++ "/manifest.xml")
              (encodeamp query) size volume_size count]
    ++ part_elements bucket noncehex 0 parts ->
  render (m ++ [MFooter])
  = manifest_document bucket noncehex query size volume_size count parts.
Proof.
  intros Hm.
  rewrite render_app, Hm, !render_cons.
  change (render []) with EmptyString.
  unfold render_item, manifest_document, manifest_prologue.
  repeat rewrite append_assoc. rewrite ?append_nil_r. reflexivity.
Qed.

Section Upload.

Variable E : env.
Variable f : disk_image.
Variables fname region bucket key_id key_secret noncehex : string.
Variable L : Z.
Hypothesis L_range : 0 <= L < 2 ^ 63.

(** One round of the part loop, with the machine arithmetic resolved. *)
Lemma upload_parts_round (fuel : nat) (pos : Z)
    (manifest : list manifest_item) (w : world) :
  0 <= pos < L ->
  exists r w2,
    s3_put_loop E key_id key_secret region bucket (part_path noncehex pos)
      (Img pos (part_len L pos)) (part_len L pos) (snd (eprintf "." w))
    = (Ret r, w2)
    /\ upload_parts E (S fuel) f fname region bucket key_id key_secret
         noncehex L pos PARTSZ manifest w
       = if negb (im_fread f pos (part_len L pos)) then
           (Ret None,
            snd (warnp ("Error reading file: " ++ fname)
                   (snd (eprintf "." w))))
         else if negb (r =? 0) then (Ret None, snd (warnp "PUT failed" w2))
         else
           match
             aws_sign_s3_querystr E w2 key_id key_secret region "HEAD"
               bucket (part_path noncehex pos) 604800,
             aws_sign_s3_querystr E w2 key_id key_secret region "GET"
               bucket (part_path noncehex pos) 604800,
             aws_sign_s3_querystr E w2 key_id key_secret region "DELETE"
               bucket (part_path noncehex pos) 604800
           with
           | Some q1, Some q2, Some q3 =>
               upload_parts E fuel f fname region bucket key_id key_secret
                 noncehex L (pos + part_len L pos) (part_len L pos)
                 (manifest ++ part_items bucket noncehex L pos q1 q2 q3) w2
           | _, _, _ =>
               (Ret None, snd (warnp "Error generating presigned URL" w2))
           end.
Proof.
  intros Hpos.
  pose proof PARTSZ_pos as HP. pose proof PARTSZ_small as HP'.
  destruct (s3_put_loop_sent E key_id key_secret region bucket
              (part_path noncehex pos) (Img pos (part_len L pos))
              (part_len L pos) (snd (eprintf "." w)))
    as (r & w2 & reqs & Hrun & _).
  exists r, w2. split; [exact Hrun|].
  cbn [upload_parts].
  destruct (Z.ltb_spec pos L) as [_ | Hc]; [|lia].
  assert (Hlen : (if to_int64 (L - pos) <? to_int64 PARTSZ
                  then to_uint64 (to_int64 (L - pos)) else PARTSZ)
                 = part_len L pos).
  { unfold part_len. rewrite !to_int64_small by lia.
    destruct (Z.ltb_spec (L - pos) PARTSZ).
    - rewrite to_uint64_small by lia. lia.
    - lia. }
  rewrite Hlen.
  assert (Hlen' : 0 < part_len L pos <= PARTSZ) by (unfold part_len; lia).
  assert (Hle : pos + part_len L pos <= L) by (unfold part_len; lia).
  assert (Hno' : 0 <= pos / PARTSZ < 2 ^ 63).
  { split; [apply Z.div_pos; lia|].
    apply Z.le_lt_trans with pos; [|lia].
    apply Z.div_le_upper_bound; nia. }
  assert (Hno : to_uint64 (pos ÷ PARTSZ) = pos / PARTSZ).
  { rewrite Z.quot_div_nonneg by lia. apply to_uint64_small. lia. }
  rewrite Hno.
  rewrite (to_int64_small (pos / PARTSZ)) by lia.
  rewrite (to_uint64_small (pos + part_len L pos)) by lia.
  rewrite (to_uint64_small (pos + part_len L pos - 1)) by lia.
  rewrite (to_int64_small (pos + part_len L pos - 1)) by lia.
  rewrite (to_int64_small (pos + part_len L pos)) by lia.
  fold (part_path noncehex pos).
  unfold bind at 1. cbn [eprintf].
  destruct (negb (im_fread f pos (part_len L pos))); [reflexivity|].
  unfold bind at 1.
  change {| net := net w; sent := sent w; stderr := (stderr w ++ ["."])%list;
            stdout := stdout w; slept := slept w |}
    with (snd (eprintf "." w)).
  rewrite Hrun.
  destruct (negb (r =? 0)); [reflexivity|].
  unfold presign, bind, observe.
  destruct (aws_sign_s3_querystr E w2 key_id key_secret region "HEAD" bucket
              (part_path noncehex pos) 604800) as [q1|]; [|reflexivity].
  destruct (aws_sign_s3_querystr E w2 key_id key_secret region "GET" bucket
              (part_path noncehex pos) 604800) as [q2|]; [|reflexivity].
  destruct (aws_sign_s3_querystr E w2 key_id key_secret region "DELETE"
              bucket (part_path noncehex pos) 604800) as [q3|]; [|reflexivity].
  unfold part_items. rewrite <- !app_assoc. reflexivity.
Qed.

(** The part loop started at [pos] ends within [parts_left L pos] rounds,
    and when it ends well it has appended the ranges of the parts from
    [pos] on. *)
Lemma upload_parts_run (fuel : nat) :
  forall (pos buflen : Z) (manifest : list manifest_item) (w : world),
    0 <= pos <= L ->
    (pos < L -> buflen = PARTSZ) ->
    ((parts_left L pos < fuel)%nat ->
     fst (upload_parts E fuel f fname region bucket key_id key_secret
            noncehex L pos buflen manifest w) <> OutOfFuel)
    /\ (forall m' w',
          upload_parts E fuel f fname region bucket key_id key_secret
            noncehex L pos buflen manifest w = (Ret (Some m'), w') ->
          exists tail,
            m' = (manifest ++ tail)%list
            /\ byte_ranges tail = ranges_from L (parts_left L pos) pos).
Proof.
  induction fuel as [|fuel IH]; intros pos buflen manifest w Hpos Hbuf.
  - split; [lia | discriminate].
  - destruct (Z.lt_ge_cases pos L) as [Hlt | Hge].
    + rewrite (Hbuf Hlt).
      destruct (upload_parts_round fuel pos manifest w ltac:(lia))
        as (r & w2 & _ & ->).
      assert (Hnext : 0 <= pos + part_len L pos <= L)
        by (unfold part_len; pose proof PARTSZ_pos; lia).
      assert (Hbuf' : pos + part_len L pos < L -> part_len L pos = PARTSZ)
        by (unfold part_len; lia).
      rewrite (parts_left_step L pos) by lia.
      destruct (negb (im_fread f pos (part_len L pos)));
        [split; discriminate|].
      destruct (negb (r =? 0)); [split; discriminate|].
      destruct (aws_sign_s3_querystr E w2 key_id key_secret region "HEAD"
                  bucket (part_path noncehex pos) 604800) as [q1|];
        [|split; discriminate].
      destruct (aws_sign_s3_querystr E w2 key_id key_secret region "GET"
                  bucket (part_path noncehex pos) 604800) as [q2|];
        [|split; discriminate].
      destruct (aws_sign_s3_querystr E w2 key_id key_secret region "DELETE"
                  bucket (part_path noncehex pos) 604800) as [q3|];
        [|split; discriminate].
      destruct (IH (pos + part_len L pos) (part_len L pos)
                  (manifest ++ part_items bucket noncehex L pos q1 q2 q3)%list
                  w2 Hnext Hbuf')
        as [Hfuel Hres].
      split; [intros Hf; apply Hfuel; lia|].
      intros m' w' Hrun. destruct (Hres m' w' Hrun) as (tail & -> & Hranges).
      exists (part_items bucket noncehex L pos q1 q2 q3 ++ tail)%list.
      split; [now rewrite app_assoc|].
      rewrite byte_ranges_app, Hranges. cbn [part_items byte_ranges app].
      cbn [ranges_from]. f_equal.
      destruct (Z.eq_dec (pos + part_len L pos) L) as [Heq | Hne].
      * rewrite (parts_left_end L (pos + part_len L pos)) by lia. reflexivity.
      * now rewrite Hbuf' by lia.
    + cbn [upload_parts].
      destruct (Z.ltb_spec pos L) as [Hc | _]; [lia|].
      split; [discriminate|].
      intros m' w' Hrun. injection Hrun as <- <-.
      exists []. rewrite app_nil_r, parts_left_end by lia.
      split; reflexivity.
Qed.

(** When the part loop ends well, what it has appended to the manifest is
    the text of the [<part>] elements of the parts from [pos] on, with the
    query strings the signer handed out for them. *)
Lemma upload_parts_document (fuel : nat) :
  forall (pos buflen : Z) (manifest m' : list manifest_item) (w w' : world),
    0 <= pos <= L ->
    (pos < L -> buflen = PARTSZ) ->
    upload_parts E fuel f fname region bucket key_id key_secret noncehex L
      pos buflen manifest w = (Ret (Some m'), w') ->
    exists parts : list ((Z * Z) * (string * string * string)),
      render m'
      = render manifest ++ part_elements bucket noncehex (pos / PARTSZ) parts
      /\ map fst parts = ranges_from L (parts_left L pos) pos
      /\ Forall (presigned E key_id key_secret region bucket noncehex) parts.
Proof.
  induction fuel as [|fuel IH];
    intros pos buflen manifest m' w w' Hpos Hbuf Hrun; [discriminate|].
  destruct (Z.lt_ge_cases pos L) as [Hlt | Hge].
  - rewrite (Hbuf Hlt) in Hrun.
    destruct (upload_parts_round fuel pos manifest w ltac:(lia))
      as (r & w2 & _ & Hround).
    rewrite Hround in Hrun. clear Hround.
    destruct (negb (im_fread f pos (part_len L pos))); [discriminate|].
    destruct (negb (r =? 0)); [discriminate|].
    assert (Hnext : 0 <= pos + part_len L pos <= L)
      by (unfold part_len; pose proof PARTSZ_pos; lia).
    assert (Hbuf' : pos + part_len L pos < L -> part_len L pos = PARTSZ)
      by (unfold part_len; lia).
    destruct (aws_sign_s3_querystr E w2 key_id key_secret region "HEAD"
                bucket (part_path noncehex pos) 604800) as [q1|] eqn:Hq1;
      [|discriminate].
    destruct (aws_sign_s3_querystr E w2 key_id key_secret region "GET"
                bucket (part_path noncehex pos) 604800) as [q2|] eqn:Hq2;
      [|discriminate].
    destruct (aws_sign_s3_querystr E w2 key_id key_secret region "DELETE"
                bucket (part_path noncehex pos) 604800) as [q3|] eqn:Hq3;
      [|discriminate].
    destruct (IH _ _ _ _ _ _ Hnext Hbuf' Hrun)
      as (parts & Hdoc & Hranges & Hsigned).
    exists (((pos, pos + part_len L pos - 1), (q1, q2, q3)) :: parts).
    rewrite (parts_left_step L pos) by lia.
    assert (Hrest : part_elements bucket noncehex
                      ((pos + part_len L pos) / PARTSZ) parts
                    = part_elements bucket noncehex (pos / PARTSZ + 1) parts
                      /\ ranges_from L (parts_left L (pos + part_len L pos))
                           (pos + part_len L pos)
                         = ranges_from L (parts_left L (pos + part_len L pos))
                             (pos + PARTSZ)).
    { destruct (Z.eq_dec (pos + part_len L pos) L) as [Heq | Hne].
      - rewrite (parts_left_end L (pos + part_len L pos)) in * by lia.
        destruct parts; [split; reflexivity | discriminate Hranges].
      - rewrite Hbuf' by lia.
        replace (pos + PARTSZ) with (pos + 1 * PARTSZ) by lia.
        rewrite Z.div_add by (pose proof PARTSZ_pos; lia).
        split; reflexivity. }
    destruct Hrest as [Hindex Hfrom].
    split.
    + rewrite Hdoc, render_app, render_part_items, Hindex.
      cbn [part_elements]. now rewrite !append_assoc.
    + split.
      * cbn [map fst ranges_from]. now rewrite Hranges, Hfrom.
      * constructor; [|exact Hsigned].
        cbn [presigned]. exists w2. fold (part_path noncehex pos).
        now rewrite Hq1, Hq2, Hq3.
  - cbn [upload_parts] in Hrun.
    destruct (Z.ltb_spec pos L) as [Hc | _]; [lia|].
    injection Hrun as <- <-.
    exists []. rewrite parts_left_end by lia. cbn.
    now rewrite append_nil_r.
Qed.

End Upload.

(** *** The requests of the part loop *)

Lemma windows_app (a b : list request) :
  windows (a ++ b) = (windows a ++ windows b)%list.
Proof.
  induction a as [|rq a IH]; [reflexivity|].
  cbn [app windows]. destruct (window rq); cbn; now rewrite IH.
Qed.

Lemma windows_part (pos len : Z) (rqs : list request) :
  Forall (fun rq => rq_body rq = Img pos len) rqs ->
  windows rqs = repeat (pos, pos + len - 1) (List.length rqs).
Proof.
  induction 1 as [|rq rqs Hrq _ IH]; [reflexivity|].
  cbn [windows List.length repeat]. unfold window. now rewrite Hrq, IH.
Qed.

Lemma windows_mem (s : string) (rqs : list request) :
  Forall (fun rq => rq_body rq = Mem s) rqs -> windows rqs = [].
Proof.
  induction 1 as [|rq rqs Hrq _ IH]; [reflexivity|].
  cbn [windows]. unfold window. now rewrite Hrq.
Qed.

Section Sends.

Variable E : env.
Variable f : disk_image.
Variables fname region bucket key_id key_secret noncehex : string.
Variable L : Z.
Hypothesis L_range : 0 <= L < 2 ^ 63.

(** The requests of the part loop: every part is sent in its turn, between
    1 and 10 times. *)
Lemma upload_parts_sends (fuel : nat) :
  forall (pos buflen : Z) (manifest m' : list manifest_item) (w w' : world),
    0 <= pos <= L ->
    (pos < L -> buflen = PARTSZ) ->
    upload_parts E fuel f fname region bucket key_id key_secret noncehex L
      pos buflen manifest w = (Ret (Some m'), w') ->
    exists rqs ks,
      sent w' = (sent w ++ rqs)%list
      /\ windows rqs = repeated (ranges_from L (parts_left L pos) pos) ks
      /\ List.length ks = parts_left L pos
      /\ Forall (fun k => (1 <= k <= 10)%nat) ks.
Proof.
  induction fuel as [|fuel IH];
    intros pos buflen manifest m' w w' Hpos Hbuf Hrun; [discriminate|].
  destruct (Z.lt_ge_cases pos L) as [Hlt | Hge].
  - rewrite (Hbuf Hlt) in Hrun.
    destruct (upload_parts_round E f fname region bucket key_id key_secret
                noncehex L L_range fuel pos manifest w ltac:(lia))
      as (r & w2 & Hput & Hround).
    rewrite Hround in Hrun. clear Hround.
    destruct (s3_put_loop_sent E key_id key_secret region bucket
                (part_path noncehex pos) (Img pos (part_len L pos))
                (part_len L pos) (snd (eprintf "." w)))
      as (r' & w2' & reqs & Hput' & _ & Hsent & Hall & Hne & Hlen).
    rewrite Hput in Hput'. injection Hput' as <- <-.
    destruct (negb (im_fread f pos (part_len L pos))); [discriminate|].
    destruct (Z.eqb_spec r 0) as [-> | Hr]; [|discriminate].
    cbn [negb] in Hrun.
    assert (Hnext : 0 <= pos + part_len L pos <= L)
      by (unfold part_len; pose proof PARTSZ_pos; lia).
    assert (Hbuf' : pos + part_len L pos < L -> part_len L pos = PARTSZ)
      by (unfold part_len; lia).
    destruct (aws_sign_s3_querystr E w2 key_id key_secret region "HEAD"
                bucket (part_path noncehex pos) 604800) as [q1|];
      [|discriminate].
    destruct (aws_sign_s3_querystr E w2 key_id key_secret region "GET"
                bucket (part_path noncehex pos) 604800) as [q2|];
      [|discriminate].
    destruct (aws_sign_s3_querystr E w2 key_id key_secret region "DELETE"
                bucket (part_path noncehex pos) 604800) as [q3|];
      [|discriminate].
    destruct (IH _ _ _ _ _ _ Hnext Hbuf' Hrun)
      as (rqs & ks & Hsent' & Hwin & Hks & Hall').
    exists (reqs ++ rqs)%list, (List.length reqs :: ks).
    cbn [snd eprintf sent] in Hsent.
    rewrite (parts_left_step L pos) by lia.
    split; [now rewrite Hsent', Hsent, app_assoc|].
    split.
    + rewrite windows_app, (windows_part _ _ _ Hall), Hwin.
      cbn [ranges_from repeated].
      destruct (Z.eq_dec (pos + part_len L pos) L) as [Heq | Hne'].
      * rewrite (parts_left_end L (pos + part_len L pos)) by lia.
        reflexivity.
      * now rewrite Hbuf' by lia.
    + split; [cbn; now rewrite Hks|].
      constructor; [|exact Hall'].
      specialize (Hne eq_refl). destruct reqs; [contradiction|].
      cbn in *. lia.
  - cbn [upload_parts] in Hrun.
    destruct (Z.ltb_spec pos L) as [Hc | _]; [lia|].
    injection Hrun as <- <-.
    exists [], []. rewrite app_nil_r, parts_left_end by lia.
    repeat split; constructor.
Qed.

End Sends.


(** *** The whole upload *)

Section Manifest.

Variable E : env.
Variables fname region bucket key_id key_secret : string.

(** The numbers of the manifest header, with the machine arithmetic
    resolved. *)
Lemma header_numbers (L : Z) :
  0 <= L < 2 ^ 63 - 2 ^ 30 ->
  to_int64 (to_uint64 L) = L
  /\ to_int64 (L + 2 ^ 30 - 1) ÷ 2 ^ 30 = (L + 2 ^ 30 - 1) / 2 ^ 30
  /\ to_int64 (to_uint64 (to_int64 (L + PARTSZ - 1)) ÷ PARTSZ)
     = (L + PARTSZ - 1) / PARTSZ
  /\ to_uint64 L = L.
Proof.
  intros HL. pose proof PARTSZ_pos as HP. pose proof PARTSZ_small as HP'.
  pose proof (count_is_ceiling L) as Hceil.
  split; [rewrite to_uint64_small, to_int64_small; lia|].
  split; [rewrite to_int64_small, Z.quot_div_nonneg; lia|].
  split; [|apply to_uint64_small; lia].
  rewrite to_uint64_int64, to_uint64_small by lia.
  rewrite Z.quot_div_nonneg by lia.
  apply to_int64_small.
  assert (0 <= (L + PARTSZ - 1) / PARTSZ) by (apply Z.div_pos; lia).
  nia.
Qed.

(** For an image of [2^63 - 2^30] bytes or more the sums of the manifest
    header overflow: the behaviour of [uploadvolume] is undefined from
    there on, and nothing has been sent. *)
Lemma uploadvolume_oversized (fuel : nat) (w : world) (nonce : string)
    (f : disk_image) (L : Z) (query : string) :
  entropy_read E = Some nonce ->
  open_image E fname = Some f ->
  im_fstat f = Some L ->
  2 ^ 63 - 2 ^ 30 <= L ->
  aws_sign_s3_querystr E w key_id key_secret region "DELETE" bucket
    ("/" ++ hexify E nonce ++ "/manifest.xml") 604800 = Some query ->
  uploadvolume E fuel fname region bucket key_id key_secret w
  = (Undefined, w).
Proof.
  intros Hent Himg Hstat HL Hquery.
  unfold uploadvolume. rewrite Hent, Himg, Hstat.
  unfold bind at 1. unfold presign at 1. unfold observe. rewrite Hquery.
  replace (fits_off_t (L + 2 ^ 30)) with false; [reflexivity|].
  unfold fits_off_t. destruct (Z.ltb_spec (L + 2 ^ 30) (2 ^ 63)); [lia|].
  now rewrite andb_false_r.
Qed.

(** With fuel for every part, [uploadvolume] does not run out of fuel. *)
Lemma uploadvolume_fuel (fuel : nat) (w : world) (nonce : string)
    (f : disk_image) (L : Z) :
  entropy_read E = Some nonce ->
  open_image E fname = Some f ->
  im_fstat f = Some L ->
  0 <= L < 2 ^ 63 ->
  (parts_left L 0 < fuel)%nat ->
  fst (uploadvolume E fuel fname region bucket key_id key_secret w)
  <> OutOfFuel.
Proof.
  intros Hent Himg Hstat HL Hfuel.
  destruct (uploadvolume E fuel fname region bucket key_id key_secret w)
    as [res wf] eqn:Hrun.
  cbn [fst]. intros ->.
  unfold uploadvolume in Hrun. rewrite Hent, Himg, Hstat in Hrun.
  unfold bind at 1 in Hrun. unfold presign at 1 in Hrun.
  unfold observe in Hrun.
  destruct (aws_sign_s3_querystr E w key_id key_secret region "DELETE" bucket
              ("/" ++ hexify E nonce ++ "/manifest.xml") 604800) as [query|];
    [|discriminate].
  destruct (negb _) in Hrun; [discriminate|].
  unfold bind at 1 in Hrun. cbn [eprintf] in Hrun.
  unfold bind at 1 in Hrun.
  match type of Hrun with
  | context [upload_parts E fuel f fname region bucket key_id key_secret
               ?nh L 0 PARTSZ ?m ?w0] =>
      destruct (upload_parts_run E f fname region bucket key_id key_secret
                  nh L HL fuel 0 PARTSZ m w0 ltac:(lia)
                  ltac:(reflexivity)) as [Hloop _];
      destruct (upload_parts E fuel f fname region bucket key_id key_secret
                  nh L 0 PARTSZ m w0) as [[[m'|]| | |] w1]
  end; try discriminate.
  - unfold bind at 1 in Hrun. cbn [eprintf] in Hrun.
    unfold bind at 1 in Hrun. cbn [eprintf] in Hrun.
    unfold bind at 1 in Hrun.
    match type of Hrun with
    | context [s3_put_loop E key_id key_secret region bucket ?p ?b ?bl ?w0] =>
        destruct (s3_put_loop_sent E key_id key_secret region bucket p b bl
                    w0) as (r & w2 & reqs & Hput & _)
    end.
    rewrite Hput in Hrun. destruct (negb (r =? 0)); discriminate.
  - now apply Hloop.
Qed.

(** A run of [uploadvolume] that ends well, taken apart: the document it
    has sent last, and the requests before it. *)
Lemma uploadvolume_done (fuel : nat) (w w' : world) (nonce : string)
    (f : disk_image) (L : Z) (path : string) (size : Z) :
  entropy_read E = Some nonce ->
  open_image E fname = Some f ->
  im_fstat f = Some L ->
  0 <= L < 2 ^ 63 - 2 ^ 30 ->
  uploadvolume E fuel fname region bucket key_id key_secret w
  = (Ret (Some (path, size)), w') ->
  exists (query : string)
         (parts : list ((Z * Z) * (string * string * string)))
         (part_rqs put_rqs : list request) (ks : list nat),
    path = "/" ++ hexify E nonce ++ "/manifest.xml"
    /\ size = L
    /\ aws_sign_s3_querystr E w key_id key_secret region "DELETE" bucket
         path 604800 = Some query
    /\ map fst parts = ranges_from L (parts_left L 0) 0
    /\ Forall (presigned E key_id key_secret region bucket (hexify E nonce))
         parts
    /\ sent w' = (sent w ++ part_rqs ++ put_rqs)%list
    /\ windows part_rqs = repeated (ranges_from L (parts_left L 0) 0) ks
    /\ List.length ks = parts_left L 0
    /\ Forall (fun k => (1 <= k <= 10)%nat) ks
    /\ put_rqs <> []
    /\ Forall
         (fun rq =>
            rq_body rq
            = Mem (manifest_document bucket (hexify E nonce) query L
                     (to_int32 ((L + 2 ^ 30 - 1) / 2 ^ 30))
                     ((L + PARTSZ - 1) / PARTSZ) parts))
         put_rqs.
Proof.
  intros Hent Himg Hstat HL Hrun.
  assert (HL' : 0 <= L < 2 ^ 63) by lia.
  destruct (header_numbers L HL) as (Hsize & Hvol & Hcount & Hret).
  unfold uploadvolume in Hrun. rewrite Hent, Himg, Hstat in Hrun.
  unfold bind at 1 in Hrun. unfold presign at 1 in Hrun.
  unfold observe in Hrun.
  destruct (aws_sign_s3_querystr E w key_id key_secret region "DELETE" bucket
              ("/" ++ hexify E nonce ++ "/manifest.xml") 604800)
    as [query|] eqn:Hquery; [|discriminate].
  rewrite size_fits in Hrun by lia.
  rewrite Hsize, Hvol, Hcount, Hret in Hrun.
  unfold bind at 1 in Hrun. cbn [eprintf] in Hrun.
  unfold bind at 1 in Hrun.
  match type of Hrun with
  | context [upload_parts E fuel f fname region bucket key_id key_secret
               ?nh L 0 PARTSZ ?m ?w0] =>
      pose proof (upload_parts_document E f fname region bucket key_id
                    key_secret nh L HL' fuel 0 PARTSZ m) as Hdoc;
      pose proof (upload_parts_sends E f fname region bucket key_id
                    key_secret nh L HL' fuel 0 PARTSZ m) as Hsends;
      destruct (upload_parts E fuel f fname region bucket key_id key_secret
                  nh L 0 PARTSZ m w0) as [[[m'|]| | |] w1] eqn:Hloop
  end; try discriminate.
  destruct (Hdoc _ _ _ ltac:(lia) ltac:(reflexivity) Hloop)
    as (parts & Hrender & Hranges & Hsigned).
  destruct (Hsends _ _ _ ltac:(lia) ltac:(reflexivity) Hloop)
    as (part_rqs & ks & Hsent1 & Hwin & Hks & Hall1).
  cbn [sent] in Hsent1.
  change (0 / PARTSZ) with 0 in Hrender.
  apply render_manifest in Hrender. rewrite Hrender in Hrun.
  unfold bind at 1 in Hrun. cbn [eprintf] in Hrun.
  unfold bind at 1 in Hrun. cbn [eprintf] in Hrun.
  unfold bind at 1 in Hrun.
  match type of Hrun with
  | context [s3_put_loop E key_id key_secret region bucket ?p ?b ?bl ?w0] =>
      destruct (s3_put_loop_sent E key_id key_secret region bucket p b bl w0)
        as (r & w2 & reqs & Hput & Hr & Hsent & Hall & Hne & _)
  end.
  rewrite Hput in Hrun.
  destruct (Z.eqb_spec r 0) as [-> | Hr0]; cbn [negb] in Hrun;
    [|discriminate].
  cbv [bind eprintf ret] in Hrun. injection Hrun as <- <- <-.
  exists query, parts, part_rqs, reqs, ks.
  cbn [sent] in *.
  split; [reflexivity|]. split; [reflexivity|].
  split; [exact Hquery|]. split; [exact Hranges|]. split; [exact Hsigned|].
  split; [now rewrite Hsent, Hsent1, app_assoc|].
  split; [exact Hwin|]. split; [exact Hks|]. split; [exact Hall1|].
  split; [now apply Hne | exact Hall].
Qed.

(** C1.  For an image of [L > 0] bytes, [L] below [2^63 - 2^30] so that the
    size arithmetic is defined, and with [count = (L + PARTSZ - 1) / PARTSZ],
    which is the ceiling of [L / PARTSZ]: the part loop never needs more
    than [count] rounds, and whenever [uploadvolume] succeeds, the body of
    the last request it sent is the manifest document whose [<parts>]
    element declares [count] parts and holds one [<part>] element for each
    range of a list that cuts the bytes [0 .. L - 1] into [count] parts:
    the first range starts at 0, each next one starts right after the one
    before, none is empty, the last ends at [L - 1], every byte lies in
    exactly one range, and the last part holds [L - (count - 1) * PARTSZ]
    bytes.  The query strings in the document are the ones the signer
    handed out. *)
Theorem uploadvolume_manifest_parts (fuel : nat) (w : world)
    (nonce : string) (f : disk_image) (L : Z) :
  entropy_read E = Some nonce ->
  open_image E fname = Some f ->
  im_fstat f = Some L ->
  0 < L < 2 ^ 63 - 2 ^ 30 ->
  let count := (L + PARTSZ - 1) / PARTSZ in
  let run := uploadvolume E fuel fname region bucket key_id key_secret w in
  (count - 1) * PARTSZ < L <= count * PARTSZ
  /\ ((Z.to_nat count < fuel)%nat -> fst run <> OutOfFuel)
  /\ forall (path : string) (size : Z) (w' : world),
       run = (Ret (Some (path, size)), w') ->
       exists (self_destruct : string) (volume_size : Z)
              (parts : list ((Z * Z) * (string * string * string)))
              (earlier : list request) (rq : request),
         sent w' = (earlier ++ [rq])%list
         /\ rq_body rq
            = Mem (manifest_document bucket (hexify E nonce) self_destruct
                     L volume_size count parts)
         /\ aws_sign_s3_querystr E w key_id key_secret region "DELETE"
              bucket path 604800 = Some self_destruct
         /\ Forall (presigned E key_id key_secret region bucket
                      (hexify E nonce)) parts
         /\ cut_into_parts (map fst parts) L count.
Proof.
  intros Hent Himg Hstat HL count run.
  pose proof (count_is_ceiling L) as Hceil.
  pose proof (parts_left_0 L) as Hleft.
  split; [exact Hceil|].
  split.
  { intros Hfuel. apply uploadvolume_fuel with nonce f L; try assumption;
      [lia | now rewrite Hleft]. }
  intros path size w' Hrun.
  destruct (uploadvolume_done fuel w w' nonce f L path size Hent Himg Hstat
              ltac:(lia) Hrun)
    as (query & parts & part_rqs & put_rqs & ks & _ & _ & Hquery & Hranges
        & Hsigned & Hsent & _ & _ & _ & Hne & Hall).
  destruct (exists_last Hne) as (earlier & rq & ->).
  apply Forall_app in Hall. destruct Hall as [_ Hrq].
  apply Forall_inv in Hrq.
  exists query, (to_int32 ((L + 2 ^ 30 - 1) / 2 ^ 30)), parts,
    (sent w ++ part_rqs ++ earlier)%list, rq.
  split; [now rewrite Hsent, <- !app_assoc|].
  split; [exact Hrq|]. split; [exact Hquery|]. split; [exact Hsigned|].
  rewrite Hranges, Hleft. apply ranges_cut; [lia | reflexivity].
Qed.

(** C10.  For an image of 0 bytes, the manifest document is the prologue
    followed by an [<import>] element that declares the size 0, the volume
    size 0 and 0 parts and holds no [<part>] element.  [uploadvolume]
    prints its three progress lines and goes straight to the PUT of that
    document: every request it sends carries the document, so no part is
    ever PUT.  It returns what that PUT decides: the manifest path and the
    size 0 when the PUT succeeds, [NULL] when it fails. *)
Theorem uploadvolume_empty_image (fuel : nat) (w : world) (nonce : string)
    (f : disk_image) (query : string) :
  (0 < fuel)%nat ->
  entropy_read E = Some nonce ->
  open_image E fname = Some f ->
  im_fstat f = Some 0 ->
  let path := "/" ++ hexify E nonce ++ "/manifest.xml" in
  aws_sign_s3_querystr E w key_id key_secret region "DELETE" bucket path
    604800 = Some query ->
  let doc := manifest_document bucket (hexify E nonce) query 0 0 0 [] in
  let body := Mem doc in
  let w1 :=
    snd ((eprintf ("Uploading " ++ fname ++ " to" ++ LF ++ "http://"
                   ++ bucket ++ ".s3.amazonaws.com/" ++ hexify E nonce ++ "/"
                   ++ LF ++ "in " ++ decimal 0 ++ " part(s)") ;;
          eprintf (" done." ++ LF) ;;
          eprintf "Uploading volume manifest...") w) in
  doc = manifest_prologue bucket (hexify E nonce) query
        ++ "<import><size>0</size><volume-size>0</volume-size>"
        ++ "<parts count=" ++ DQ ++ "0" ++ DQ ++ ">"
        ++ "</parts></import></manifest>"
  /\ forall (r : Z) (w2 : world),
       s3_put_loop E key_id key_secret region bucket path body
         (Z.of_nat (String.length doc)) w1 = (Ret r, w2) ->
       (exists reqs,
           sent w2 = (sent w ++ reqs)%list
           /\ Forall (fun rq => rq_body rq = body) reqs
           /\ (r = 0 -> reqs <> []))
       /\ (r = 0 ->
           uploadvolume E fuel fname region bucket key_id key_secret w
           = (Ret (Some (path, 0)), snd (eprintf (" done." ++ LF) w2)))
       /\ (r <> 0 ->
           uploadvolume E fuel fname region bucket key_id key_secret w
           = (Ret None, w2)).
Proof.
  intros Hfuel Hent Himg Hstat path Hsign doc body w1.
  split; [reflexivity|].
  destruct fuel as [|fuel]; [lia|].
  assert (Hdoc : render [MHeader bucket path (encodeamp query) 0 0 0; MFooter]
                 = doc).
  { apply (render_manifest bucket (hexify E nonce) query 0 0 0
             [MHeader bucket path (encodeamp query) 0 0 0] []).
    cbn [part_elements]. now rewrite append_nil_r. }
  assert (Hrun : uploadvolume E (S fuel) fname region bucket key_id
                   key_secret w
                 = (r0 <- s3_put_loop E key_id key_secret region bucket path
                            body (Z.of_nat (String.length doc)) ;;
                    if negb (r0 =? 0) then ret None
                    else eprintf (" done." ++ LF) ;; ret (Some (path, 0)))
                     w1).
  { unfold uploadvolume. rewrite Hent, Himg, Hstat.
    unfold bind at 1. unfold presign at 1. unfold observe. fold path.
    rewrite Hsign, size_fits by lia.
    change (to_int64 (to_uint64 0)) with 0.
    change (to_int32 (to_int64 (0 + 2 ^ 30 - 1) ÷ 2 ^ 30)) with 0.
    change (to_int64 (to_uint64 (to_int64 (0 + PARTSZ - 1)) ÷ PARTSZ))
      with 0.
    change (to_uint64 0) with 0.
    unfold bind at 1. cbn [eprintf].
    unfold bind at 1. cbn [upload_parts Z.ltb Z.compare ret].
    unfold bind at 1. cbn [eprintf].
    unfold bind at 1. cbn [eprintf].
    cbn [app]. rewrite Hdoc. reflexivity. }
  intros r w2 Hput.
  split.
  - destruct (s3_put_loop_sent E key_id key_secret region bucket path
                body (Z.of_nat (String.length doc)) w1)
      as (r' & w2' & reqs & Hput' & _ & Hsent & Hall & Hne & _).
    rewrite Hput in Hput'. injection Hput' as <- <-.
    exists reqs.
    split; [exact Hsent|]. split; [exact Hall | exact Hne].
  - rewrite Hrun. split.
    + intros ->. unfold bind at 1. rewrite Hput. reflexivity.
    + intros Hr. unfold bind at 1. rewrite Hput.
      destruct (Z.eqb_spec r 0); [contradiction | reflexivity].
Qed.

End Manifest.

(** Scenario B: an image of [PARTSZ + 1] bytes. *)
Lemma uploadvolume_manifest_parts_witness :
  let E := demo_env demo_keys (PARTSZ + 1) in
  let w := fresh_world [http_ok ""; http_ok ""; http_ok ""] in
  let run := uploadvolume E 3 "disk.img" "us-west-2" "bucket" "AKIDEXAMPLE"
               "wJalrXUtnFEMI" w in
  let path := "/30313233343536373839616263646566/manifest.xml" in
  fst run <> OutOfFuel
  /\ exists (self_destruct : string) (volume_size : Z)
            (parts : list ((Z * Z) * (string * string * string)))
            (earlier : list request) (rq : request),
       sent (snd run) = (earlier ++ [rq])%list
       /\ rq_body rq
          = Mem (manifest_document "bucket" "30313233343536373839616263646566"
                   self_destruct (PARTSZ + 1) volume_size 2 parts)
       /\ aws_sign_s3_querystr E w "AKIDEXAMPLE" "wJalrXUtnFEMI" "us-west-2"
            "DELETE" "bucket" path 604800 = Some self_destruct
       /\ Forall (presigned E "AKIDEXAMPLE" "wJalrXUtnFEMI" "us-west-2"
                    "bucket" "30313233343536373839616263646566") parts
       /\ cut_into_parts (map fst parts) (PARTSZ + 1) 2.
Proof.
  intros E w run path.
  destruct (uploadvolume_manifest_parts E "disk.img" "us-west-2" "bucket"
              "AKIDEXAMPLE" "wJalrXUtnFEMI" 3 w "0123456789abcdef"
              {| im_fstat := Some (PARTSZ + 1); im_fread := fun _ _ => true |}
              (PARTSZ + 1) eq_refl eq_refl eq_refl)
    as (_ & Hfuel & Hparts); [vm_compute; split; reflexivity|].
  split; [apply Hfuel; vm_compute; lia|].
  apply (Hparts path (PARTSZ + 1) (snd run)).
  vm_compute. reflexivity.
Defined.

(** An empty image: one PUT, the manifest, and success. *)
Lemma uploadvolume_empty_image_witness :
  let E := demo_env demo_keys 0 in
  let w := fresh_world [http_ok ""] in
  exists (w2 : world) (rq : request),
    uploadvolume E 1 "disk.img" "us-west-2" "bucket" "AKIDEXAMPLE"
      "wJalrXUtnFEMI" w
    = (Ret (Some ("/30313233343536373839616263646566/manifest.xml", 0)),
       snd (eprintf (" done." ++ LF) w2))
    /\ sent w2 = [rq]
    /\ rq_body rq
       = Mem (manifest_prologue "bucket" "30313233343536373839616263646566"
                ("X-Amz-Algorithm=AWS4-HMAC-SHA256&X-Amz-Expires=604800"
                 ++ "&X-Amz-SignedHeaders=host&X-Amz-Signature=DELETE")
              ++ "<import><size>0</size><volume-size>0</volume-size>"
              ++ "<parts count=" ++ DQ ++ "0" ++ DQ ++ ">"
              ++ "</parts></import></manifest>").
Proof.
  intros E w.
  destruct (uploadvolume_empty_image E "disk.img" "us-west-2" "bucket"
              "AKIDEXAMPLE" "wJalrXUtnFEMI" 1 w "0123456789abcdef"
              {| im_fstat := Some 0; im_fread := fun _ _ => true |}
              ("X-Amz-Algorithm=AWS4-HMAC-SHA256&X-Amz-Expires=604800"
               ++ "&X-Amz-SignedHeaders=host&X-Amz-Signature=" ++ "DELETE")
              ltac:(lia) eq_refl eq_refl eq_refl eq_refl)
    as (_ & Hput).
  edestruct (Hput 0) as (_ & Hok & _); [lazy; reflexivity|].
  do 2 eexists. split; [exact (Hok eq_refl)|].
  split; lazy; reflexivity.
Defined.

(** ** The notification *)

Section Notification.

Variable E : env.

(** A reply that passes every check of [sns_publish] but the last makes it
    fail. *)
Lemma sns_publish_needs_message_id
    (key_id key_secret topicarn rv iv name region : string) (n : nat)
    (regions amis : list string) (w : world)
    (signed : string * string * string) (reply : string)
    (rest : list (option string)) (i : nat) :
  let resp := take (Z.to_nat 16384) reply in
  sns_region topicarn = Some region ->
  aws_sign_sns_headers E w key_id key_secret region
    (sns_request topicarn rv iv name n regions amis) = Some signed ->
  net w = Some reply :: rest ->
  String.length (cstr resp) = String.length resp ->
  status_200 resp = true ->
  strstr resp (CRLF ++ CRLF) = Some i ->
  strstr (drop (i + 4) resp) "<MessageId>" = None ->
  exists w',
    sns_publish E key_id key_secret topicarn rv iv name n regions amis w
    = (Ret (-1), w')
    /\ stderr w'
       = (stderr w ++ [("SNS API call failed?" ++ LF ++ drop (i + 4) resp
                       ++ LF)%string])%list.
Proof.
  intros resp Hregion Hsign Hnet Hnul H200 Hsep Hid.
  unfold sns_publish. rewrite Hregion. cbv zeta.
  unfold bind at 1. unfold observe. rewrite Hsign.
  destruct signed as [[sha date] auth].
  unfold bind at 1. unfold sslreq at 1. rewrite Hnet. fold resp.
  apply Nat.eqb_eq in Hnul. rewrite Hnul, H200. cbn [negb].
  rewrite Hsep, Hid.
  eexists. split; reflexivity.
Qed.

(** C8.  Once every stage before the notification has succeeded (so that
    [main] reaches it with the keys, the regions and their images), and
    whatever [sns_publish] then returns, [main] returns 0: the exit status
    is 0.  When [sns_publish] returns a failure, one more diagnostic is
    printed and nothing else changes.  A reply that passes the transport
    checks but has no ["<MessageId>"] in its body is such a failure. *)
Theorem sns_failure_is_not_fatal (fuel : nat) (argv : list string)
    (fl : flags) (args : list string) (w w1 w2 : world)
    (key_id key_secret : string) (regions amis : list string) (st : Z) :
  parse_flags (tl argv) no_flags = (fl, args) ->
  List.length args = 9%nat ->
  main_stages E fuel fl args w
  = (Ret (key_id, key_secret, regions, amis), w1) ->
  let topicarn := nth 6 args "" in
  let publish :=
    sns_publish E key_id key_secret topicarn (nth 7 args "") (nth 8 args "")
      (nth 1 args "") (List.length regions) regions amis in
  publish w1 = (Ret st, w2) ->
  main E fuel argv w
  = (Ret 0,
     if st =? 0 then w2
     else snd (warnp "Failed to send SNS notification" w2))
  /\ exit_status (fst (main E fuel argv w)) = Some 0
  /\ forall (region reply : string) (signed : string * string * string)
            (rest : list (option string)) (i : nat),
       let resp := take (Z.to_nat 16384) reply in
       sns_region topicarn = Some region ->
       aws_sign_sns_headers E w1 key_id key_secret region
         (sns_request topicarn (nth 7 args "") (nth 8 args "")
            (nth 1 args "") (List.length regions) regions amis)
       = Some signed ->
       net w1 = Some reply :: rest ->
       String.length (cstr resp) = String.length resp ->
       status_200 resp = true ->
       strstr resp (CRLF ++ CRLF) = Some i ->
       strstr (drop (i + 4) resp) "<MessageId>" = None ->
       st = -1.
Proof.
  intros Hflags Hlen Hstages topicarn publish Hsns.
  assert (Hmain : main E fuel argv w
                  = (Ret 0,
                     if st =? 0 then w2
                     else snd (warnp "Failed to send SNS notification" w2))).
  { unfold main. rewrite Hflags, Hlen. cbn [Nat.add Nat.eqb negb andb].
    unfold bind at 1. rewrite Hstages. unfold bind at 1.
    fold topicarn. fold publish. rewrite Hsns.
    destruct (st =? 0); reflexivity. }
  split; [exact Hmain|]. split; [now rewrite Hmain|].
  intros region reply signed rest i resp Hregion Hsign Hnet Hnul H200 Hsep Hid.
  destruct (sns_publish_needs_message_id key_id key_secret topicarn
              (nth 7 args "") (nth 8 args "") (nth 1 args "") region
              (List.length regions) regions amis w1 signed reply rest i
              Hregion Hsign Hnet Hnul H200 Hsep Hid) as (w' & Hfail & _).
  subst publish. rewrite Hfail in Hsns. now injection Hsns as <- _.
Qed.

End Notification.

(** A whole run with [--public] and a topic: every stage succeeds, the
    answer to the SNS request has no message identifier, and the run ends
    with status 0 and the diagnostic as its last word. *)
Lemma sns_failure_is_not_fatal_witness :
  let E := demo_env demo_keys 0 in
  let w := fresh_world (happy_answers (http_ok "<PublishResponse/>")) in
  exit_status (fst (main E 1 demo_argv w)) = Some 0
  /\ last (stderr (snd (main E 1 demo_argv w))) ""
     = "Failed to send SNS notification".
Proof.
  intros E w.
  edestruct (sns_failure_is_not_fatal E 1 demo_argv) with (w := w)
    as (Hmain & Hexit & _);
    [lazy; reflexivity | reflexivity | lazy; reflexivity
     | lazy; reflexivity |].
  split; [exact Hexit|].
  rewrite Hmain. lazy. reflexivity.
Defined.


(** ** The inner loops never run out of fuel *)

Lemma prefix_length (p s : string) :
  prefix p s = true -> (String.length p <= String.length s)%nat.
Proof.
  revert s; induction p as [|c p IH]; intros s H; [cbn; lia|].
  destruct s as [|d s]; [discriminate|].
  cbn in H. destruct (ascii_dec c d); [|discriminate].
  apply IH in H. cbn. lia.
Qed.

Lemma strstr_bound (s pat : string) :
  forall i : nat,
    strstr s pat = Some i ->
    (i + String.length pat <= String.length s)%nat.
Proof.
  induction s as [|c s IH]; intros i H.
  - destruct pat as [|d pat]; [|discriminate].
    injection H as <-. cbn. lia.
  - cbn [strstr] in H. destruct (prefix pat (String c s)) eqn:Hp.
    + injection H as <-. now apply prefix_length in Hp.
    + destruct (strstr s pat) as [n|]; [|discriminate].
      injection H as <-. specialize (IH n eq_refl). cbn. lia.
Qed.

Lemma drop_length (n : nat) (s : string) :
  String.length (drop n s) = (String.length s - n)%nat.
Proof.
  revert s; induction n as [|n IH]; intros s; [cbn; lia|].
  destruct s as [|c s]; [reflexivity|]. cbn. apply IH.
Qed.

(** With a start tag that is not empty, any fuel above the length of the
    string gives [xmlextracts_from] the same result: the [None] it returns
    is always the missing closing tag, never the fuel. *)
Lemma xmlextracts_from_fuel (tag stag : string) (f1 : nat) :
  (0 < String.length tag)%nat ->
  forall (f2 : nat) (s : string) (vallist : list string),
    (String.length s < f1)%nat -> (String.length s < f2)%nat ->
    xmlextracts_from f1 s tag stag vallist
    = xmlextracts_from f2 s tag stag vallist.
Proof.
  intros Htag. induction f1 as [|f1 IH]; intros f2 s vallist H1 H2; [lia|].
  destruct f2 as [|f2]; [lia|].
  cbn [xmlextracts_from].
  destruct (strstr s tag) as [i|] eqn:Hi; [|reflexivity].
  destruct (strstr (drop (i + String.length tag) s) stag) as [j|] eqn:Hj;
    [|reflexivity].
  apply strstr_bound in Hi.
  apply IH; rewrite !drop_length; lia.
Qed.

Lemma fgets_split_shorter (n : nat) :
  forall s : string,
    (String.length (snd (fgets_split n s)) <= String.length s)%nat.
Proof.
  induction n as [|n IH]; intros s; [cbn; lia|].
  destruct s as [|c s]; [cbn; lia|].
  cbn [fgets_split]. destruct (Ascii.eqb c "010"); [cbn; lia|].
  specialize (IH s). destruct (fgets_split n s) as [buf rest]. cbn in *. lia.
Qed.

Lemma fgets_split_consumes (n : nat) (c : ascii) (s : string) :
  (String.length (snd (fgets_split (S n) (String c s)))
   < String.length (String c s))%nat.
Proof.
  cbn [fgets_split]. destruct (Ascii.eqb c "010"); [cbn; lia|].
  pose proof (fgets_split_shorter n s) as Hs.
  destruct (fgets_split n s) as [b r]. cbn [snd String.length] in *. lia.
Qed.

(** Every call of [fgets] takes at least one byte off the stream. *)
Lemma fgets_consumes (ferr : bool) (s buf rest : string) :
  fgets 1024 ferr s = Some (buf, rest) ->
  (String.length rest < String.length s)%nat.
Proof.
  unfold fgets. destruct s as [|c s]; [discriminate|].
  pose proof (fgets_split_consumes 1022 c s) as Hlt.
  change (S 1022) with (1024 - 1)%nat in Hlt.
  destruct (ferr && fgets_hits_end (1024 - 1) (String c s));
    [discriminate|].
  destruct (fgets_split (1024 - 1) (String c s)) as [b r].
  intros H. injection H as <- <-. exact Hlt.
Qed.

(** Without a read error [fgets] hands out what the stream holds. *)
Lemma fgets_no_error (s : string) :
  fgets 1024 false s
  = match s with
    | EmptyString => None
    | _ => Some (fgets_split (1024 - 1) s)
    end.
Proof. reflexivity. Qed.

(** The line loop of [readkeys] ends before a fuel above the length of the
    stream is used up. *)
Lemma readkeys_lines_fuel (fname : string) (fuel : nat) :
  forall (ferr : bool) (stream : string) (key_id key_secret : option string)
         (w : world),
    (String.length stream < fuel)%nat ->
    fst (readkeys_lines fuel fname ferr stream key_id key_secret w)
    <> OutOfFuel.
Proof.
  induction fuel as [|fuel IH];
    intros ferr stream key_id key_secret w Hlen; [lia|].
  cbn [readkeys_lines].
  destruct (fgets 1024 ferr stream) as [[buf rest]|] eqn:Hgets;
    [|discriminate].
  apply fgets_consumes in Hgets.
  destruct (_ =? _)%nat; [discriminate|].
  destruct (strchr _ _) as [q|]; [|discriminate].
  destruct (_ =? "ACCESS_KEY_ID")%string.
  - destruct key_id; [discriminate | apply IH; lia].
  - destruct (_ =? "ACCESS_KEY_SECRET")%string; [|discriminate].
    destruct key_secret; [discriminate | apply IH; lia].
Qed.

(** ** Key files whose lines are all terminated *)

Lemma plain_line_cons (c : ascii) (l : string) :
  plain_line (String c l) ->
  Ascii.eqb c "013" = false /\ Ascii.eqb c "010" = false
  /\ Ascii.eqb c zero = false /\ plain_line l.
Proof.
  unfold plain_line. intros [Hlen Hs].
  change (CR ++ LF ++ String zero EmptyString)
    with (String "013"%char (String "010"%char (String zero EmptyString)))
    in *.
  cbn [strcspn mem String.length] in Hs, Hlen.
  destruct (Ascii.eqb c "013"); [discriminate|].
  destruct (Ascii.eqb c "010"); [discriminate|].
  destruct (Ascii.eqb c zero); [discriminate|].
  cbn [orb] in Hs. injection Hs as Hs.
  repeat split; [lia | exact Hs].
Qed.

Lemma fgets_line (l rest : string) :
  forall n : nat,
    plain_line l -> (String.length l < n)%nat ->
    fgets_split n (l ++ LF ++ rest) = (l ++ LF, rest).
Proof.
  induction l as [|c l IH]; intros n Hl Hn.
  - destruct n as [|n]; [cbn in Hn; lia | reflexivity].
  - destruct n as [|n]; [cbn in Hn; lia|].
    apply plain_line_cons in Hl. destruct Hl as (_ & Hlf & _ & Hl).
    cbn [append fgets_split]. rewrite Hlf.
    change (l ++ String "010" rest) with (l ++ LF ++ rest).
    rewrite IH by (cbn in Hn; auto; lia). reflexivity.
Qed.

Lemma cstr_line (l : string) : plain_line l -> cstr (l ++ LF) = l ++ LF.
Proof.
  induction l as [|c l IH]; intros Hl; [reflexivity|].
  apply plain_line_cons in Hl. destruct Hl as (_ & _ & Hz & Hl).
  cbn [append cstr]. now rewrite Hz, IH.
Qed.

Lemma strcspn_line (l : string) :
  plain_line l -> strcspn (l ++ LF) (CR ++ LF) = String.length l.
Proof.
  change (CR ++ LF) with (String "013"%char (String "010"%char EmptyString)).
  induction l as [|c l IH]; intros Hl; [reflexivity|].
  apply plain_line_cons in Hl. destruct Hl as (Hcr & Hlf & _ & Hl).
  cbn [append strcspn mem String.length]. rewrite Hcr, Hlf. cbn [orb].
  now rewrite IH.
Qed.

Lemma prefix_split (p s : string) :
  prefix p s = true -> s = p ++ drop (String.length p) s.
Proof.
  revert s; induction p as [|c p IH]; intros s H; [now destruct s|].
  destruct s as [|d s]; [discriminate|].
  cbn in H. destruct (ascii_dec c d) as [<- |]; [|discriminate].
  cbn. f_equal. now apply IH.
Qed.

Lemma prefix_append (p s : string) : prefix p (p ++ s) = true.
Proof.
  induction p as [|c p IH]; [now destruct s|].
  cbn. destruct (ascii_dec c c); [exact IH | contradiction].
Qed.

Lemma strchr_split (l : string) (c : ascii) :
  forall q : nat,
    strchr l c = Some q -> l = take q l ++ String c (drop (S q) l).
Proof.
  induction l as [|d l IH]; intros q H; [discriminate|].
  cbn [strchr] in H. destruct (Ascii.eqb_spec d c) as [-> | Hne].
  - injection H as <-. reflexivity.
  - destruct (strchr l c) as [n|]; [|discriminate].
    injection H as <-. cbn. f_equal. now apply IH.
Qed.

(** How the loop of [readkeys] reads a line, against the two forms. *)
Lemma readkeys_line_forms (l : string) :
  match strchr l "="%char with
  | None =>
      key_value "ACCESS_KEY_ID" l = None
      /\ key_value "ACCESS_KEY_SECRET" l = None
  | Some q =>
      if (take q l =? "ACCESS_KEY_ID")%string then
        key_value "ACCESS_KEY_ID" l = Some (drop (S q) l)
        /\ key_value "ACCESS_KEY_SECRET" l = None
      else if (take q l =? "ACCESS_KEY_SECRET")%string then
        key_value "ACCESS_KEY_ID" l = None
        /\ key_value "ACCESS_KEY_SECRET" l = Some (drop (S q) l)
      else
        key_value "ACCESS_KEY_ID" l = None
        /\ key_value "ACCESS_KEY_SECRET" l = None
  end.
Proof.
  unfold key_value.
  destruct (prefix ("ACCESS_KEY_ID" ++ "=") l) eqn:Hid.
  { apply prefix_split in Hid. rewrite Hid. cbn. split; reflexivity. }
  destruct (prefix ("ACCESS_KEY_SECRET" ++ "=") l) eqn:Hsec.
  { apply prefix_split in Hsec. rewrite Hsec. cbn. split; reflexivity. }
  destruct (strchr l "=") as [q|] eqn:Hq; [|split; reflexivity].
  apply strchr_split in Hq.
  destruct (String.eqb_spec (take q l) "ACCESS_KEY_ID") as [Hn | _].
  { rewrite Hn in Hq. rewrite Hq in Hid.
    change ("ACCESS_KEY_ID" ++ String "=" (drop (S q) l))
      with (("ACCESS_KEY_ID" ++ "=") ++ drop (S q) l) in Hid.
    rewrite prefix_append in Hid. discriminate. }
  destruct (String.eqb_spec (take q l) "ACCESS_KEY_SECRET") as [Hn | _].
  { rewrite Hn in Hq. rewrite Hq in Hsec.
    change ("ACCESS_KEY_SECRET" ++ String "=" (drop (S q) l))
      with (("ACCESS_KEY_SECRET" ++ "=") ++ drop (S q) l) in Hsec.
    rewrite prefix_append in Hsec. discriminate. }
  split; reflexivity.
Qed.

Lemma one_key_later (v : string) (vs : list string) :
  one_key None (v :: vs) = one_key (Some v) vs.
Proof. now destruct vs. Qed.

Lemma one_key_twice (x v : string) (vs : list string) :
  one_key (Some x) (v :: vs) = None.
Proof. reflexivity. Qed.

(** On lines that are all terminated the loop of [readkeys] reads every
    line, and it ends well exactly when every line has one of the two forms
    and no key comes twice. *)
Lemma readkeys_lines_terminated (fname : string) (lines : list string) :
  forall (fuel : nat) (key_id key_secret : option string) (w : world),
    Forall plain_line lines ->
    (String.length (unlines lines) < fuel)%nat ->
    fst (readkeys_lines fuel fname false (unlines lines) key_id key_secret w)
    = Ret (if forallb is_key_line lines then
             match one_key key_id (values_of "ACCESS_KEY_ID" lines),
                   one_key key_secret (values_of "ACCESS_KEY_SECRET" lines)
             with
             | Some id, Some secret => Some (id, secret, false)
             | _, _ => None
             end
           else None).
Proof.
  induction lines as [|l ls IH]; intros fuel key_id key_secret w Hplain Hfuel.
  - destruct fuel as [|fuel]; [cbn in Hfuel; lia|].
    cbn. now destruct key_id, key_secret.
  - destruct fuel as [|fuel]; [lia|].
    apply Forall_cons_iff in Hplain. destruct Hplain as [Hl Hls].
    cbn [unlines] in *. rewrite !length_append in Hfuel. cbn in Hfuel.
    cbn [readkeys_lines].
    assert (Hgets : fgets 1024 false (l ++ LF ++ unlines ls)
                    = Some (l ++ LF, unlines ls)).
    { unfold fgets. cbn [andb].
      rewrite fgets_line by (try exact Hl; destruct Hl as [Hlen _];
                             change (1024 - 1)%nat with 1023%nat; exact Hlen).
      now destruct l. }
    rewrite Hgets. cbv zeta.
    rewrite (cstr_line l Hl), (strcspn_line l Hl), length_append.
    replace (String.length l =? String.length l + String.length LF)%nat
      with false by (symmetry; apply Nat.eqb_neq; cbn; lia).
    rewrite take_append.
    pose proof (readkeys_line_forms l) as Hforms.
    cbn [forallb values_of]. unfold is_key_line.
    destruct (strchr l "=") as [q|].
    + destruct (take q l =? "ACCESS_KEY_ID")%string.
      * destruct Hforms as [-> ->].
        destruct key_id as [x|].
        -- rewrite one_key_twice. cbn. now destruct (forallb _ ls).
        -- rewrite one_key_later. cbn [andb].
           apply IH; [exact Hls | lia].
      * destruct (take q l =? "ACCESS_KEY_SECRET")%string.
        -- destruct Hforms as [-> ->].
           destruct key_secret as [x|].
           ++ rewrite one_key_twice. cbn.
              destruct (forallb _ ls); [|reflexivity].
              now destruct (one_key key_id _).
           ++ rewrite one_key_later. cbn [andb].
              apply IH; [exact Hls | lia].
        -- destruct Hforms as [-> ->]. reflexivity.
    + destruct Hforms as [-> ->]. reflexivity.
Qed.

(** C4, as the code has it.  For a key file in which every line ends in a
    newline, is shorter than 1023 bytes and holds no CR or NUL byte, and
    which opens, reads and closes without error, [readkeys] returns the two
    keys when every line has one of the two forms and each key appears
    exactly once, and it fails for every other such file.  (A line without
    its terminator is outside this statement.) *)
Theorem readkeys_terminated_lines (E : env) (fname : string) (f : key_file)
    (lines : list string) (w : world) :
  open_keyfile E fname = Some f ->
  kf_bytes f = unlines lines ->
  Forall plain_line lines ->
  kf_ferror f = false ->
  kf_fclose_fails f = false ->
  fst (readkeys E fname w) = Ret (keys_of lines).
Proof.
  intros Hopen Hbytes Hplain Herr Hclose.
  unfold readkeys. rewrite Hopen, Hbytes, Herr. unfold bind at 1.
  pose proof (readkeys_lines_terminated fname lines
                (S (String.length (unlines lines))) None None w Hplain
                ltac:(lia)) as Hlines.
  destruct (readkeys_lines _ fname false (unlines lines) None None w)
    as [r w'].
  cbn [fst] in Hlines. subst r. unfold keys_of.
  destruct (forallb is_key_line lines); [|reflexivity].
  rewrite Hclose.
  destruct (values_of "ACCESS_KEY_ID" lines) as [|id [|id' ids]];
    destruct (values_of "ACCESS_KEY_SECRET" lines) as [|sec [|sec' secs]];
    reflexivity.
Qed.

(** The two keys, one per line, in either order. *)
Lemma readkeys_terminated_lines_witness :
  let lines := ["ACCESS_KEY_SECRET=wJalrXUtnFEMI";
                "ACCESS_KEY_ID=AKIDEXAMPLE"] in
  fst (readkeys (demo_env (unlines lines) 0) "aws.keys" (fresh_world []))
  = Ret (Some ("AKIDEXAMPLE", "wJalrXUtnFEMI")).
Proof.
  intros lines.
  apply (readkeys_terminated_lines (demo_env (unlines lines) 0) "aws.keys"
           {| kf_bytes := unlines lines; kf_ferror := false;
              kf_fclose_fails := false |} lines (fresh_world []));
    try reflexivity.
  repeat constructor; cbn; lia.
Defined.

(** C4 as stated fails: every line of this key file ends in a newline and
    has one of the two forms, and each key appears once; but the first
    line is longer than the 1024-byte buffer that [readkeys] reads lines
    into, so its beginning is taken for a line without EOL and [readkeys]
    fails. *)
Lemma readkeys_rejects_long_line :
  let value := string_of_list_ascii (repeat "A"%char 1100) in
  let lines := [("ACCESS_KEY_ID=" ++ value)%string;
                "ACCESS_KEY_SECRET=wJalrXUtnFEMI"] in
  keys_of lines = Some (value, "wJalrXUtnFEMI")
  /\ fst (readkeys (demo_env (unlines lines) 0) "aws.keys" (fresh_world []))
     = Ret None.
Proof. vm_compute. split; reflexivity. Qed.

(** ** Key files with a line that is not terminated *)

(** The last line of this key file has no newline (and names a key a second
    time); [readkeys] warns about it, stops reading, and returns success
    with the two keys it has read. *)
Lemma readkeys_accepts_unterminated_line :
  let keys := "ACCESS_KEY_ID=AKIDEXAMPLE" ++ LF
              ++ "ACCESS_KEY_SECRET=wJalrXUtnFEMI" ++ LF
              ++ "ACCESS_KEY_ID=other" in
  readkeys (demo_env keys 0) "aws.keys" (fresh_world [])
  = (Ret (Some ("AKIDEXAMPLE", "wJalrXUtnFEMI")),
     snd (warn0 "Missing EOL in aws.keys" (fresh_world []))).
Proof. vm_compute. reflexivity. Qed.


(** What [fgets] reads of bytes that hold no end-of-line character holds
    none either, so [readkeys] takes it for a line without its EOL. *)
Lemma fgets_split_no_eol (n : nat) :
  forall s : string,
    strcspn s (CR ++ LF) = String.length s ->
    let buf := cstr (fst (fgets_split n s)) in
    strcspn buf (CR ++ LF) = String.length buf.
Proof.
  change (CR ++ LF) with (String "013"%char (String "010"%char EmptyString)).
  induction n as [|n IH]; intros s Hs; [reflexivity|].
  destruct s as [|c s]; [reflexivity|].
  cbn [fgets_split]. cbn [strcspn mem] in Hs.
  destruct (Ascii.eqb c "013") eqn:Hcr; [discriminate|].
  destruct (Ascii.eqb c "010") eqn:Hlf; [discriminate|].
  cbn [orb] in Hs. injection Hs as Hs.
  specialize (IH s Hs). cbv zeta in IH.
  destruct (fgets_split n s) as [buf rest]. cbn [fst] in *.
  cbn [cstr]. destruct (Ascii.eqb c zero); [reflexivity|].
  cbn [strcspn mem String.length]. rewrite Hcr, Hlf.
  cbn [orb]. now rewrite IH.
Qed.

(** Whatever follows the two keys without any end-of-line character, in a
    file that ends without a read error, is dropped with a warning, and
    [readkeys] succeeds. *)
Lemma readkeys_drops_unterminated_tail (E : env) (fname tail : string)
    (f : key_file) (w : world) :
  open_keyfile E fname = Some f ->
  kf_bytes f = demo_keys ++ tail ->
  tail <> "" ->
  strcspn tail (CR ++ LF) = String.length tail ->
  kf_ferror f = false ->
  kf_fclose_fails f = false ->
  readkeys E fname w
  = (Ret (Some ("AKIDEXAMPLE", "wJalrXUtnFEMI")),
     snd (warn0 ("Missing EOL in " ++ fname) w)).
Proof.
  intros Hopen Hbytes Htail Heol Herr Hclose.
  unfold readkeys. rewrite Hopen, Hbytes, Herr.
  unfold bind at 1.
  assert (Hlines :
            readkeys_lines
              (S (String.length (demo_keys ++ tail))) fname false
              (demo_keys ++ tail) None None w
            = (Ret (Some (Some "AKIDEXAMPLE", Some "wJalrXUtnFEMI", false)),
               snd (warn0 ("Missing EOL in " ++ fname) w))).
  { rewrite length_append.
    change (String.length demo_keys) with 58%nat.
    cbn [Nat.add]. cbn [readkeys_lines].
    change (fgets 1024 false (demo_keys ++ tail))
      with (Some ("ACCESS_KEY_ID=AKIDEXAMPLE" ++ LF,
                  "ACCESS_KEY_SECRET=wJalrXUtnFEMI" ++ LF ++ tail)).
    cbv beta iota.
    change (cstr ("ACCESS_KEY_ID=AKIDEXAMPLE" ++ LF))
      with ("ACCESS_KEY_ID=AKIDEXAMPLE" ++ LF).
    change (strcspn ("ACCESS_KEY_ID=AKIDEXAMPLE" ++ LF) (CR ++ LF))
      with 25%nat.
    cbv zeta.
    change ((25 =? String.length ("ACCESS_KEY_ID=AKIDEXAMPLE" ++ LF))%nat)
      with false.
    cbv iota.
    change (take 25 ("ACCESS_KEY_ID=AKIDEXAMPLE" ++ LF))
      with "ACCESS_KEY_ID=AKIDEXAMPLE".
    change (strchr "ACCESS_KEY_ID=AKIDEXAMPLE" "=") with (Some 13%nat).
    cbv iota beta.
    change (take 13 "ACCESS_KEY_ID=AKIDEXAMPLE") with "ACCESS_KEY_ID".
    change ("ACCESS_KEY_ID" =? "ACCESS_KEY_ID")%string with true.
    cbv iota.
    change (drop 14 "ACCESS_KEY_ID=AKIDEXAMPLE") with "AKIDEXAMPLE".
    change (fgets 1024 false ("ACCESS_KEY_SECRET=wJalrXUtnFEMI" ++ LF ++ tail))
      with (Some ("ACCESS_KEY_SECRET=wJalrXUtnFEMI" ++ LF, tail)).
    cbv beta iota.
    change (cstr ("ACCESS_KEY_SECRET=wJalrXUtnFEMI" ++ LF))
      with ("ACCESS_KEY_SECRET=wJalrXUtnFEMI" ++ LF).
    change (strcspn ("ACCESS_KEY_SECRET=wJalrXUtnFEMI" ++ LF) (CR ++ LF))
      with 31%nat.
    cbv zeta.
    change ((31 =? String.length ("ACCESS_KEY_SECRET=wJalrXUtnFEMI" ++ LF))%nat)
      with false.
    cbv iota.
    change (take 31 ("ACCESS_KEY_SECRET=wJalrXUtnFEMI" ++ LF))
      with "ACCESS_KEY_SECRET=wJalrXUtnFEMI".
    change (strchr "ACCESS_KEY_SECRET=wJalrXUtnFEMI" "=") with (Some 17%nat).
    cbv iota beta.
    change (take 17 "ACCESS_KEY_SECRET=wJalrXUtnFEMI")
      with "ACCESS_KEY_SECRET".
    change ("ACCESS_KEY_SECRET" =? "ACCESS_KEY_ID")%string with false.
    change ("ACCESS_KEY_SECRET" =? "ACCESS_KEY_SECRET")%string with true.
    cbv iota.
    change (drop 18 "ACCESS_KEY_SECRET=wJalrXUtnFEMI") with "wJalrXUtnFEMI".
    destruct tail as [|c tail']; [contradiction|].
    unfold fgets. cbn [andb].
    pose proof (fgets_split_no_eol (1024 - 1) (String c tail') Heol) as Hno.
    cbv zeta in Hno.
    destruct (fgets_split (1024 - 1) (String c tail')) as [buf rest].
    cbn [fst] in Hno. cbv beta iota zeta.
    rewrite Hno, Nat.eqb_refl. reflexivity. }
  rewrite Hlines. cbv iota. rewrite Hclose. reflexivity.
Qed.


(** ** More on strings *)

Lemma prefix_nil (s : string) : prefix "" s = true.
Proof. now destruct s. Qed.

Lemma prefix_app_long (p : string) :
  forall x r : string,
    (String.length p <= String.length x)%nat ->
    prefix p (x ++ r) = prefix p x.
Proof.
  induction p as [|c p IH]; intros x r Hlen; [now rewrite !prefix_nil|].
  destruct x as [|d x]; [cbn in Hlen; lia|].
  cbn. destruct (ascii_dec c d); [|reflexivity].
  apply IH. cbn in Hlen. lia.
Qed.

Lemma prefix_take (p : string) :
  forall (n : nat) (s : string),
    prefix p (take n s) = true -> prefix p s = true.
Proof.
  induction p as [|c p IH]; intros n s H; [apply prefix_nil|].
  destruct n as [|n], s as [|d s]; try discriminate.
  cbn in *. destruct (ascii_dec c d); [|discriminate].
  now apply IH with n.
Qed.

(** [strstr] finds an occurrence, and the first one. *)
Lemma strstr_occurs (pat s : string) :
  forall i : nat, strstr s pat = Some i -> prefix pat (drop i s) = true.
Proof.
  induction s as [|c s IH]; intros i H.
  - destruct pat; [|discriminate]. now injection H as <-.
  - cbn [strstr] in H. destruct (prefix pat (String c s)) eqn:Hp.
    + injection H as <-. exact Hp.
    + destruct (strstr s pat) as [n|]; [|discriminate].
      injection H as <-. now apply IH.
Qed.

Lemma strstr_first (pat s : string) :
  forall i j : nat,
    strstr s pat = Some i -> (j < i)%nat -> prefix pat (drop j s) = false.
Proof.
  induction s as [|c s IH]; intros i j H Hj.
  - destruct pat; [|discriminate]. injection H as <-. lia.
  - cbn [strstr] in H. destruct (prefix pat (String c s)) eqn:Hp.
    + injection H as <-. lia.
    + destruct (strstr s pat) as [n|]; [|discriminate].
      injection H as <-. destruct j as [|j]; [exact Hp|].
      apply IH with n; [reflexivity | lia].
Qed.

Lemma strstr_none (pat s : string) :
  strstr s pat = None -> forall j : nat, prefix pat (drop j s) = false.
Proof.
  induction s as [|c s IH]; intros H j.
  - destruct pat; [discriminate|]. now destruct j.
  - cbn [strstr] in H. destruct (prefix pat (String c s)) eqn:Hp;
      [discriminate|].
    destruct (strstr s pat) as [n|]; [discriminate|].
    destruct j as [|j]; [exact Hp | now apply IH].
Qed.

Lemma strstr_intro (pat s : string) :
  forall i : nat,
    prefix pat (drop i s) = true ->
    (i <= String.length s)%nat ->
    (forall j, (j < i)%nat -> prefix pat (drop j s) = false) ->
    strstr s pat = Some i.
Proof.
  induction s as [|c s IH]; intros i Hp Hi Hfirst.
  - cbn in Hi. assert (i = O) by lia. subst i.
    destruct pat; [reflexivity | discriminate].
  - cbn [strstr]. destruct i as [|i].
    + cbn [drop] in Hp. now rewrite Hp.
    + pose proof (Hfirst O ltac:(lia)) as H0. cbn [drop] in H0. rewrite H0.
      rewrite (IH i); [reflexivity | exact Hp | cbn in Hi; lia |].
      intros j Hj. apply (Hfirst (S j)). lia.
Qed.

(** An occurrence anywhere makes the search succeed. *)
Lemma strstr_found (pat s : string) :
  forall i : nat,
    prefix pat (drop i s) = true -> (i <= String.length s)%nat ->
    exists j, strstr s pat = Some j /\ (j <= i)%nat.
Proof.
  induction s as [|c s IH]; intros i Hp Hi.
  - cbn in Hi. assert (i = O) by lia. subst i.
    destruct pat; [now exists O | discriminate].
  - cbn [strstr]. destruct (prefix pat (String c s)) eqn:Hp0.
    + exists O. split; [reflexivity | lia].
    + destruct i as [|i]; [cbn [drop] in Hp; congruence|].
      destruct (IH i Hp ltac:(cbn in Hi; lia)) as (j & -> & Hj).
      exists (S j). split; [reflexivity | lia].
Qed.

Lemma drop_app_length (a b : string) (n : nat) :
  drop (String.length a + n) (a ++ b) = drop n b.
Proof. induction a as [|c a IH]; [reflexivity | exact IH]. Qed.

Lemma drop_app_short (a : string) :
  forall (n : nat) (b : string),
    (n <= String.length a)%nat -> drop n (a ++ b) = drop n a ++ b.
Proof.
  induction a as [|c a IH]; intros n b Hn.
  - cbn in Hn. assert (n = O) by lia. now subst n.
  - destruct n as [|n]; [reflexivity|]. cbn. apply IH. cbn in Hn. lia.
Qed.

Lemma drop_drop (n m : nat) :
  forall s : string, drop n (drop m s) = drop (m + n) s.
Proof.
  induction m as [|m IH]; intros s; [reflexivity|].
  destruct s as [|c s]; [now destruct n|]. cbn. apply IH.
Qed.

Lemma take_drop (n : nat) :
  forall s : string, take n s ++ drop n s = s.
Proof.
  induction n as [|n IH]; intros s; [reflexivity|].
  destruct s as [|c s]; [reflexivity|]. cbn. now rewrite IH.
Qed.

Lemma take_length (n : nat) :
  forall s : string,
    (n <= String.length s)%nat -> String.length (take n s) = n.
Proof.
  induction n as [|n IH]; intros s Hn; [reflexivity|].
  destruct s as [|c s]; [cbn in Hn; lia|]. cbn. rewrite IH; [reflexivity|].
  cbn in Hn. lia.
Qed.

Lemma take_all (n : nat) :
  forall s : string, (String.length s <= n)%nat -> take n s = s.
Proof.
  induction n as [|n IH]; intros s Hn.
  - destruct s; [reflexivity | cbn in Hn; lia].
  - destruct s as [|c s]; [reflexivity|]. cbn. rewrite IH; [reflexivity|].
    cbn in Hn. lia.
Qed.

(** When the first [pat] of [a ++ pat] is the one at its end, it is also
    the first one of [a ++ pat ++ rest]. *)
Lemma strstr_app_found (pat a rest : string) :
  strstr (a ++ pat) pat = Some (String.length a) ->
  strstr (a ++ pat ++ rest) pat = Some (String.length a).
Proof.
  intros H. apply strstr_intro.
  - replace (String.length a) with (String.length a + 0)%nat by lia.
    rewrite drop_app_length. apply prefix_append.
  - rewrite length_append. lia.
  - intros j Hj. pose proof (strstr_first _ _ _ j H Hj) as Hf.
    rewrite <- append_assoc, drop_app_short
      by (rewrite length_append; lia).
    rewrite prefix_app_long; [exact Hf|].
    rewrite drop_length, length_append. lia.
Qed.

(** ** [encodeamp] loses nothing *)

Lemma encodeamp_app (a b : string) :
  encodeamp (a ++ b) = encodeamp a ++ encodeamp b.
Proof.
  induction a as [|c a IH]; [reflexivity|].
  cbn [append encodeamp]. rewrite IH.
  destruct (Ascii.eqb c amp); reflexivity.
Qed.

Lemma encodeamp_injective_aux (s : string) :
  forall t : string, encodeamp s = encodeamp t -> s = t.
Proof.
  induction s as [|c s IH]; intros t H.
  - destruct t as [|d t]; [reflexivity|].
    cbn in H. destruct (Ascii.eqb d amp); discriminate.
  - destruct t as [|d t].
    + cbn in H. destruct (Ascii.eqb c amp); discriminate.
    + cbn [encodeamp] in H.
      destruct (Ascii.eqb c amp) eqn:Hc, (Ascii.eqb d amp) eqn:Hd.
      * apply Ascii.eqb_eq in Hc, Hd. subst c d.
        cbn in H. injection H as H. f_equal. now apply IH.
      * cbn in H. injection H as H _. subst d. discriminate.
      * cbn in H. injection H as H _. subst c. discriminate.
      * injection H as -> H. f_equal. now apply IH.
Qed.

(** X1.  What [encodeamp] returns determines its argument: two strings with
    the same escaped form are the same string.  An escaped form is never
    shorter than the string, and it is the string itself exactly when the
    string holds no ['&']. *)
Theorem encodeamp_injective (s t : string) :
  (encodeamp s = encodeamp t -> s = t)
  /\ (String.length s <= String.length (encodeamp s))%nat
  /\ (encodeamp s = s <-> count_amp s = O).
Proof.
  split; [apply encodeamp_injective_aux|].
  split; [rewrite encodeamp_length; lia|].
  split.
  - intros H. apply (f_equal String.length) in H.
    rewrite encodeamp_length in H. lia.
  - induction s as [|c s IH]; [reflexivity|].
    cbn. destruct (Ascii.eqb c amp); [discriminate|].
    cbn. intros H. now rewrite IH.
Qed.

(** ** The status check *)

(** A pattern none of whose bytes is in [reject] is found at the start of a
    string only inside the part that [strcspn] measures. *)
Lemma prefix_strcspn (reject pat : string) :
  forall s : string,
    (forall c, mem c pat = true -> mem c reject = false) ->
    prefix pat s = true ->
    prefix pat (take (strcspn s reject) s) = true.
Proof.
  induction pat as [|c pat IH]; intros s Hdis Hp.
  - apply prefix_nil.
  - destruct s as [|d s]; [discriminate|].
    cbn in Hp. destruct (ascii_dec c d) as [<-|]; [|discriminate].
    cbn [strcspn]. rewrite (Hdis c) by (cbn; now rewrite Ascii.eqb_refl).
    cbn. destruct (ascii_dec c c); [|contradiction].
    apply IH; [|exact Hp].
    intros x Hx. apply Hdis. cbn. rewrite Hx. apply orb_true_r.
Qed.

Lemma status_check (reject pat : string) (p0 : ascii) (pat' : string) :
  pat = String p0 pat' ->
  (forall c, mem c pat = true -> mem c reject = false) ->
  forall s : string,
    match strstr s pat with
    | None => false
    | Some i => (i <=? strcspn s reject)%nat
    end
    = contains (take (strcspn s reject) s) pat.
Proof.
  intros Hpat Hdis. unfold contains.
  induction s as [|c s IH].
  - cbn. now rewrite Hpat.
  - cbn [strstr strcspn].
    destruct (mem c reject) eqn:Hc; cbv iota.
    + assert (Hp : prefix pat (String c s) = false).
      { rewrite Hpat. cbn. destruct (ascii_dec p0 c) as [<-|]; [|reflexivity].
        rewrite (Hdis p0) in Hc; [discriminate|].
        rewrite Hpat. cbn. now rewrite Ascii.eqb_refl. }
      rewrite Hp. cbn [take strstr]. rewrite Hpat. cbn.
      now destruct (strstr s (String p0 pat')).
    + cbn [take strstr].
      destruct (prefix pat (String c s)) eqn:Hp.
      * apply (prefix_strcspn reject) in Hp; [|exact Hdis].
        cbn [strcspn] in Hp. rewrite Hc in Hp. cbn [take] in Hp.
        now rewrite Hp.
      * destruct (prefix pat (String c (take (strcspn s reject) s))) eqn:Hq.
        { apply (prefix_take pat (S (strcspn s reject)) (String c s)) in Hq.
          congruence. }
        destruct (strstr s pat) as [n|];
          destruct (strstr (take (strcspn s reject) s) pat);
          cbn in IH |- *; congruence.
Qed.

Lemma status_pattern_plain (c : ascii) :
  mem c " 200 " = true -> mem c (CR ++ LF) = false.
Proof.
  cbn [mem].
  repeat match goal with
         | |- context [Ascii.eqb c ?d] =>
             destruct (Ascii.eqb_spec c d) as [-> | _];
             [intros _; reflexivity|]
         end.
  discriminate.
Qed.

(** X2.  The status check shared by [s3_put], [ec2_apicall] and [sns_publish]
    accepts a response exactly when [" 200 "] occurs in its first line: where
    in that line does not matter, and what follows the line is not looked at. *)
Theorem status_200_first_line (resp : string) :
  status_200 resp = contains (first_line resp) " 200 ".
Proof.
  unfold status_200, first_line.
  apply (status_check (CR ++ LF) " 200 " " "%char "200 " eq_refl).
  exact status_pattern_plain.
Qed.


(** ** [xmlextracts] on a document *)

Lemma clear_of_found (s pat rest : string) :
  clear_of s pat = true ->
  strstr (s ++ pat ++ rest) pat = Some (String.length s).
Proof.
  unfold clear_of. intros H. apply strstr_app_found.
  destruct (strstr (s ++ pat) pat) as [i|]; [|discriminate].
  apply Nat.eqb_eq in H. now subst i.
Qed.

(** The values found so far are only carried along. *)
Lemma xmlextracts_from_acc (tag stag : string) (fuel : nat) :
  forall (s : string) (acc : list string),
    xmlextracts_from fuel s tag stag acc
    = option_map (app acc) (xmlextracts_from fuel s tag stag []).
Proof.
  induction fuel as [|fuel IH]; intros s acc; [reflexivity|].
  cbn [xmlextracts_from].
  destruct (strstr s tag) as [i|]; [|cbn; now rewrite app_nil_r].
  destruct (strstr (drop (i + String.length tag) s) stag) as [j|];
    [|reflexivity].
  rewrite IH. rewrite (IH _ ([] ++ _)%list).
  destruct (xmlextracts_from fuel _ tag stag []) as [vs|]; [|reflexivity].
  cbn. now rewrite <- app_assoc.
Qed.

(** One complete element at the head of the string: its value is taken and
    the search goes on after its closing tag. *)
Lemma xmlextracts_from_element (tagname text value rest : string)
    (fuel : nat) (acc : list string) :
  clear_of text ("<" ++ tagname ++ ">") = true ->
  clear_of value ("</" ++ tagname ++ ">") = true ->
  xmlextracts_from (S fuel) (text ++ element tagname value ++ rest)
    ("<" ++ tagname ++ ">") ("</" ++ tagname ++ ">") acc
  = xmlextracts_from fuel rest ("<" ++ tagname ++ ">")
      ("</" ++ tagname ++ ">") (acc ++ [value]).
Proof.
  intros Htext Hvalue. unfold element.
  set (tag := "<" ++ tagname ++ ">") in *.
  set (stag := "</" ++ tagname ++ ">") in *.
  cbn [xmlextracts_from].
  rewrite !append_assoc.
  rewrite (clear_of_found text tag _ Htext).
  replace (drop (String.length text + String.length tag)
             (text ++ tag ++ value ++ stag ++ rest))
    with (value ++ stag ++ rest)
    by (rewrite drop_app_length; symmetry; apply drop_append).
  rewrite (clear_of_found value stag _ Hvalue).
  rewrite take_append.
  rewrite drop_app_length. now rewrite drop_append.
Qed.

Lemma xmlextracts_from_elements (tagname : string)
    (items : list (string * string)) (trailer : string) :
  separable tagname items = true ->
  forall (f1 f2 : nat) (acc : list string),
    (String.length (elements tagname items trailer) < f1)%nat ->
    (String.length trailer < f2)%nat ->
    xmlextracts_from f1 (elements tagname items trailer)
      ("<" ++ tagname ++ ">") ("</" ++ tagname ++ ">") acc
    = xmlextracts_from f2 trailer ("<" ++ tagname ++ ">")
        ("</" ++ tagname ++ ">") (acc ++ map snd items).
Proof.
  induction items as [|[text value] items IH]; intros Hsep f1 f2 acc H1 H2.
  - cbn [elements map] in *. rewrite app_nil_r.
    apply xmlextracts_from_fuel; [apply Nat.lt_0_succ | exact H1 | exact H2].
  - cbn [separable forallb fst snd] in Hsep.
    apply andb_prop in Hsep as [Hit Hsep].
    apply andb_prop in Hit as [Htext Hvalue].
    cbn [elements map snd] in *.
    destruct f1 as [|f1]; [lia|].
    rewrite xmlextracts_from_element by assumption.
    rewrite (IH Hsep f1 f2); [now rewrite <- app_assoc | | exact H2].
    unfold element in H1. rewrite !length_append in H1.
    cbn [String.length] in H1. lia.
Qed.

Lemma xmlextracts_elements_eq (tagname : string)
    (items : list (string * string)) (trailer : string) :
  separable tagname items = true ->
  xmlextracts (elements tagname items trailer) tagname
  = option_map (app (map snd items)) (xmlextracts trailer tagname).
Proof.
  intros Hsep. unfold xmlextracts.
  rewrite (xmlextracts_from_elements _ _ _ Hsep _
             (S (String.length trailer))) by lia.
  apply xmlextracts_from_acc.
Qed.

(** X3.  [xmlextracts] takes a document apart element by element: for a
    document that starts with complete elements of the name asked for, the
    result is their values, in order, followed by what the rest of the
    document gives, and it is -1 when the rest gives -1.  When the rest holds
    no opening tag the values are the whole result, and [xmlextract] returns
    the first of them, or [NULL] when there is none. *)
Theorem xmlextracts_elements (tagname : string)
    (items : list (string * string)) (trailer : string) :
  separable tagname items = true ->
  xmlextracts (elements tagname items trailer) tagname
  = option_map (app (map snd items)) (xmlextracts trailer tagname)
  /\ (contains trailer ("<" ++ tagname ++ ">") = false ->
      xmlextracts (elements tagname items trailer) tagname
      = Some (map snd items)
      /\ xmlextract (elements tagname items trailer) tagname
         = hd_error (map snd items)).
Proof.
  intros Hsep. split; [now apply xmlextracts_elements_eq|].
  intros Htr.
  assert (Hx : xmlextracts (elements tagname items trailer) tagname
               = Some (map snd items)).
  { rewrite (xmlextracts_elements_eq _ _ _ Hsep).
    unfold xmlextracts, contains in *. cbn [xmlextracts_from].
    destruct (strstr trailer ("<" ++ tagname ++ ">")); [discriminate|].
    cbn. now rewrite app_nil_r. }
  split; [exact Hx|].
  unfold xmlextract. rewrite Hx. now destruct (map snd items).
Qed.

(** A DescribeRegions body. *)
Lemma xmlextracts_elements_witness :
  let items := [("<item>", "us-west-2"); ("</item><item>", "eu-west-1")] in
  xmlextracts (elements "regionName" items "</item>") "regionName"
  = Some ["us-west-2"; "eu-west-1"]
  /\ xmlextract (elements "regionName" items "</item>") "regionName"
     = Some "us-west-2".
Proof.
  intros items.
  destruct (xmlextracts_elements "regionName" items "</item>")
    as [_ Hrt]; [vm_compute; reflexivity|].
  apply Hrt. vm_compute. reflexivity.
Defined.

(** X4.  An opening tag that no closing tag follows makes [xmlextracts] return
    -1 and [xmlextract] return [NULL], whatever complete elements come before
    it: their values are dropped. *)
Theorem xmlextracts_unclosed (tagname : string)
    (items : list (string * string)) (text junk : string) :
  separable tagname items = true ->
  clear_of text ("<" ++ tagname ++ ">") = true ->
  contains junk ("</" ++ tagname ++ ">") = false ->
  let doc := elements tagname items (text ++ "<" ++ tagname ++ ">" ++ junk) in
  xmlextracts doc tagname = None /\ xmlextract doc tagname = None.
Proof.
  intros Hsep Htext Hjunk doc.
  assert (Hx : xmlextracts doc tagname = None).
  { unfold doc. rewrite (xmlextracts_elements_eq _ _ _ Hsep).
    unfold xmlextracts. cbn [xmlextracts_from].
    replace (text ++ "<" ++ tagname ++ ">" ++ junk)
      with (text ++ ("<" ++ tagname ++ ">") ++ junk)
      by now rewrite !append_assoc.
    rewrite (clear_of_found text _ junk Htext).
    rewrite drop_app_length, drop_append.
    unfold contains in Hjunk.
    destruct (strstr junk ("</" ++ tagname ++ ">")); [discriminate|].
    reflexivity. }
  split; [exact Hx|]. unfold xmlextract. now rewrite Hx.
Qed.

Lemma xmlextracts_unclosed_witness :
  let doc := elements "id" [("<volume>", "vol-1")] "<id>vol-2</volume>" in
  xmlextracts doc "id" = None /\ xmlextract doc "id" = None.
Proof.
  apply (xmlextracts_unclosed "id" [("<volume>", "vol-1")] "" "vol-2</volume>");
    vm_compute; reflexivity.
Defined.

(** ** What [xmlextracts] returns comes from the document *)

Lemma prefix_app_left (p x r : string) :
  prefix p x = true -> prefix p (x ++ r) = true.
Proof.
  intros H. rewrite (prefix_split p x H), append_assoc. apply prefix_append.
Qed.

Lemma contains_at (pat s : string) (i : nat) :
  prefix pat (drop i s) = true -> (0 < String.length pat)%nat ->
  contains s pat = true.
Proof.
  intros Hp Hpat. unfold contains.
  destruct (Nat.le_gt_cases i (String.length s)) as [Hi | Hi].
  - now destruct (strstr_found pat s i Hp Hi) as (j & -> & _).
  - apply prefix_length in Hp. rewrite drop_length in Hp. lia.
Qed.

Lemma contains_drop (pat s : string) (m : nat) :
  (0 < String.length pat)%nat ->
  contains (drop m s) pat = true -> contains s pat = true.
Proof.
  intros Hpat H. unfold contains in H.
  destruct (strstr (drop m s) pat) as [k|] eqn:Hk; [|discriminate].
  apply strstr_occurs in Hk. rewrite drop_drop in Hk.
  now apply contains_at with (m + k)%nat.
Qed.

(** The bytes before the first occurrence hold no occurrence. *)
Lemma strstr_take (pat s : string) (j : nat) :
  (0 < String.length pat)%nat ->
  strstr s pat = Some j -> contains (take j s) pat = false.
Proof.
  intros Hpat Hj. unfold contains.
  destruct (strstr (take j s) pat) as [k|] eqn:Hk; [|reflexivity].
  pose proof (strstr_bound _ _ _ Hj) as Hjb.
  pose proof (strstr_bound _ _ _ Hk) as Hkb.
  rewrite take_length in Hkb by lia.
  apply strstr_occurs in Hk.
  apply (prefix_app_left _ _ (drop j s)) in Hk.
  rewrite <- drop_app_short in Hk by (rewrite take_length; lia).
  rewrite take_drop in Hk.
  rewrite (strstr_first pat s j k Hj) in Hk by lia. discriminate.
Qed.

Lemma xmlextracts_from_sound (tagname : string) (fuel : nat) :
  forall (s : string) (acc vs : list string),
    xmlextracts_from fuel s ("<" ++ tagname ++ ">") ("</" ++ tagname ++ ">")
      acc = Some vs ->
    exists found,
      vs = (acc ++ found)%list
      /\ Forall (fun v => contains s (element tagname v) = true
                          /\ contains v ("</" ++ tagname ++ ">") = false)
           found.
Proof.
  set (tag := "<" ++ tagname ++ ">"). set (stag := "</" ++ tagname ++ ">").
  assert (Hstag : (0 < String.length stag)%nat) by apply Nat.lt_0_succ.
  assert (Hel : forall v, (0 < String.length (element tagname v))%nat)
    by (intros v; apply Nat.lt_0_succ).
  induction fuel as [|fuel IH]; intros s acc vs H; [discriminate|].
  cbn [xmlextracts_from] in H.
  destruct (strstr s tag) as [i|] eqn:Hi.
  - destruct (strstr (drop (i + String.length tag) s) stag) as [j|] eqn:Hj;
      [|discriminate].
    set (pst := drop (i + String.length tag) s) in *.
    destruct (IH _ _ _ H) as (found & -> & Hall).
    exists (take j pst :: found). split; [now rewrite <- app_assoc|].
    constructor.
    + split; [|now apply strstr_take].
      apply contains_at with i; [|apply Hel].
      apply strstr_occurs in Hi. apply prefix_split in Hi.
      rewrite drop_drop in Hi. fold pst in Hi.
      apply strstr_occurs in Hj. apply prefix_split in Hj.
      assert (Hpst : pst = take j pst ++ stag
                           ++ drop (String.length stag) (drop j pst))
        by (rewrite <- Hj; symmetry; apply take_drop).
      remember (take j pst) as v eqn:Hv. clear Hv.
      rewrite Hi, Hpst.
      unfold element. fold tag stag. rewrite <- !append_assoc.
      apply prefix_append.
    + eapply Forall_impl; [|exact Hall].
      intros v [Hv Hnone]. split; [|exact Hnone].
      unfold pst in Hv. rewrite drop_drop in Hv.
      now apply contains_drop in Hv.
  - injection H as <-. exists []. now rewrite app_nil_r.
Qed.

(** X5.  Whatever the document, every value [xmlextracts] returns is the
    content of a complete element of it: the opening tag, the value and the
    closing tag occur in the document one after the other, and the value
    itself holds no closing tag.  What [xmlextract] returns is such a value. *)
Theorem xmlextracts_sound (s tagname : string) :
  (forall vs : list string,
     xmlextracts s tagname = Some vs ->
     Forall (fun v => contains s (element tagname v) = true
                      /\ contains v ("</" ++ tagname ++ ">") = false) vs)
  /\ (forall v : string,
        xmlextract s tagname = Some v ->
        contains s (element tagname v) = true
        /\ contains v ("</" ++ tagname ++ ">") = false).
Proof.
  assert (Hall : forall vs : list string,
             xmlextracts s tagname = Some vs ->
             Forall (fun v => contains s (element tagname v) = true
                              /\ contains v ("</" ++ tagname ++ ">") = false)
               vs).
  { intros vs H. unfold xmlextracts in H.
    now destruct (xmlextracts_from_sound _ _ _ _ _ H) as (found & -> & Hf). }
  split; [exact Hall|].
  intros v H. unfold xmlextract in H.
  destruct (xmlextracts s tagname) as [[|v0 vs]|]; try discriminate.
  injection H as ->. exact (Forall_inv (Hall _ eq_refl)).
Qed.


(** ** A well-formed response *)

Lemma strcspn_app (reject a : string) (c : ascii) (r : string) :
  strcspn a reject = String.length a -> mem c reject = true ->
  strcspn (a ++ String c r) reject = String.length a.
Proof.
  intros Ha Hc. induction a as [|d a IH]; cbn [append strcspn].
  - now rewrite Hc.
  - cbn [strcspn String.length] in Ha.
    destruct (mem d reject); [discriminate|].
    cbn [String.length]. rewrite IH; [reflexivity | now injection Ha].
Qed.

Lemma prefix_cons_ne (c d : ascii) (p s : string) :
  c <> d -> prefix (String c p) (String d s) = false.
Proof.
  intros H. cbn [prefix]. destruct (ascii_dec c d); [contradiction|].
  reflexivity.
Qed.

Lemma not_eol_not_cr (c : ascii) :
  mem c (CR ++ LF) = false -> "013"%char <> c.
Proof. intros H <-. discriminate H. Qed.

(** A line without CR is skipped by the search for the empty line. *)
Lemma strstr_skip_line (l r : string) :
  strcspn l (CR ++ LF) = String.length l ->
  strstr (l ++ r) (CRLF ++ CRLF)
  = option_map (Nat.add (String.length l)) (strstr r (CRLF ++ CRLF)).
Proof.
  intros Hl. induction l as [|c l IH].
  - cbn [append String.length]. now destruct (strstr r _).
  - cbn [strcspn String.length] in Hl.
    destruct (mem c (CR ++ LF)) eqn:Hc; [discriminate|].
    injection Hl as Hl. cbn [append strstr].
    assert (Hp : prefix (CRLF ++ CRLF) (String c (l ++ r)) = false)
      by (apply (prefix_cons_ne "013"), not_eol_not_cr, Hc).
    rewrite Hp, (IH Hl).
    now destruct (strstr r (CRLF ++ CRLF)).
Qed.

Lemma strstr_skip_header (h r : string) :
  head_line h = true ->
  strstr (CRLF ++ h ++ r) (CRLF ++ CRLF)
  = option_map (Nat.add (String.length (CRLF ++ h)))
      (strstr r (CRLF ++ CRLF)).
Proof.
  unfold head_line. intros Hh. apply andb_prop in Hh as [Hne Hplain].
  apply Nat.eqb_eq in Hplain.
  pose proof (strstr_skip_line h r Hplain) as Hskip.
  destruct h as [|c h]; [discriminate|].
  cbn [strcspn String.length] in Hplain.
  destruct (mem c (CR ++ LF)) eqn:Hc; [discriminate|].
  change (CRLF ++ String c h ++ r)
    with (String "013" (String "010" (String c h ++ r))).
  cbn [strstr].
  assert (Hp1 : prefix (CRLF ++ CRLF)
                  (String "013" (String "010" (String c h ++ r))) = false).
  { change (CRLF ++ CRLF)
      with (String "013" (String "010" (String "013" (String "010" "")))).
    cbn [prefix]. destruct (ascii_dec "013" "013"); [|contradiction].
    destruct (ascii_dec "010" "010"); [|contradiction].
    apply prefix_cons_ne, not_eol_not_cr, Hc. }
  assert (Hp2 : prefix (CRLF ++ CRLF) (String "010" (String c h ++ r))
                = false) by reflexivity.
  rewrite Hp1, Hp2, Hskip.
  now destruct (strstr r (CRLF ++ CRLF)).
Qed.

Lemma strstr_here (pat s : string) :
  prefix pat s = true -> strstr s pat = Some O.
Proof. intros H. destruct s; cbn [strstr]; now rewrite H. Qed.

(** The empty line of a response is found where its head ends. *)
Lemma strstr_blank_line (headers : list string) (body : string) :
  forallb head_line headers = true ->
  strstr (String.concat "" (map (append CRLF) headers)
          ++ (CRLF ++ CRLF) ++ body) (CRLF ++ CRLF)
  = Some (String.length (String.concat "" (map (append CRLF) headers))).
Proof.
  induction headers as [|h headers IH]; intros Hall.
  - cbn [map String.concat append String.length].
    apply strstr_here, prefix_append.
  - cbn [forallb] in Hall. apply andb_prop in Hall as [Hh Hall].
    cbn [map]. rewrite concat_cons.
    rewrite (append_assoc (CRLF ++ h)), (append_assoc CRLF h).
    rewrite strstr_skip_header by exact Hh.
    rewrite (IH Hall). cbn [option_map]. now rewrite !length_append.
Qed.

Lemma http_response_parts (status : string) (headers : list string)
    (body : string) :
  forallb head_line (status :: headers) = true ->
  let resp := http_response status headers body in
  first_line resp = status
  /\ exists i, strstr resp (CRLF ++ CRLF) = Some i
               /\ drop (i + 4) resp = body.
Proof.
  intros Hall resp. cbn [forallb] in Hall.
  apply andb_prop in Hall as [Hst Hall].
  pose proof Hst as Hst'. unfold head_line in Hst'.
  apply andb_prop in Hst' as [_ Hplain]. apply Nat.eqb_eq in Hplain.
  pose proof (strstr_blank_line headers body Hall) as Hblank.
  set (hs := String.concat "" (map (append CRLF) headers)) in *.
  split.
  - unfold first_line, resp, http_response. fold hs.
    assert (Hcut : strcspn (status ++ hs ++ (CRLF ++ CRLF) ++ body) (CR ++ LF)
                   = String.length status).
    { destruct (hs ++ (CRLF ++ CRLF) ++ body) as [|c r] eqn:Hr.
      - destruct hs; discriminate.
      - apply strcspn_app; [exact Hplain|].
        destruct headers as [|h headers].
        + cbn in Hr. now injection Hr as <- _.
        + unfold hs in Hr. cbn [map] in Hr. rewrite concat_cons in Hr.
          cbn in Hr. now injection Hr as <- _. }
    rewrite Hcut. apply take_append.
  - exists (String.length status + String.length hs)%nat.
    unfold resp, http_response. fold hs.
    rewrite strstr_skip_line by exact Hplain. rewrite Hblank.
    split; [reflexivity|].
    rewrite <- Nat.add_assoc, drop_app_length, drop_app_length.
    reflexivity.
Qed.

(** What the checks find in an accepted response. *)
Lemma accepted_checks (status : string) (headers : list string)
    (body : string) :
  accepted status headers body = true ->
  let reply := http_response status headers body in
  take (Z.to_nat 16384) reply = reply
  /\ (String.length (cstr reply) =? String.length reply)%nat = true
  /\ status_200 reply = true
  /\ exists i, strstr reply (CRLF ++ CRLF) = Some i
               /\ drop (i + 4) reply = body.
Proof.
  unfold accepted. intros H.
  apply andb_prop in H as [H Hfits]. apply andb_prop in H as [H Hnul].
  apply andb_prop in H as [Hstatus Hlines]. apply Nat.leb_le in Hfits.
  destruct (http_response_parts status headers body Hlines)
    as (Hfirst & i & Hblank & Hbody).
  cbv zeta in *.
  split; [now apply take_all|]. split; [exact Hnul|].
  split; [|now exists i].
  unfold status_200.
  rewrite (status_check (CR ++ LF) " 200 " " "%char "200 " eq_refl
             status_pattern_plain).
  unfold first_line in Hfirst. now rewrite Hfirst.
Qed.

Section Reply.

Variable E : env.
Variables key_id key_secret region s : string.

Lemma ec2_apicall_accepted (w : world)
    (signature : string * string * string)
    (status : string) (headers : list string) (body : string)
    (later : list (option string)) :
  aws_sign_ec2_headers E w key_id key_secret region s = Some signature ->
  net w = Some (http_response status headers body) :: later ->
  accepted status headers body = true ->
  exists rq : request,
    ec2_apicall E key_id key_secret region s w
    = (Ret (Some body),
       {| net := later; sent := sent w ++ [rq]; stderr := stderr w;
          stdout := stdout w; slept := slept w |})
    /\ rq_host rq = "ec2." ++ region ++ ".amazonaws.com".
Proof.
  intros Hsign Hnet Hacc.
  destruct (accepted_checks status headers body Hacc)
    as (Htake & Hnul & H200 & i & Hblank & Hbody).
  cbv zeta in *.
  unfold ec2_apicall. unfold bind at 1. unfold observe.
  rewrite Hsign. destruct signature as [[sha date] auth].
  unfold bind at 1. unfold sslreq at 1. rewrite Hnet.
  rewrite Htake, Hnul, H200. cbn [negb]. rewrite Hblank, Hbody.
  eexists. split; reflexivity.
Qed.

(** X6.  [ec2_apicall] on a well-formed answer.  When the request can be
    signed and the transport answers with a response that fits the 16 kB
    buffer, holds no NUL byte, has [" 200 "] in its status line, and whose
    head is made of lines that are not empty, the call returns the body of the
    response, that is, the bytes after the first empty line.  It sends one
    request, to ["ec2.<region>.amazonaws.com"], and writes nothing to stderr. *)
Theorem ec2_apicall_returns_body (w : world)
    (signature : string * string * string)
    (status : string) (headers : list string) (body : string)
    (later : list (option string)) :
  aws_sign_ec2_headers E w key_id key_secret region s = Some signature ->
  net w = Some (http_response status headers body) :: later ->
  accepted status headers body = true ->
  exists (w' : world) (rq : request),
    ec2_apicall E key_id key_secret region s w = (Ret (Some body), w')
    /\ net w' = later
    /\ sent w' = (sent w ++ [rq])%list
    /\ rq_host rq = "ec2." ++ region ++ ".amazonaws.com"
    /\ stderr w' = stderr w.
Proof.
  intros Hsign Hnet Hacc.
  destruct (ec2_apicall_accepted w signature status headers body later
              Hsign Hnet Hacc) as (rq & Hrun & Hhost).
  eexists. exists rq. split; [exact Hrun|]. now repeat split.
Qed.

(** The first attempt of the loop is the last one when it is answered in
    this way. *)
Lemma ec2_apicall_loop_accepted (w : world)
    (signature : string * string * string)
    (status : string) (headers : list string) (body : string)
    (later : list (option string)) :
  aws_sign_ec2_headers E w key_id key_secret region s = Some signature ->
  net w = Some (http_response status headers body) :: later ->
  accepted status headers body = true ->
  exists w' : world,
    ec2_apicall_loop E key_id key_secret region s w = (Ret (Some body), w')
    /\ stderr w' = stderr w /\ net w' = later.
Proof.
  intros Hsign Hnet Hacc.
  destruct (ec2_apicall_accepted w signature status headers body later
              Hsign Hnet Hacc) as (rq & Hrun & _).
  eexists. unfold ec2_apicall_loop.
  rewrite (ec2_apicall_tries_S E key_id key_secret region s 9 0 w _ _ Hrun).
  now repeat split.
Qed.

End Reply.

(** The answer of the concrete environment to a status query. *)
Lemma ec2_apicall_returns_body_witness :
  let body := "<DescribeSnapshotsResponse><status>completed</status>"
              ++ "</DescribeSnapshotsResponse>" in
  let w := fresh_world [http_ok body] in
  exists (w' : world) (rq : request),
    ec2_apicall (demo_env demo_keys 0) "AKIDEXAMPLE" "wJalrXUtnFEMI"
      "us-west-2" "Action=DescribeSnapshots" w
    = (Ret (Some body), w')
    /\ net w' = []
    /\ sent w' = (sent w ++ [rq])%list
    /\ rq_host rq = "ec2.us-west-2.amazonaws.com"
    /\ stderr w' = stderr w.
Proof.
  intros body w.
  apply (ec2_apicall_returns_body (demo_env demo_keys 0) "AKIDEXAMPLE"
           "wJalrXUtnFEMI" "us-west-2" "Action=DescribeSnapshots" w
           ("e3b0c442", "20190320T000000Z", "AWS4-HMAC-SHA256 Signature=00")
           "HTTP/1.1 200 OK" ["Content-Type: text/xml"] body []);
    vm_compute; reflexivity.
Defined.

(** ** The list of regions *)

(** X7.  [getregionlist] on a well-formed answer: when the first attempt is
    answered by an accepted response whose body holds a [regionInfo] element,
    and that element holds [regionName] elements and nothing else that opens
    one, the stage returns the names of these elements, all of them and in the
    order of the response. *)
Theorem getregionlist_returns_names (E : env)
    (key_id key_secret region : string) (w : world)
    (signature : string * string * string)
    (status : string) (headers : list string)
    (before after trailer : string) (items : list (string * string))
    (later : list (option string)) :
  let info := elements "regionName" items trailer in
  let body := elements "regionInfo" [(before, info)] after in
  aws_sign_ec2_headers E w key_id key_secret region
    "Action=DescribeRegions&Version=2014-09-01" = Some signature ->
  net w = Some (http_response status headers body) :: later ->
  accepted status headers body = true ->
  separable "regionInfo" [(before, info)] = true ->
  contains after "<regionInfo>" = false ->
  separable "regionName" items = true ->
  contains trailer "<regionName>" = false ->
  items <> [] ->
  exists w' : world,
    getregionlist E key_id key_secret region w
    = (Ret (Some (map snd items)), w')
    /\ stderr w' = stderr w /\ net w' = later.
Proof.
  intros info body Hsign Hnet Hacc Hsep1 Hafter Hsep2 Htrailer Hitems.
  destruct (ec2_apicall_loop_accepted E key_id key_secret region _ w
              signature status headers body later Hsign Hnet Hacc)
    as (w' & Hrun & Herr & Hnet').
  exists w'. unfold getregionlist. unfold bind. rewrite Hrun.
  assert (Hinfo : xmlextract body "regionInfo" = Some info).
  { unfold xmlextract, body.
    rewrite (xmlextracts_elements_eq _ _ _ Hsep1).
    unfold xmlextracts, contains in *. cbn [xmlextracts_from].
    change ("<" ++ "regionInfo" ++ ">") with "<regionInfo>".
    now destruct (strstr after "<regionInfo>"). }
  rewrite Hinfo.
  assert (Hnames : xmlextracts info "regionName" = Some (map snd items)).
  { unfold info. rewrite (xmlextracts_elements_eq _ _ _ Hsep2).
    unfold xmlextracts, contains in *. cbn [xmlextracts_from].
    change ("<" ++ "regionName" ++ ">") with "<regionName>".
    destruct (strstr trailer "<regionName>"); [discriminate|].
    cbn. now rewrite app_nil_r. }
  rewrite Hnames.
  destruct items as [|it items]; [contradiction|].
  now repeat split.
Qed.

Lemma getregionlist_returns_names_witness :
  let items := [("<item>", "us-west-2"); ("</item><item>", "eu-west-1")] in
  let info := elements "regionName" items "</item>" in
  let body := elements "regionInfo" [("<DescribeRegionsResponse>", info)]
                "</DescribeRegionsResponse>" in
  exists w' : world,
    getregionlist (demo_env demo_keys 0) "AKIDEXAMPLE" "wJalrXUtnFEMI"
      "us-west-2" (fresh_world [http_ok body])
    = (Ret (Some ["us-west-2"; "eu-west-1"]), w')
    /\ stderr w' = [] /\ net w' = [].
Proof.
  intros items info body.
  apply (getregionlist_returns_names (demo_env demo_keys 0) "AKIDEXAMPLE"
           "wJalrXUtnFEMI" "us-west-2" (fresh_world [http_ok body])
           ("e3b0c442", "20190320T000000Z", "AWS4-HMAC-SHA256 Signature=00")
           "HTTP/1.1 200 OK" ["Content-Type: text/xml"]
           "<DescribeRegionsResponse>" "</DescribeRegionsResponse>"
           "</item>" items []);
    [reflexivity | reflexivity | vm_compute; reflexivity
     | vm_compute; reflexivity | reflexivity | vm_compute; reflexivity
     | reflexivity | discriminate].
Defined.

(** ** The answer to the notification *)

(** X8.  [sns_publish] on a well-formed answer: when the request can be signed
    for the region of the topic and the transport answers with an accepted
    response whose body holds ["<MessageId>"], the notification has succeeded:
    [sns_publish] returns 0, has sent one request, to
    ["sns.<region>.amazonaws.com"], and has written nothing to stderr. *)
Theorem sns_publish_succeeds (E : env)
    (key_id key_secret topicarn rv iv name region : string) (n : nat)
    (regions amis : list string) (w : world)
    (signature : string * string * string)
    (status : string) (headers : list string) (body : string)
    (later : list (option string)) :
  sns_region topicarn = Some region ->
  aws_sign_sns_headers E w key_id key_secret region
    (sns_request topicarn rv iv name n regions amis) = Some signature ->
  net w = Some (http_response status headers body) :: later ->
  accepted status headers body = true ->
  contains body "<MessageId>" = true ->
  exists (w' : world) (rq : request),
    sns_publish E key_id key_secret topicarn rv iv name n regions amis w
    = (Ret 0, w')
    /\ net w' = later
    /\ sent w' = (sent w ++ [rq])%list
    /\ rq_host rq = "sns." ++ region ++ ".amazonaws.com"
    /\ stderr w' = stderr w.
Proof.
  intros Hregion Hsign Hnet Hacc Hid.
  destruct (accepted_checks status headers body Hacc)
    as (Htake & Hnul & H200 & i & Hblank & Hbody).
  cbv zeta in *.
  unfold sns_publish. rewrite Hregion. cbv zeta.
  unfold bind at 1. unfold observe. rewrite Hsign.
  destruct signature as [[sha date] auth].
  unfold bind at 1. unfold sslreq at 1. rewrite Hnet.
  rewrite Htake, Hnul, H200. cbn [negb]. rewrite Hblank, Hbody.
  unfold contains in Hid.
  destruct (strstr body "<MessageId>"); [|discriminate].
  do 2 eexists. split; [reflexivity|]. now repeat split.
Qed.

Lemma sns_publish_succeeds_witness :
  let body := "<PublishResponse><MessageId>94f20ce6</MessageId>"
              ++ "</PublishResponse>" in
  let w := fresh_world [http_ok body] in
  exists (w' : world) (rq : request),
    sns_publish (demo_env demo_keys 0) "AKIDEXAMPLE" "wJalrXUtnFEMI"
      "arn:aws:sns:us-east-1:123456789012:ami-updates" "12.0-RELEASE" "1"
      "FreeBSD 12.0-RELEASE" 1 ["us-west-2"] ["ami-1"] w
    = (Ret 0, w')
    /\ net w' = []
    /\ sent w' = (sent w ++ [rq])%list
    /\ rq_host rq = "sns." ++ "us-east-1" ++ ".amazonaws.com"
    /\ stderr w' = stderr w.
Proof.
  intros body w.
  apply (sns_publish_succeeds (demo_env demo_keys 0) "AKIDEXAMPLE"
           "wJalrXUtnFEMI" "arn:aws:sns:us-east-1:123456789012:ami-updates"
           "12.0-RELEASE" "1" "FreeBSD 12.0-RELEASE" "us-east-1" 1
           ["us-west-2"] ["ami-1"] w
           ("e3b0c442", "20190320T000000Z", "AWS4-HMAC-SHA256 Signature=00")
           "HTTP/1.1 200 OK" ["Content-Type: text/xml"] body []);
    vm_compute; reflexivity.
Defined.


(** ** Every failed attempt is reported *)

Section Reports.

Variable E : env.
Variables key_id key_secret region : string.

(** One more line on stderr, or none. *)
Ltac reported :=
  do 2 eexists; split; [reflexivity|];
  first [left; split; [reflexivity|]; reflexivity
        | right; split; [reflexivity|]; eexists; reflexivity].

Lemma s3_put_reports (bucket path : string) (buf : buffer) (buflen : Z)
    (w : world) :
  exists r w',
    s3_put E key_id key_secret region bucket path buf buflen w = (Ret r, w')
    /\ ((r = 0 /\ stderr w' = stderr w)
        \/ (r = -1 /\ exists msg, stderr w' = (stderr w ++ [msg])%list)).
Proof.
  unfold s3_put. unfold bind at 1. unfold observe.
  destruct (aws_sign_s3_headers E w key_id key_secret region "PUT" bucket
              path buf buflen) as [[[sha date] auth]|]; [|reported].
  unfold bind at 1. unfold sslreq at 1.
  destruct (match net w with
            | Some r :: _ => Some (take (Z.to_nat 16384) r)
            | _ => None
            end) as [resp|]; [|reported].
  destruct (status_200 (cstr resp)); reported.
Qed.

Lemma ec2_apicall_reports (s : string) (w : world) :
  exists r w',
    ec2_apicall E key_id key_secret region s w = (Ret r, w')
    /\ ((r <> None /\ stderr w' = stderr w)
        \/ (r = None /\ exists msg, stderr w' = (stderr w ++ [msg])%list)).
Proof.
  unfold ec2_apicall. unfold bind at 1. unfold observe.
  destruct (aws_sign_ec2_headers E w key_id key_secret region s)
    as [[[sha date] auth]|];
    [|do 2 eexists; split; [reflexivity|]; right; split; [reflexivity|];
      eexists; reflexivity].
  unfold bind at 1. unfold sslreq at 1.
  destruct (match net w with
            | Some r :: _ => Some (take (Z.to_nat 16384) r)
            | _ => None
            end) as [resp|];
    [|do 2 eexists; split; [reflexivity|]; right; split; [reflexivity|];
      eexists; reflexivity].
  destruct (negb (String.length (cstr resp) =? String.length resp)%nat);
    [do 2 eexists; split; [reflexivity|]; right; split; [reflexivity|];
     eexists; reflexivity|].
  destruct (negb (status_200 resp));
    [do 2 eexists; split; [reflexivity|]; right; split; [reflexivity|];
     eexists; reflexivity|].
  destruct (strstr resp (CRLF ++ CRLF));
    do 2 eexists; (split; [reflexivity|]);
    [left; split; [discriminate | reflexivity]
    | right; split; [reflexivity|]; eexists; reflexivity].
Qed.

Lemma sns_publish_reports (topicarn rv iv name : string) (n : nat)
    (regions amis : list string) (w : world) :
  sns_region topicarn <> None ->
  exists r w',
    sns_publish E key_id key_secret topicarn rv iv name n regions amis w
    = (Ret r, w')
    /\ ((r = 0 /\ stderr w' = stderr w)
        \/ (r = -1 /\ exists msg, stderr w' = (stderr w ++ [msg])%list)).
Proof.
  intros Hregion. unfold sns_publish.
  destruct (sns_region topicarn) as [topic_region|]; [|contradiction].
  cbv zeta. unfold bind at 1. unfold observe.
  destruct (aws_sign_sns_headers E w key_id key_secret topic_region _)
    as [[[sha date] auth]|]; [|reported].
  unfold bind at 1. unfold sslreq at 1.
  destruct (match net w with
            | Some r :: _ => Some (take (Z.to_nat 16384) r)
            | _ => None
            end) as [resp|]; [|reported].
  destruct (negb (String.length (cstr resp) =? String.length resp)%nat);
    [reported|].
  destruct (negb (status_200 resp)); [reported|].
  destruct (strstr resp (CRLF ++ CRLF)); [|reported].
  destruct (strstr _ "<MessageId>"); reported.
Qed.

(** X9.  An attempt says why it failed, and says nothing when it went well:
    [s3_put], [ec2_apicall] and [sns_publish] all return, and each of them has
    written exactly one line to stderr when it returns a failure and none when
    it returns a success. *)
Theorem attempts_report_failures (bucket path s topicarn rv iv name : string)
    (buf : buffer) (buflen : Z) (n : nat) (regions amis : list string)
    (w : world) :
  sns_region topicarn <> None ->
  let said {A} (m : M A) (k : nat) :=
    exists lines, stderr (snd (m w)) = (stderr w ++ lines)%list
                  /\ List.length lines = k in
  let put := s3_put E key_id key_secret region bucket path buf buflen in
  let call := ec2_apicall E key_id key_secret region s in
  let publish :=
    sns_publish E key_id key_secret topicarn rv iv name n regions amis in
  ((fst (put w) = Ret 0 /\ said put 0%nat)
   \/ (fst (put w) = Ret (-1) /\ said put 1%nat))
  /\ ((exists body, fst (call w) = Ret (Some body) /\ said call 0%nat)
      \/ (fst (call w) = Ret None /\ said call 1%nat))
  /\ ((fst (publish w) = Ret 0 /\ said publish 0%nat)
      \/ (fst (publish w) = Ret (-1) /\ said publish 1%nat)).
Proof.
  intros Hregion. cbv zeta. split; [|split].
  - destruct (s3_put_reports bucket path buf buflen w)
      as (r & w' & -> & [[-> Herr] | [-> [msg Herr]]]); cbn [fst snd].
    + left. split; [reflexivity|]. exists []. now rewrite app_nil_r.
    + right. split; [reflexivity|]. now exists [msg].
  - destruct (ec2_apicall_reports s w)
      as (r & w' & -> & [[Hr Herr] | [-> [msg Herr]]]); cbn [fst snd].
    + left. destruct r as [body|]; [|contradiction].
      exists body. split; [reflexivity|]. exists []. now rewrite app_nil_r.
    + right. split; [reflexivity|]. now exists [msg].
  - destruct (sns_publish_reports topicarn rv iv name n regions amis w
                Hregion)
      as (r & w' & -> & [[-> Herr] | [-> [msg Herr]]]); cbn [fst snd].
    + left. split; [reflexivity|]. exists []. now rewrite app_nil_r.
    + right. split; [reflexivity|]. now exists [msg].
Qed.

End Reports.

(** A transport that does not answer: the call fails with one line. *)
Lemma attempts_report_failures_witness :
  let E := demo_env demo_keys 0 in
  let w := fresh_world [] in
  let call := ec2_apicall E "AKIDEXAMPLE" "wJalrXUtnFEMI" "us-west-2"
                "Action=DescribeRegions" in
  (exists body,
      fst (call w) = Ret (Some body)
      /\ exists lines, stderr (snd (call w)) = (stderr w ++ lines)%list
                       /\ List.length lines = 0%nat)
  \/ (fst (call w) = Ret None
      /\ exists lines, stderr (snd (call w)) = (stderr w ++ lines)%list
                       /\ List.length lines = 1%nat).
Proof.
  intros E w call.
  exact (proj1 (proj2 (attempts_report_failures E "AKIDEXAMPLE"
                         "wJalrXUtnFEMI" "us-west-2" "bucket" "/path"
                         "Action=DescribeRegions"
                         "arn:aws:sns:us-east-1:123456789012:ami-updates"
                         "12.0" "1" "name" (Mem "") 0 0 [] [] w
                         ltac:(discriminate)))).
Defined.

(** ** What the stages make of an answer *)

Section Answers.

Variable E : env.
Variables key_id key_secret region : string.
Variables (status : string) (headers : list string) (body : string).
Variable later : list (option string).

Hypothesis signs :
  forall w s, aws_sign_ec2_headers E w key_id key_secret region s <> None.
Hypothesis answer_accepted : accepted status headers body = true.

Lemma ec2_apicall_answer (s : string) (w : world) :
  net w = Some (http_response status headers body) :: later ->
  exists w' : world,
    ec2_apicall E key_id key_secret region s w = (Ret (Some body), w')
    /\ List.length (sent w') = S (List.length (sent w)).
Proof.
  intros answer.
  destruct (aws_sign_ec2_headers E w key_id key_secret region s)
    as [signature|] eqn:Hsign; [|now destruct (signs w s)].
  destruct (ec2_apicall_accepted E key_id key_secret region s w signature
              status headers body later Hsign answer answer_accepted)
    as (rq & Hrun & _).
  eexists. split; [exact Hrun|]. cbn [sent]. rewrite length_app. cbn. lia.
Qed.

Lemma ec2_apicall_loop_answer (s : string) (w : world) :
  net w = Some (http_response status headers body) :: later ->
  exists w' : world,
    ec2_apicall_loop E key_id key_secret region s w = (Ret (Some body), w')
    /\ List.length (sent w') = S (List.length (sent w)).
Proof.
  intros answer.
  destruct (ec2_apicall_answer s w answer) as (w' & Hrun & Hsent).
  exists w'. unfold ec2_apicall_loop.
  now rewrite (ec2_apicall_tries_S E key_id key_secret region s 9 0 w _ _
                 Hrun).
Qed.

(** X10.  The three stages that change an attribute or delete the volume
    decide by one test: when the request is answered by an accepted response,
    they return 0 if ["<return>true</return>"] occurs in its body and -1
    otherwise.  One request has been sent by then: an answer that says no is
    final also for [makepublic] and [makesnappublic], which repeat a request
    only when it gets no accepted response. *)
Theorem return_true_decides (volume ami snapshot : string) (w : world) :
  net w = Some (http_response status headers body) :: later ->
  let verdict := if contains body "<return>true</return>" then 0 else -1 in
  let once {A} (m : M A) :=
    List.length (sent (snd (m w))) = S (List.length (sent w)) in
  (fst (deletevolume E region volume key_id key_secret w) = Ret verdict
   /\ once (deletevolume E region volume key_id key_secret))
  /\ (fst (makepublic E region ami key_id key_secret w) = Ret verdict
      /\ once (makepublic E region ami key_id key_secret))
  /\ (fst (makesnappublic E region snapshot key_id key_secret w) = Ret verdict
      /\ once (makesnappublic E region snapshot key_id key_secret)).
Proof.
  intros answer. cbv zeta. unfold contains.
  split; [|split].
  - unfold deletevolume. cbv zeta. unfold bind.
    destruct (ec2_apicall_answer
                ("Action=DeleteVolume&" ++ "VolumeId=" ++ volume ++ "&"
                 ++ "Version=2014-09-01") w answer) as (w' & -> & Hsent).
    now destruct (strstr body "<return>true</return>").
  - unfold makepublic. cbv zeta. unfold bind.
    destruct (ec2_apicall_loop_answer
                ("Action=ModifyImageAttribute&" ++ "ImageId=" ++ ami ++ "&"
                 ++ "LaunchPermission.Add.1.Group=all&"
                 ++ "Version=2014-09-01") w answer) as (w' & -> & Hsent).
    now destruct (strstr body "<return>true</return>").
  - unfold makesnappublic. cbv zeta. unfold bind.
    destruct (ec2_apicall_loop_answer
                ("Action=ModifySnapshotAttribute&" ++ "SnapshotId=" ++ snapshot
                 ++ "&" ++ "CreateVolumePermission.Add.1.Group=all&"
                 ++ "Version=2014-09-01") w answer) as (w' & -> & Hsent).
    now destruct (strstr body "<return>true</return>").
Qed.

(** X11.  The four stages that create something return the identifier the
    answer names first: when the request is answered by an accepted response,
    each of them returns the content of the first element of the name it looks
    for in the body ([conversionTaskId], [snapshotId], [imageId]), and [NULL]
    when the body holds no such element or holds one that is not closed. *)
Theorem created_identifier (volume snapshot name desc arch ami from
    bucket manifest : string) (sriov ena : bool) (size : Z) (w : world) :
  net w = Some (http_response status headers body) :: later ->
  aws_sign_s3_querystr E w key_id key_secret region "GET" bucket manifest
    604800 <> None ->
  fst (importvolume E region bucket manifest size key_id key_secret w)
  = Ret (xmlextract body "conversionTaskId")
  /\ fst (createsnapshot E region volume key_id key_secret w)
     = Ret (xmlextract body "snapshotId")
  /\ fst (registerimage E region snapshot name desc arch sriov ena key_id
            key_secret w)
     = Ret (xmlextract body "imageId")
  /\ fst (copyimage E from ami region key_id key_secret w)
     = Ret (xmlextract body "imageId").
Proof.
  intros answer Hquery. split; [|split; [|split]].
  - unfold importvolume. unfold bind at 1. unfold observe.
    destruct (aws_sign_s3_querystr E w key_id key_secret region "GET" bucket
                manifest 604800) as [query|]; [|contradiction].
    cbv zeta. unfold bind.
    match goal with
    | |- context [ec2_apicall E key_id key_secret region ?s ?w0] =>
        destruct (ec2_apicall_answer s w0 answer) as (w' & -> & _)
    end.
    now destruct (xmlextract body "conversionTaskId").
  - unfold createsnapshot. cbv zeta. unfold bind. cbn [eprintf].
    match goal with
    | |- context [ec2_apicall E key_id key_secret region ?s ?w0] =>
        destruct (ec2_apicall_answer s w0 answer) as (w' & -> & _)
    end.
    now destruct (xmlextract body "snapshotId").
  - unfold registerimage. cbv zeta. unfold bind. cbn [eprintf].
    match goal with
    | |- context [ec2_apicall E key_id key_secret region ?s ?w0] =>
        destruct (ec2_apicall_answer s w0 answer) as (w' & -> & _)
    end.
    now destruct (xmlextract body "imageId").
  - unfold copyimage. cbv zeta. unfold bind.
    match goal with
    | |- context [ec2_apicall E key_id key_secret region ?s ?w0] =>
        destruct (ec2_apicall_answer s w0 answer) as (w' & -> & _)
    end.
    now destruct (xmlextract body "imageId").
Qed.

End Answers.

(** An answer that says no to ModifyImageAttribute. *)
Lemma return_true_decides_witness :
  let E := demo_env demo_keys 0 in
  let w := fresh_world
             [http_ok "<ModifyImageAttributeResponse><return>false</return></ModifyImageAttributeResponse>";
              http_ok "<ModifyImageAttributeResponse><return>true</return></ModifyImageAttributeResponse>"] in
  fst (makepublic E "us-west-2" "ami-1" "AKIDEXAMPLE" "wJalrXUtnFEMI" w)
  = Ret (-1)
  /\ List.length (sent (snd (makepublic E "us-west-2" "ami-1" "AKIDEXAMPLE"
                               "wJalrXUtnFEMI" w))) = 1%nat.
Proof.
  intros E w.
  refine (proj1 (proj2 (return_true_decides E "AKIDEXAMPLE" "wJalrXUtnFEMI"
                          "us-west-2" "HTTP/1.1 200 OK"
                          ["Content-Type: text/xml"]
                          "<ModifyImageAttributeResponse><return>false</return></ModifyImageAttributeResponse>"
                          [http_ok "<ModifyImageAttributeResponse><return>true</return></ModifyImageAttributeResponse>"]
                          _ _ "vol-1" "ami-1" "snap-1" w _))).
  - intros w0 s. discriminate.
  - vm_compute. reflexivity.
  - reflexivity.
Defined.

(** The answer to CreateSnapshot. *)
Lemma created_identifier_witness :
  let E := demo_env demo_keys 0 in
  let body := "<CreateSnapshotResponse><snapshotId>snap-1</snapshotId>"
              ++ "<volumeId>vol-1</volumeId></CreateSnapshotResponse>" in
  fst (createsnapshot E "us-west-2" "vol-1" "AKIDEXAMPLE" "wJalrXUtnFEMI"
         (fresh_world [http_ok body]))
  = Ret (Some "snap-1").
Proof.
  intros E body.
  refine (proj1 (proj2 (created_identifier E "AKIDEXAMPLE" "wJalrXUtnFEMI"
                          "us-west-2" "HTTP/1.1 200 OK"
                          ["Content-Type: text/xml"] body [] _ _ "vol-1"
                          "snap-1" "name" "description" "x86_64" "ami-1"
                          "us-east-1" "bucket" "/manifest.xml" false false 0
                          (fresh_world [http_ok body]) _ _))).
  - intros w0 s. discriminate.
  - vm_compute. reflexivity.
  - reflexivity.
  - discriminate.
Defined.

(** ** Calls that change the account are made once *)

Section Once.

Variable E : env.
Variables key_id key_secret region : string.

(** What follows a single [ec2_apicall] adds no request. *)
Lemma one_call {A} (s : string) (k : option string -> M A) (w : world) :
  (forall body w1, sent (snd (k body w1)) = sent w1) ->
  (List.length (sent (snd ((body <- ec2_apicall E key_id key_secret region s ;;
                            k body) w)))
   <= S (List.length (sent w)))%nat.
Proof.
  intros Hk. unfold bind.
  destruct (ec2_apicall_run E key_id key_secret region s w)
    as (body & w1 & Hrun & _ & Hlen).
  rewrite Hrun, Hk. exact Hlen.
Qed.

Lemma importvolume_once (bucket manifest : string) (size : Z) (w : world) :
  (List.length (sent (snd (importvolume E region bucket manifest size key_id
                             key_secret w)))
   <= S (List.length (sent w)))%nat.
Proof.
  unfold importvolume. unfold bind at 1. unfold observe.
  destruct (aws_sign_s3_querystr E w key_id key_secret region "GET" bucket
              manifest 604800) as [query|]; [|cbn; lia].
  apply one_call. intros [resp|] w1; [|reflexivity].
  now destruct (xmlextract resp "conversionTaskId").
Qed.

Lemma createsnapshot_once (volume : string) (w : world) :
  (List.length (sent (snd (createsnapshot E region volume key_id key_secret
                             w)))
   <= S (List.length (sent w)))%nat.
Proof.
  unfold createsnapshot. cbv zeta. unfold bind at 1.
  cbn [eprintf].
  match goal with
  | |- (List.length (sent (snd ((_ <- _ ;; _) ?w0))) <= _)%nat =>
      change (sent w) with (sent w0)
  end.
  apply one_call. intros [resp|] w1; [|reflexivity].
  now destruct (xmlextract resp "snapshotId").
Qed.

Lemma deletevolume_once (volume : string) (w : world) :
  (List.length (sent (snd (deletevolume E region volume key_id key_secret
                             w)))
   <= S (List.length (sent w)))%nat.
Proof.
  unfold deletevolume. cbv zeta.
  apply one_call. intros [resp|] w1; [|reflexivity].
  now destruct (strstr resp "<return>true</return>").
Qed.

Lemma registerimage_once (snapshot name desc arch : string)
    (sriov ena : bool) (w : world) :
  (List.length (sent (snd (registerimage E region snapshot name desc arch
                             sriov ena key_id key_secret w)))
   <= S (List.length (sent w)))%nat.
Proof.
  unfold registerimage. cbv zeta. unfold bind at 1.
  cbn [eprintf].
  match goal with
  | |- (List.length (sent (snd ((_ <- _ ;; _) ?w0))) <= _)%nat =>
      change (sent w) with (sent w0)
  end.
  apply one_call. intros [resp|] w1; [|reflexivity].
  now destruct (xmlextract resp "imageId").
Qed.

End Once.

Lemma copyimage_once (E : env) (region ami toregion key_id key_secret : string)
    (w : world) :
  (List.length (sent (snd (copyimage E region ami toregion key_id key_secret
                             w)))
   <= S (List.length (sent w)))%nat.
Proof.
  unfold copyimage. cbv zeta.
  apply one_call. intros [resp|] w1; [|reflexivity].
  now destruct (xmlextract resp "imageId").
Qed.

(** X12.  The calls that change the account (ImportVolume, CreateSnapshot,
    DeleteVolume, RegisterImage and CopyImage) go through [ec2_apicall], not
    through [ec2_apicall_loop]: each of the five stages hands at most one
    request to the transport, whatever the answer is, so that none of these
    calls is ever repeated. *)
Theorem account_changes_once (E : env)
    (region bucket manifest volume snapshot name desc arch ami toregion
     key_id key_secret : string) (size : Z) (sriov ena : bool) (w : world) :
  let requests {A} (m : M A) :=
    (List.length (sent (snd (m w))) - List.length (sent w))%nat in
  (requests (importvolume E region bucket manifest size key_id key_secret)
   <= 1)%nat
  /\ (requests (createsnapshot E region volume key_id key_secret) <= 1)%nat
  /\ (requests (deletevolume E region volume key_id key_secret) <= 1)%nat
  /\ (requests (registerimage E region snapshot name desc arch sriov ena
                  key_id key_secret) <= 1)%nat
  /\ (requests (copyimage E region ami toregion key_id key_secret) <= 1)%nat.
Proof.
  cbv zeta.
  pose proof (importvolume_once E key_id key_secret region bucket manifest
                size w).
  pose proof (createsnapshot_once E key_id key_secret region volume w).
  pose proof (deletevolume_once E key_id key_secret region volume w).
  pose proof (registerimage_once E key_id key_secret region snapshot name
                desc arch sriov ena w).
  pose proof (copyimage_once E region ami toregion key_id key_secret w).
  repeat split; lia.
Qed.

(** ** Copying the image *)

Lemma drop_take (k : nat) :
  forall (n : nat) (s : string), drop k (take n s) = take (n - k) (drop k s).
Proof.
  induction k as [|k IH]; intros n s.
  - now rewrite Nat.sub_0_r.
  - destruct n as [|n]; [reflexivity|].
    destruct s as [|c s]; [cbn; now destruct (n - k)%nat|].
    cbn [take drop Nat.sub]. apply IH.
Qed.

Lemma contains_take (pat s : string) (n : nat) :
  (0 < String.length pat)%nat ->
  contains (take n s) pat = true -> contains s pat = true.
Proof.
  intros Hpat H. unfold contains in H.
  destruct (strstr (take n s) pat) as [k|] eqn:Hk; [|discriminate].
  apply strstr_occurs in Hk. rewrite drop_take in Hk.
  apply prefix_take in Hk. now apply contains_at with k.
Qed.

Lemma xmlextract_contains (s tagname v : string) :
  xmlextract s tagname = Some v -> contains s (element tagname v) = true.
Proof.
  unfold xmlextract, xmlextracts. intros H.
  destruct (xmlextracts_from _ s _ _ []) as [[|v0 vs]|] eqn:Hx;
    try discriminate.
  injection H as ->.
  destruct (xmlextracts_from_sound _ _ _ _ _ Hx) as (found & Hvs & Hall).
  cbn [app] in Hvs. subst found. now apply Forall_inv in Hall.
Qed.

Section Copies.

Variable E : env.
Variables region ami key_id key_secret : string.

(** A call of [ec2_apicall] that returns a body: one exchange, and the body
    is cut from the reply. *)
Lemma ec2_apicall_exchange (toregion s body : string) (w w' : world) :
  ec2_apicall E key_id key_secret toregion s w = (Ret (Some body), w') ->
  exists rq reply i,
    exchanged w w' [(rq, Some reply)]
    /\ rq_host rq = "ec2." ++ toregion ++ ".amazonaws.com"
    /\ (exists head, rq_head rq = head ++ s)
    /\ body = drop i (take (Z.to_nat 16384) reply).
Proof.
  intros Hrun. unfold ec2_apicall in Hrun.
  unfold bind at 1 in Hrun. unfold observe in Hrun.
  destruct (aws_sign_ec2_headers E w key_id key_secret toregion s)
    as [[[sha date] auth]|]; [|discriminate].
  unfold bind at 1 in Hrun. unfold sslreq at 1 in Hrun.
  destruct (net w) as [|[r|] rest] eqn:Hnet; try discriminate.
  destruct (negb _); [discriminate|].
  destruct (negb _); [discriminate|].
  destruct (strstr _ _) as [i|]; [|discriminate].
  pose proof (f_equal
                (fun p : result (option string) * world =>
                   match fst p with
                   | Ret (Some b) => b
                   | _ => EmptyString
                   end) Hrun) as Hbody.
  apply (f_equal snd) in Hrun.
  cbv [ret] in Hrun, Hbody. cbv beta iota in Hbody.
  cbn [fst snd] in Hrun, Hbody. subst w' body.
  eexists. exists r, (i + 4)%nat.
  split.
  { repeat split; cbn [sent net map fst snd List.length seq nth skipn];
      rewrite ?Hnet; reflexivity. }
  split; [reflexivity|]. split; [|reflexivity].
  cbn [rq_head]. eexists.
  repeat rewrite <- append_assoc. reflexivity.
Qed.

(** A copy that is made is made by one exchange. *)
Lemma copyimage_exchange (toregion toami : string) (w w' : world) :
  copyimage E region ami toregion key_id key_secret w
  = (Ret (Some toami), w') ->
  exists x, exchanged w w' [x] /\ image_copied region ami toregion toami x.
Proof.
  intros Hrun. unfold copyimage in Hrun. cbv zeta in Hrun.
  unfold bind at 1 in Hrun.
  destruct (ec2_apicall E key_id key_secret toregion _ w)
    as [[[body|]| | |] w1] eqn:Hcall; try discriminate.
  destruct (ec2_apicall_exchange _ _ _ _ _ Hcall)
    as (rq & reply & i & Hx & Hhost & (head & Hhead) & Hbody).
  destruct (xmlextract body "imageId") as [a|] eqn:Hami; [|discriminate].
  injection Hrun as <- <-.
  exists (rq, Some reply). split; [exact Hx|].
  split; [exact Hhost|]. split.
  - exists head. cbn [fst]. rewrite Hhead.
    repeat rewrite append_assoc. reflexivity.
  - exists reply. split; [reflexivity|].
    apply xmlextract_contains in Hami. subst body.
    apply contains_drop in Hami; [|apply Nat.lt_0_succ].
    now apply contains_take in Hami; [|apply Nat.lt_0_succ].
Qed.

(** X13.  When the first loop of [main] over the regions is through, there
    is one image for each region, in the order of the regions.  The image
    of the home region is the one that was registered, and no request was
    made for it.  For every other region one request was sent, to the
    endpoint of that region and asking for a copy of the registered image
    from the home region, and the image recorded for the region is the
    content of an [imageId] element of the reply to that request. *)
Theorem copy_images_aligned (regions : list string) :
  forall (w w' : world) (amis : list string),
    copy_images E regions region ami key_id key_secret w = (Ret amis, w') ->
    exists xs : list (request * option string),
      exchanged w w' xs /\ copied region ami regions amis xs.
Proof.
  induction regions as [|r regions IH]; intros w w' amis Hrun.
  - injection Hrun as <- <-. exists []. split; [apply exchanged_refl|].
    reflexivity.
  - cbn [copy_images] in Hrun. cbn [copied].
    destruct (r =? region)%string.
    + unfold bind in Hrun.
      destruct (copy_images E regions region ami key_id key_secret w)
        as [[amis0| | |] w0] eqn:Hrest; try discriminate.
      injection Hrun as <- <-.
      destruct (IH _ _ _ Hrest) as (xs & Hx & Hcopied).
      exists xs. split; [exact Hx|]. now split.
    + unfold bind at 1 in Hrun. cbn [eprintf] in Hrun.
      unfold bind at 1 in Hrun.
      match type of Hrun with
      | context [copyimage E region ami r key_id key_secret ?w0] =>
          destruct (copyimage E region ami r key_id key_secret w0)
            as [[[toami|]| | |] w1] eqn:Hcopy; try discriminate
      end.
      apply copyimage_exchange in Hcopy.
      destruct Hcopy as (x & Hx1 & Himage).
      unfold bind in Hrun.
      destruct (copy_images E regions region ami key_id key_secret w1)
        as [[amis0| | |] w0] eqn:Hrest; try discriminate.
      injection Hrun as <- <-.
      destruct (IH _ _ _ Hrest) as (xs & Hx & Hcopied).
      exists (x :: xs). split; [|now split].
      change (x :: xs) with ([x] ++ xs)%list.
      apply exchanged_trans with w1; [|exact Hx].
      eapply exchanged_log_first. exact Hx1.
Qed.

End Copies.

(** Two regions: the image stays what it is at home and is copied to the
    other region. *)
Lemma copy_images_aligned_witness :
  let E := demo_env demo_keys 0 in
  let w := fresh_world
             [http_ok "<CopyImageResponse><imageId>ami-2</imageId></CopyImageResponse>"] in
  let r := copy_images E ["us-west-2"; "eu-west-1"] "us-west-2" "ami-1"
             "AKIDEXAMPLE" "wJalrXUtnFEMI" w in
  exists xs : list (request * option string),
    exchanged w (snd r) xs
    /\ copied "us-west-2" "ami-1" ["us-west-2"; "eu-west-1"]
         ["ami-1"; "ami-2"] xs.
Proof.
  intros E w r.
  apply (copy_images_aligned E "us-west-2" "ami-1" "AKIDEXAMPLE"
           "wJalrXUtnFEMI" ["us-west-2"; "eu-west-1"] w (snd r)
           ["ami-1"; "ami-2"]).
  vm_compute. reflexivity.
Defined.

(** ** What the upload sends *)

Section Done.

Variable E : env.
Variables fname region bucket key_id key_secret : string.

(** X14.  What [uploadvolume] has sent when it returns the manifest path:
    first the image, as the windows that the [<part>] elements of the
    manifest document list, one part after the other and each part between
    1 and 10 times, and nothing else of the image; and after all the parts
    the document itself, which names these ranges, the size of the image
    and the query strings the signer handed out. *)
Theorem uploadvolume_sends_manifest_ranges (fuel : nat) (w w' : world)
    (nonce : string) (f : disk_image) (L : Z) (path : string) (size : Z) :
  entropy_read E = Some nonce ->
  open_image E fname = Some f ->
  im_fstat f = Some L ->
  0 <= L < 2 ^ 63 - 2 ^ 30 ->
  uploadvolume E fuel fname region bucket key_id key_secret w
  = (Ret (Some (path, size)), w') ->
  exists (self_destruct : string) (volume_size count : Z)
         (parts : list ((Z * Z) * (string * string * string)))
         (part_rqs put_rqs : list request) (ks : list nat),
    sent w' = (sent w ++ part_rqs ++ put_rqs)%list
    /\ put_rqs <> []
    /\ Forall
         (fun rq =>
            rq_body rq
            = Mem (manifest_document bucket (hexify E nonce) self_destruct L
                     volume_size count parts))
         put_rqs
    /\ aws_sign_s3_querystr E w key_id key_secret region "DELETE" bucket
         path 604800 = Some self_destruct
    /\ Forall (presigned E key_id key_secret region bucket (hexify E nonce))
         parts
    /\ windows part_rqs = repeated (map fst parts) ks
    /\ List.length ks = List.length parts
    /\ Forall (fun k => (1 <= k <= 10)%nat) ks.
Proof.
  intros Hent Himg Hstat HL Hrun.
  destruct (uploadvolume_done E fname region bucket key_id key_secret fuel w
              w' nonce f L path size Hent Himg Hstat HL Hrun)
    as (query & parts & part_rqs & put_rqs & ks & _ & _ & Hquery & Hranges
        & Hsigned & Hsent & Hwin & Hks & Hall & Hne & Hput).
  exists query, (to_int32 ((L + 2 ^ 30 - 1) / 2 ^ 30)),
    ((L + PARTSZ - 1) / PARTSZ), parts, part_rqs, put_rqs, ks.
  split; [exact Hsent|]. split; [exact Hne|]. split; [exact Hput|].
  split; [exact Hquery|]. split; [exact Hsigned|].
  rewrite Hranges. split; [exact Hwin|]. split; [|exact Hall].
  rewrite <- (length_map fst parts), Hranges, ranges_from_length.
  exact Hks.
Qed.

(** X15.  The head of the manifest and what [uploadvolume] returns.  For an
    image of [L] bytes that fits a volume of less than 2^31 GiB, the
    document that is PUT last declares, in its [<size>] element, the size
    [L] and, in its [<volume-size>] element, the number of GiB that holds
    [L] bytes and not one GiB more; [uploadvolume] returns the path the
    document was PUT under and [L] as the size. *)
Theorem uploadvolume_declares_size (fuel : nat) (w w' : world)
    (nonce : string) (f : disk_image) (L : Z) (path : string) (size : Z) :
  entropy_read E = Some nonce ->
  open_image E fname = Some f ->
  im_fstat f = Some L ->
  0 <= L <= 2 ^ 61 - 2 ^ 30 ->
  uploadvolume E fuel fname region bucket key_id key_secret w
  = (Ret (Some (path, size)), w') ->
  exists (self_destruct : string) (gib count : Z)
         (parts : list ((Z * Z) * (string * string * string)))
         (earlier : list request) (rq : request),
    sent w' = (earlier ++ [rq])%list
    /\ rq_body rq
       = Mem (manifest_document bucket (hexify E nonce) self_destruct L gib
                count parts)
    /\ (gib - 1) * 2 ^ 30 < L <= gib * 2 ^ 30
    /\ aws_sign_s3_querystr E w key_id key_secret region "DELETE" bucket
         path 604800 = Some self_destruct
    /\ Forall (presigned E key_id key_secret region bucket (hexify E nonce))
         parts
    /\ path = "/" ++ hexify E nonce ++ "/manifest.xml"
    /\ size = L.
Proof.
  intros Hent Himg Hstat HL Hrun.
  destruct (uploadvolume_done E fname region bucket key_id key_secret fuel w
              w' nonce f L path size Hent Himg Hstat ltac:(lia) Hrun)
    as (query & parts & part_rqs & put_rqs & ks & Hpath & Hsize & Hquery & _
        & Hsigned & Hsent & _ & _ & _ & Hne & Hput).
  destruct (exists_last Hne) as (earlier & rq & ->).
  apply Forall_app in Hput. destruct Hput as [_ Hrq].
  apply Forall_inv in Hrq.
  assert (Hgib : 0 <= (L + 2 ^ 30 - 1) / 2 ^ 30 < 2 ^ 31).
  { split; [apply Z.div_pos; lia|].
    apply Z.div_lt_upper_bound; lia. }
  assert (Hvol : to_int32 ((L + 2 ^ 30 - 1) / 2 ^ 30)
                 = (L + 2 ^ 30 - 1) / 2 ^ 30).
  { unfold to_int32. rewrite Z.mod_small by lia. lia. }
  rewrite Hvol in Hrq.
  exists query, ((L + 2 ^ 30 - 1) / 2 ^ 30), ((L + PARTSZ - 1) / PARTSZ),
    parts, (sent w ++ part_rqs ++ earlier)%list, rq.
  split; [now rewrite Hsent, <- !app_assoc|].
  split; [exact Hrq|].
  split.
  { pose proof (Z.div_mod (L + 2 ^ 30 - 1) (2 ^ 30) ltac:(lia)) as Hdm.
    pose proof (Z.mod_pos_bound (L + 2 ^ 30 - 1) (2 ^ 30) ltac:(lia)) as Hmb.
    lia. }
  split; [exact Hquery|]. split; [exact Hsigned|]. split; assumption.
Qed.

End Done.

(** An image of [PARTSZ + 1] bytes whose second part is accepted at the
    second attempt. *)
Lemma uploadvolume_sends_manifest_ranges_witness :
  let E := demo_env demo_keys (PARTSZ + 1) in
  let w := fresh_world [http_ok ""; None; http_ok ""; http_ok ""] in
  let run := uploadvolume E 3 "disk.img" "us-west-2" "bucket" "AKIDEXAMPLE"
               "wJalrXUtnFEMI" w in
  let path := "/30313233343536373839616263646566/manifest.xml" in
  exists (self_destruct : string) (volume_size count : Z)
         (parts : list ((Z * Z) * (string * string * string)))
         (part_rqs put_rqs : list request) (ks : list nat),
    sent (snd run) = (sent w ++ part_rqs ++ put_rqs)%list
    /\ put_rqs <> []
    /\ Forall
         (fun rq =>
            rq_body rq
            = Mem (manifest_document "bucket"
                     "30313233343536373839616263646566" self_destruct
                     (PARTSZ + 1) volume_size count parts))
         put_rqs
    /\ aws_sign_s3_querystr E w "AKIDEXAMPLE" "wJalrXUtnFEMI" "us-west-2"
         "DELETE" "bucket" path 604800 = Some self_destruct
    /\ Forall (presigned E "AKIDEXAMPLE" "wJalrXUtnFEMI" "us-west-2" "bucket"
                 "30313233343536373839616263646566") parts
    /\ windows part_rqs = repeated (map fst parts) ks
    /\ List.length ks = List.length parts
    /\ Forall (fun k => (1 <= k <= 10)%nat) ks.
Proof.
  intros E w run path.
  apply (uploadvolume_sends_manifest_ranges E "disk.img" "us-west-2" "bucket"
           "AKIDEXAMPLE" "wJalrXUtnFEMI" 3 w (snd run) "0123456789abcdef"
           {| im_fstat := Some (PARTSZ + 1); im_fread := fun _ _ => true |}
           (PARTSZ + 1) path (PARTSZ + 1) eq_refl eq_refl eq_refl);
    [vm_compute; split; [discriminate | reflexivity]|].
  vm_compute. reflexivity.
Defined.

(** An image of one byte more than a part: a volume of 1 GiB. *)
Lemma uploadvolume_declares_size_witness :
  let L := PARTSZ + 1 in
  let E := demo_env demo_keys L in
  let w := fresh_world [http_ok ""; http_ok ""; http_ok ""] in
  let run := uploadvolume E 3 "disk.img" "us-west-2" "bucket" "AKIDEXAMPLE"
               "wJalrXUtnFEMI" w in
  let path := "/30313233343536373839616263646566/manifest.xml" in
  exists (self_destruct : string) (gib count : Z)
         (parts : list ((Z * Z) * (string * string * string)))
         (earlier : list request) (rq : request),
    sent (snd run) = (earlier ++ [rq])%list
    /\ rq_body rq
       = Mem (manifest_document "bucket" "30313233343536373839616263646566"
                self_destruct L gib count parts)
    /\ (gib - 1) * 2 ^ 30 < L <= gib * 2 ^ 30
    /\ aws_sign_s3_querystr E w "AKIDEXAMPLE" "wJalrXUtnFEMI" "us-west-2"
         "DELETE" "bucket" path 604800 = Some self_destruct
    /\ Forall (presigned E "AKIDEXAMPLE" "wJalrXUtnFEMI" "us-west-2" "bucket"
                 "30313233343536373839616263646566") parts
    /\ path = "/" ++ hexify E "0123456789abcdef" ++ "/manifest.xml"
    /\ L = L.
Proof.
  intros L E w run path.
  apply (uploadvolume_declares_size E "disk.img" "us-west-2" "bucket"
           "AKIDEXAMPLE" "wJalrXUtnFEMI" 3 w (snd run) "0123456789abcdef"
           {| im_fstat := Some L; im_fread := fun _ _ => true |}
           L path L eq_refl eq_refl eq_refl);
    [vm_compute; split; [discriminate | discriminate]|].
  vm_compute. reflexivity.
Defined.

(** ** The parts go first *)

Section PartsFirst.

Variable E : env.
Variables fname region bucket key_id key_secret : string.

Lemma carries_window (pos len : Z) (xs : list (request * option string)) :
  Forall (fun x => rq_body (fst x) = Img pos len) xs ->
  Forall (fun x => window (fst x) = Some (pos, pos + len - 1)) xs.
Proof.
  apply Forall_impl. intros x Hx. unfold window. now rewrite Hx.
Qed.

(** The exchanges of the part loop, however it ends: the uploads of the
    first parts, each accepted at its last request, and then, when the
    loop gave up on a part, the requests for that part. *)
Lemma upload_parts_exchanges (f : disk_image) (noncehex : string)
    (L : Z) (fuel : nat) :
  0 <= L < 2 ^ 63 ->
  forall (pos buflen : Z) (manifest : list manifest_item) (w : world),
    0 <= pos <= L ->
    (pos < L -> buflen = PARTSZ) ->
    let run := upload_parts E fuel f fname region bucket key_id key_secret
                 noncehex L pos buflen manifest w in
    exists (groups : list (list (request * option string)))
           (rest : list (request * option string)),
      exchanged w (snd run) (List.concat groups ++ rest)
      /\ Forall2 part_uploaded
           (firstn (List.length groups)
              (ranges_from L (parts_left L pos) pos)) groups
      /\ Forall (fun x => window (fst x) <> None) rest
      /\ (forall m', fst run = Ret (Some m') ->
          rest = [] /\ List.length groups = parts_left L pos).
Proof.
  intros HL. induction fuel as [|fuel IH];
    intros pos buflen manifest w Hpos Hbuf.
  - exists [], []. cbn. split; [apply exchanged_refl|].
    split; [constructor|]. split; [constructor | discriminate].
  - destruct (Z.lt_ge_cases pos L) as [Hlt | Hge].
    + rewrite (Hbuf Hlt). cbv zeta.
      destruct (upload_parts_round E f fname region bucket key_id key_secret
                  noncehex L HL fuel pos manifest w ltac:(lia))
        as (r & w2 & Hput & ->).
      destruct (s3_put_loop_exchanges E key_id key_secret region bucket
                  (part_path noncehex pos) (Img pos (part_len L pos))
                  (part_len L pos) (snd (eprintf "." w)))
        as (r' & w2' & xs & Hput' & Hx & Hlen & Hbody & Hres).
      rewrite Hput in Hput'. injection Hput' as <- <-.
      apply exchanged_log_first in Hx.
      apply carries_window in Hbody.
      destruct (negb (im_fread f pos (part_len L pos))).
      { exists [], []. cbn [List.concat app List.length firstn fst snd].
        split; [apply exchanged_log, exchanged_eprintf|].
        split; [constructor|]. split; [constructor | discriminate]. }
      destruct Hres as [(-> & refused & last & -> & Hrefused & Hlast)
                       | (-> & Hrefused)]; cbn [Z.eqb negb].
      2:{ exists [], xs. cbn [List.concat app List.length firstn fst snd].
          split; [now apply exchanged_log|].
          split; [constructor|].
          split; [|discriminate].
          eapply Forall_impl; [|exact Hbody].
          intros x Hwin. rewrite Hwin. discriminate. }
      assert (Hgroup : part_uploaded (pos, pos + part_len L pos - 1)
                         (refused ++ [last])).
      { exists refused, last. split; [reflexivity|].
        rewrite length_app in Hlen. cbn in Hlen. split; [lia|].
        apply Forall_app in Hbody. destruct Hbody as [Hb1 Hb2].
        apply Forall_inv in Hb2.
        split; [|split; assumption].
        apply Forall_forall. intros x Hin. split.
        - now apply (proj1 (Forall_forall _ _) Hb1).
        - now apply (proj1 (Forall_forall _ _) Hrefused). }
      assert (Hnext : 0 <= pos + part_len L pos <= L)
        by (unfold part_len; pose proof PARTSZ_pos; lia).
      assert (Hbuf' : pos + part_len L pos < L -> part_len L pos = PARTSZ)
        by (unfold part_len; lia).
      rewrite (parts_left_step L pos) by lia. cbn [ranges_from].
      assert (Hstop : exists (groups : list (list (request * option string)))
                             (rest : list (request * option string)),
                 exchanged w
                   (snd (Ret (@None (list manifest_item)),
                         snd (warnp "Error generating presigned URL" w2)))
                   (List.concat groups ++ rest)
                 /\ Forall2 part_uploaded
                      (firstn (List.length groups)
                         ((pos, pos + part_len L pos - 1)
                          :: ranges_from L
                               (parts_left L (pos + part_len L pos))
                               (pos + PARTSZ))) groups
                 /\ Forall (fun x => window (fst x) <> None) rest
                 /\ (forall m',
                       fst (Ret (@None (list manifest_item)),
                            snd (warnp "Error generating presigned URL" w2))
                       = Ret (Some m') ->
                       rest = []
                       /\ List.length groups
                          = S (parts_left L (pos + part_len L pos)))).
      { exists [(refused ++ [last])%list], [].
        cbn [List.concat app List.length firstn fst snd].
        rewrite !app_nil_r.
        split; [now apply exchanged_log|].
        split; [repeat constructor; exact Hgroup|].
        split; [constructor | discriminate]. }
      destruct (aws_sign_s3_querystr E w2 key_id key_secret region "HEAD"
                  bucket (part_path noncehex pos) 604800) as [q1|];
        [|exact Hstop].
      destruct (aws_sign_s3_querystr E w2 key_id key_secret region "GET"
                  bucket (part_path noncehex pos) 604800) as [q2|];
        [|exact Hstop].
      destruct (aws_sign_s3_querystr E w2 key_id key_secret region "DELETE"
                  bucket (part_path noncehex pos) 604800) as [q3|];
        [|exact Hstop].
      clear Hstop.
      destruct (IH (pos + part_len L pos) (part_len L pos)
                  (manifest ++ part_items bucket noncehex L pos q1 q2 q3)%list
                  w2 Hnext Hbuf')
        as (groups & rest & Hx' & Hgroups & Hrest & Hdone).
      assert (Hfrom : ranges_from L (parts_left L (pos + part_len L pos))
                        (pos + part_len L pos)
                      = ranges_from L (parts_left L (pos + part_len L pos))
                          (pos + PARTSZ)).
      { destruct (Z.eq_dec (pos + part_len L pos) L) as [Heq | Hne].
        - now rewrite (parts_left_end L (pos + part_len L pos)) by lia.
        - now rewrite Hbuf' by lia. }
      exists ((refused ++ [last])%list :: groups), rest.
      cbn [List.concat List.length firstn]. rewrite <- app_assoc.
      split; [exact (exchanged_trans _ _ _ _ _ Hx Hx')|].
      split; [constructor; [exact Hgroup | now rewrite <- Hfrom]|].
      split; [exact Hrest|].
      intros m' Hm'. destruct (Hdone m' Hm') as [-> ->]. now split.
    + cbn [upload_parts].
      destruct (Z.ltb_spec pos L) as [Hc | _]; [lia|].
      exists [], []. cbn [List.concat app List.length firstn fst snd ret].
      split; [apply exchanged_refl|]. split; [constructor|].
      split; [constructor|]. intros _ _.
      split; [reflexivity|]. now rewrite parts_left_end by lia.
Qed.

Lemma window_concat (groups : list (list (request * option string))) :
  forall ranges,
    Forall2 part_uploaded ranges groups ->
    Forall (fun x => window (fst x) <> None) (List.concat groups).
Proof.
  induction groups as [|g groups IH]; intros ranges H; [constructor|].
  inversion H as [|range g' ranges' groups' Hg Hrest]; subst.
  cbn [List.concat]. apply Forall_app. split; [|now apply IH with ranges'].
  destruct Hg as (refused & last & -> & _ & Hrefused & Hlast & _).
  apply Forall_app. split.
  - eapply Forall_impl; [|exact Hrefused].
    intros x [Hwin _]. rewrite Hwin. discriminate.
  - constructor; [|constructor]. rewrite Hlast. discriminate.
Qed.

(** X16.  The parts go first.  However a run of [uploadvolume] ends, for an
    image below [2^63 - 2^30] bytes, its exchanges are a row of requests
    that carry windows of the image, followed by a row of requests that
    carry none; and when the second row is not empty, that is, when the
    manifest has been sent at all, the first row is the upload of the whole
    image: for every part in its turn, up to 9 requests that the replies
    refused and then one request that the reply accepted.  The manifest is
    never sent before every part has been accepted. *)
Theorem uploadvolume_parts_first (fuel : nat) (w : world)
    (nonce : string) (f : disk_image) (L : Z) :
  entropy_read E = Some nonce ->
  open_image E fname = Some f ->
  im_fstat f = Some L ->
  0 <= L < 2 ^ 63 - 2 ^ 30 ->
  let w' := snd (uploadvolume E fuel fname region bucket key_id key_secret
                   w) in
  exists part_xs put_xs : list (request * option string),
    exchanged w w' (part_xs ++ put_xs)
    /\ Forall (fun x => window (fst x) <> None) part_xs
    /\ Forall (fun x => window (fst x) = None) put_xs
    /\ (put_xs <> [] ->
        exists groups : list (list (request * option string)),
          part_xs = List.concat groups
          /\ Forall2 part_uploaded (ranges_from L (parts_left L 0) 0)
               groups).
Proof.
  intros Hent Himg Hstat HL0. cbv zeta.
  assert (HL : 0 <= L < 2 ^ 63) by lia.
  destruct (uploadvolume E fuel fname region bucket key_id key_secret w)
    as [res wf] eqn:Hrun.
  cbn [snd].
  assert (Hnothing : exchanged w wf [] ->
            exists part_xs put_xs : list (request * option string),
              exchanged w wf (part_xs ++ put_xs)
              /\ Forall (fun x => window (fst x) <> None) part_xs
              /\ Forall (fun x => window (fst x) = None) put_xs
              /\ (put_xs <> [] ->
                  exists groups : list (list (request * option string)),
                    part_xs = List.concat groups
                    /\ Forall2 part_uploaded
                         (ranges_from L (parts_left L 0) 0) groups)).
  { intros Hx. exists [], []. split; [exact Hx|].
    split; [constructor|]. split; [constructor|].
    intros Hc. contradiction. }
  unfold uploadvolume in Hrun. rewrite Hent, Himg, Hstat in Hrun.
  unfold bind at 1 in Hrun. unfold presign at 1 in Hrun.
  unfold observe in Hrun.
  destruct (aws_sign_s3_querystr E w key_id key_secret region "DELETE" bucket
              ("/" ++ hexify E nonce ++ "/manifest.xml") 604800) as [query|];
    [|cbv [bind warnp eprintf ret] in Hrun; injection Hrun as <- <-;
      apply Hnothing, exchanged_eprintf].
  rewrite size_fits in Hrun by lia.
  clear Hnothing.
  unfold bind at 1 in Hrun. cbn [eprintf] in Hrun.
  unfold bind at 1 in Hrun.
  match type of Hrun with
  | context [upload_parts E fuel f fname region bucket key_id key_secret
               ?nh L 0 PARTSZ ?m ?w0] =>
      destruct (upload_parts_exchanges f nh L fuel HL 0 PARTSZ m w0
                  ltac:(lia) ltac:(reflexivity))
        as (groups & rest & Hx1 & Hgroups & Hrest & Hdone);
      destruct (upload_parts E fuel f fname region bucket key_id key_secret
                  nh L 0 PARTSZ m w0) as [[[m'|]| | |] w1] eqn:Hloop
  end; cbn [fst snd] in Hx1, Hdone.
  2-5: (cbv [ret] in Hrun; injection Hrun as <- <-;
        exists (List.concat groups ++ rest)%list, []; rewrite app_nil_r;
        split; [eapply exchanged_log_first; exact Hx1|];
        split; [apply Forall_app; split;
                [eapply window_concat; exact Hgroups | exact Hrest]|];
        split; [constructor | intros Hc; contradiction]).
  destruct (Hdone m' eq_refl) as [-> Hall]. rewrite app_nil_r in Hx1.
  rewrite Hall, firstn_all2 in Hgroups
    by (rewrite ranges_from_length; lia).
  unfold bind at 1 in Hrun. cbn [eprintf] in Hrun.
  unfold bind at 1 in Hrun. cbn [eprintf] in Hrun.
  unfold bind at 1 in Hrun.
  match type of Hrun with
  | context [s3_put_loop E key_id key_secret region bucket ?p ?b ?bl ?w0] =>
      destruct (s3_put_loop_exchanges E key_id key_secret region bucket p b
                  bl w0)
        as (r & w2 & xs & Hput & Hx2 & _ & Hbody & _)
  end.
  rewrite Hput in Hrun.
  assert (Hwf : exchanged w2 wf []).
  { destruct (negb (r =? 0)); cbv [bind eprintf ret] in Hrun;
      injection Hrun as <- <-;
      [apply exchanged_refl | apply exchanged_eprintf]. }
  exists (List.concat groups), xs.
  split.
  { eapply exchanged_log_first.
    apply (exchanged_trans _ _ _ _ _ Hx1).
    rewrite <- (app_nil_r xs).
    refine (exchanged_trans _ _ _ _ _ _ Hwf).
    do 2 eapply exchanged_log_first. exact Hx2. }
  split; [eapply window_concat; exact Hgroups|].
  split.
  { eapply Forall_impl; [|exact Hbody].
    intros x Hx. unfold window. now rewrite Hx. }
  intros _. now exists groups.
Qed.

End PartsFirst.

(** The first part of this image is refused once and accepted at the second
    request; the second part and the manifest are accepted at once. *)
Lemma uploadvolume_parts_first_witness :
  let E := demo_env demo_keys (PARTSZ + 1) in
  let w := fresh_world [None; http_ok ""; http_ok ""; http_ok ""] in
  let run := uploadvolume E 3 "disk.img" "us-west-2" "bucket" "AKIDEXAMPLE"
               "wJalrXUtnFEMI" w in
  fst run
  = Ret (Some ("/30313233343536373839616263646566/manifest.xml", PARTSZ + 1))
  /\ List.length (sent (snd run)) = 4%nat
  /\ exists part_xs put_xs : list (request * option string),
       exchanged w (snd run) (part_xs ++ put_xs)
       /\ Forall (fun x => window (fst x) <> None) part_xs
       /\ Forall (fun x => window (fst x) = None) put_xs
       /\ (put_xs <> [] ->
           exists groups : list (list (request * option string)),
             part_xs = List.concat groups
             /\ Forall2 part_uploaded
                  (ranges_from (PARTSZ + 1) (parts_left (PARTSZ + 1) 0) 0)
                  groups).
Proof.
  intros E w run.
  split; [vm_compute; reflexivity|].
  split; [vm_compute; reflexivity|].
  apply (uploadvolume_parts_first E "disk.img" "us-west-2" "bucket"
           "AKIDEXAMPLE" "wJalrXUtnFEMI" 3 w "0123456789abcdef"
           {| im_fstat := Some (PARTSZ + 1); im_fread := fun _ _ => true |}
           (PARTSZ + 1) eq_refl eq_refl eq_refl).
  vm_compute. split; [discriminate | reflexivity].
Defined.

(** ** How the stages end *)

Lemma calm_refl (w : world) : calm w w.
Proof.
  repeat split; try (exists []; rewrite app_nil_r; split; auto); lia.
Qed.

Lemma calm_trans (w1 w2 w3 : world) : calm w1 w2 -> calm w2 w3 -> calm w1 w3.
Proof.
  intros ((r1 & Hr1 & Hf1) & (o1 & Ho1 & Hg1) & (e1 & He1) & Hn1)
         ((r2 & Hr2 & Hf2) & (o2 & Ho2 & Hg2) & (e2 & He2) & Hn2).
  repeat split.
  - exists (r1 ++ r2)%list. rewrite Hr2, Hr1, app_assoc.
    split; [reflexivity | now apply Forall_app].
  - exists (o1 ++ o2)%list. rewrite Ho2, Ho1, app_assoc.
    split; [reflexivity | now apply Forall_app].
  - exists (e1 ++ e2)%list. now rewrite He2, He1, app_assoc.
  - lia.
Qed.

Lemma calm_stderr (w : world) (s : string) : calm w (snd (eprintf s w)).
Proof.
  repeat split; cbn.
  - exists []. rewrite app_nil_r. split; auto.
  - exists []. rewrite app_nil_r. split; auto.
  - now exists [s].
  - lia.
Qed.

Lemma calm_stdout (w : world) (s : string) :
  ami_line s = true -> calm w (snd (printf s w)).
Proof.
  intros Hs. repeat split; cbn.
  - exists []. rewrite app_nil_r. split; auto.
  - exists [s]. split; auto.
  - exists []. now rewrite app_nil_r.
  - lia.
Qed.

Lemma starved_calm (n : nat) (p u : Prop) (w w' : world) :
  calm w w' -> starved n p w' -> starved n p w.
Proof. intros (_ & _ & _ & Hnet) [Hn | Hp]; [left; lia | now right]. Qed.

Section Ends.

Context {A B : Type}.
Variable n : nat.
Variables p u : Prop.
Variable X : Z -> world -> Prop.

Lemma ends_ret (a : A) (R : A -> Prop) : R a -> ends n p u (ret a) R X.
Proof. intros Ha w. split; [apply calm_refl | exact Ha]. Qed.

Lemma ends_bind (m : M A) (k : A -> M B) (R1 : A -> Prop) (R2 : B -> Prop) :
  ends n p u m R1 X -> (forall a, R1 a -> ends n p u (k a) R2 X) ->
  ends n p u (bind m k) R2 X.
Proof.
  intros Hm Hk w. unfold bind. destruct (Hm w) as [Hc Hr].
  destruct (m w) as [[a|c| |] w1]; cbn [fst snd] in *.
  - destruct (Hk a Hr w1) as [Hc' Hr']. split; [now apply calm_trans with w1|].
    destruct (fst (k a w1)); try exact Hr'.
    now apply starved_calm with w1.
  - now split.
  - now split.
  - now split.
Qed.

Lemma ends_observe (f : world -> A) : ends n p u (observe f) (fun _ => True) X.
Proof. intros w. split; [apply calm_refl | exact I]. Qed.

(** A polling round: when the query returns a response, a reply is gone,
    and what follows may do with one unit of fuel less. *)
Lemma ends_bind_poll (m : M (option string)) (k : option string -> M B)
    (R : B -> Prop) :
  ends (S n) p u m (fun _ => True) X -> consumes m ->
  (forall b, ends n p u (k (Some b)) R X) ->
  ends (S n) p u (k None) R X ->
  ends (S n) p u (bind m k) R X.
Proof.
  intros Hm Hcons Hsome Hnone w. unfold bind. destruct (Hm w) as [Hc Hr].
  destruct (m w) as [[[b|]|c| |] w1] eqn:Hrun; cbn [fst snd] in *.
  - destruct (Hsome b w1) as [Hc' Hr'].
    split; [now apply calm_trans with w1|].
    destruct (fst (k (Some b) w1)); try exact Hr'.
    pose proof (Hcons w b w1 Hrun) as Hlt.
    destruct Hr' as [Hn | Hp]; [left; lia | now right].
  - destruct (Hnone w1) as [Hc' Hr'].
    split; [now apply calm_trans with w1|].
    destruct (fst (k None w1)); try exact Hr'.
    now apply starved_calm with w1.
  - now split.
  - now split.
  - now split.
Qed.

End Ends.

Lemma ends_out_of_fuel {A} (p u : Prop) (R : A -> Prop)
    (X : Z -> world -> Prop) : ends 0 p u out_of_fuel R X.
Proof. intros w. split; [apply calm_refl | left; lia]. Qed.

(** A computation that ends in this way whatever the fuel is said to be
    never runs out of fuel. *)
Lemma ends_any_fuel {A} (u : Prop) (m : M A) (R : A -> Prop)
    (X : Z -> world -> Prop) :
  (forall n p, ends n p u m R X) -> forall w, fst (m w) <> OutOfFuel.
Proof.
  intros Hm w Hout.
  destruct (Hm (S (List.length (net w))) False w) as [_ Hr].
  rewrite Hout in Hr. destruct Hr as [Hn | []]. lia.
Qed.

Lemma ends_undefined {A} (n : nat) (p u : Prop) (R : A -> Prop)
    (X : Z -> world -> Prop) : u -> ends n p u undefined R X.
Proof. intros Hu w. split; [apply calm_refl | exact Hu]. Qed.

Lemma ends_starved {A} (n : nat) (p u : Prop) (m : M A) (R : A -> Prop)
    (X : Z -> world -> Prop) :
  ends n True u m R X -> (forall w, fst (m w) = OutOfFuel -> p) ->
  ends n p u m R X.
Proof.
  intros Hm Hp w. destruct (Hm w) as [Hc Hr]. split; [exact Hc|].
  destruct (fst (m w)) eqn:Hf; try exact Hr. right. now apply (Hp w).
Qed.

Section Atoms.

Variable n : nat.
Variables p u : Prop.
Variable X : Z -> world -> Prop.

Lemma ends_eprintf (s : string) : ends n p u (eprintf s) (fun _ => True) X.
Proof. intros w. split; [apply calm_stderr | exact I]. Qed.

Lemma ends_printf (s : string) :
  ami_line s = true -> ends n p u (printf s) (fun _ => True) X.
Proof. intros Hs w. split; [now apply calm_stdout | exact I]. Qed.

Lemma ends_sleep (s : Z) : ends n p u (sleep s) (fun _ => True) X.
Proof.
  intros w. split; [|exact I].
  repeat split; cbn; try (exists []; rewrite app_nil_r; split; auto); lia.
Qed.

Lemma ends_sslreq (host port head : string) (body : buffer) (resplen : Z) :
  prefix "sns." host = false ->
  ends n p u (sslreq host port head body resplen) (fun _ => True) X.
Proof.
  intros Hhost w. split; [|exact I]. repeat split; cbn.
  - eexists. split; [reflexivity|]. repeat constructor. exact Hhost.
  - exists []. rewrite app_nil_r. split; auto.
  - exists []. now rewrite app_nil_r.
  - destruct (net w); cbn; lia.
Qed.

End Atoms.

Lemma ends_fail {A} (n : nat) (p u : Prop) (msg : string) (R : A -> Prop) :
  diagnostic msg = true -> ends n p u (warnp msg ;; exit 1) R main_exit.
Proof.
  intros Hmsg w. split; [apply calm_stderr|].
  cbv [bind warnp eprintf exit fst snd stderr main_exit]. left.
  split; [reflexivity|]. now rewrite last_last.
Qed.

Lemma ends_done {A} (n : nat) (p u : Prop) (line : string) (R : A -> Prop) :
  ami_line line = true -> ends n p u (printf line ;; exit 0) R main_exit.
Proof.
  intros Hline w. split; [now apply calm_stdout|].
  cbv [bind printf exit fst snd stdout main_exit]. right.
  split; [reflexivity|]. now rewrite last_last.
Qed.

Lemma diagnostic_copy (r : string) :
  diagnostic ("Error copying AMI to region " ++ r) = true.
Proof. unfold diagnostic. now rewrite prefix_append. Qed.

Lemma ami_line_created (r a : string) :
  ami_line ("Created AMI in " ++ r ++ " region: " ++ a ++ LF) = true.
Proof. apply prefix_append. Qed.

Create HintDb stage.

#[local] Hint Resolve ends_observe ends_eprintf ends_sleep : stage.
#[local] Hint Extern 1 (ends _ _ _ (ret _) _ _) =>
  apply ends_ret; first [exact I | reflexivity] : stage.
#[local] Hint Extern 1 (ends _ _ _ (warnp _) _ _) => apply ends_eprintf : stage.
#[local] Hint Extern 1 (ends _ _ _ (warn0 _) _ _) => apply ends_eprintf : stage.
#[local] Hint Extern 1 (ends _ _ _ (sslreq _ _ _ _ _) _ _) =>
  apply ends_sslreq; reflexivity : stage.
#[local] Hint Extern 1 (ends _ _ _ (printf _) _ _) =>
  apply ends_printf, ami_line_created : stage.

(** Walks through a computation, one bind or one case at a time. *)
Ltac stage :=
  repeat first
    [ progress cbv zeta
    | match goal with
      | |- ends _ _ _ (bind (warnp _) (fun _ => exit 1)) _ _ =>
          apply ends_fail; first [reflexivity | apply diagnostic_copy]
      | |- ends _ _ _ (bind (printf _) (fun _ => exit 0)) _ _ =>
          apply ends_done, ami_line_created
      end
    | solve [eauto with stage nocore]
    | match goal with
      | |- ends _ _ _ (bind _ _) _ _ => eapply ends_bind; [|intros ? _]
      | |- ends _ _ _ (match ?x with _ => _ end) _ _ => destruct x
      | |- ends _ _ _ (if ?b then _ else _) _ _ => destruct b
      end ].

(** One round of a polling loop: the query, then the rest with the fuel
    that is left. *)
Ltac poll query_ends query_consumes :=
  cbv zeta; eapply ends_bind_poll;
  [apply query_ends | apply query_consumes | intros ?; cbv beta iota; stage
  | cbv beta iota; stage].

Section Stages.

Variable E : env.
Variables p u : Prop.
Variable X : Z -> world -> Prop.

Lemma ends_s3_put (n : nat) (key_id key_secret region bucket path : string)
    (buf : buffer) (buflen : Z) :
  ends n p u (s3_put E key_id key_secret region bucket path buf buflen)
    (fun _ => True) X.
Proof.
  unfold s3_put. stage.
  apply ends_sslreq. now destruct (negb (region =? "us-east-1")%string).
Qed.

#[local] Hint Resolve ends_s3_put : stage.

Lemma ends_s3_put_tries (n : nat)
    (key_id key_secret region bucket path : string)
    (buf : buffer) (buflen : Z) (tries : nat) :
  forall i : Z,
    ends n p u
      (s3_put_tries E tries i key_id key_secret region bucket path buf buflen)
      (fun _ => True) X.
Proof.
  induction tries as [|tries IH]; intros i; cbn [s3_put_tries]; stage.
Qed.

Lemma ends_s3_put_loop (n : nat)
    (key_id key_secret region bucket path : string)
    (buf : buffer) (buflen : Z) :
  ends n p u (s3_put_loop E key_id key_secret region bucket path buf buflen)
    (fun _ => True) X.
Proof. apply ends_s3_put_tries. Qed.

Lemma ends_presign (n : nat)
    (key_id key_secret region method bucket path : string) :
  ends n p u (presign E key_id key_secret region method bucket path)
    (fun _ => True) X.
Proof. unfold presign. stage. Qed.

Lemma ends_ec2_apicall (n : nat) (key_id key_secret region s : string) :
  ends n p u (ec2_apicall E key_id key_secret region s) (fun _ => True) X.
Proof. unfold ec2_apicall. stage. Qed.

#[local] Hint Resolve ends_ec2_apicall : stage.

Lemma ends_ec2_apicall_tries (n : nat) (key_id key_secret region s : string)
    (tries : nat) :
  forall i : Z,
    ends n p u (ec2_apicall_tries E tries i key_id key_secret region s)
      (fun _ => True) X.
Proof.
  induction tries as [|tries IH]; intros i; cbn [ec2_apicall_tries]; stage.
Qed.

Lemma ends_ec2_apicall_loop (n : nat) (key_id key_secret region s : string) :
  ends n p u (ec2_apicall_loop E key_id key_secret region s) (fun _ => True) X.
Proof. apply ends_ec2_apicall_tries. Qed.

#[local] Hint Resolve ends_ec2_apicall_loop : stage.

Lemma ends_getregionlist (n : nat) (key_id key_secret region : string) :
  ends n p u (getregionlist E key_id key_secret region) (fun _ => True) X.
Proof.
  unfold getregionlist. stage.
Qed.

Lemma ends_importvolume (n : nat) (region bucket manifest : string)
    (size : Z) (key_id key_secret : string) :
  ends n p u (importvolume E region bucket manifest size key_id key_secret)
    (fun _ => True) X.
Proof.
  unfold importvolume. stage.
Qed.

Lemma ends_printstatus (n : nat) (prefix status : string)
    (laststatus : option string) :
  ends n p u (printstatus prefix status laststatus) (fun _ => True) X.
Proof. unfold printstatus. stage. Qed.

Lemma ends_createsnapshot (n : nat)
    (region volume key_id key_secret : string) :
  ends n p u (createsnapshot E region volume key_id key_secret)
    (fun _ => True) X.
Proof.
  unfold createsnapshot. stage.
Qed.

Lemma ends_deletevolume (n : nat) (region volume key_id key_secret : string) :
  ends n p u (deletevolume E region volume key_id key_secret)
    (fun _ => True) X.
Proof.
  unfold deletevolume. stage.
Qed.

Lemma ends_registerimage (n : nat)
    (region snapshot name desc arch : string)
    (sriov ena : bool) (key_id key_secret : string) :
  ends n p u (registerimage E region snapshot name desc arch sriov ena key_id
              key_secret) (fun _ => True) X.
Proof.
  unfold registerimage. stage.
Qed.

Lemma ends_copyimage (n : nat)
    (region ami toregion key_id key_secret : string) :
  ends n p u (copyimage E region ami toregion key_id key_secret)
    (fun _ => True) X.
Proof.
  unfold copyimage. stage.
Qed.

Lemma ends_makepublic (n : nat) (region ami key_id key_secret : string) :
  ends n p u (makepublic E region ami key_id key_secret) (fun _ => True) X.
Proof.
  unfold makepublic. stage.
Qed.

Lemma ends_makesnappublic (n : nat)
    (region snapshot key_id key_secret : string) :
  ends n p u (makesnappublic E region snapshot key_id key_secret)
    (fun _ => True) X.
Proof.
  unfold makesnappublic. stage.
Qed.

End Stages.

#[local] Hint Resolve ends_s3_put ends_s3_put_tries ends_s3_put_loop
  ends_presign ends_ec2_apicall ends_ec2_apicall_tries ends_ec2_apicall_loop
  ends_getregionlist ends_importvolume ends_printstatus ends_createsnapshot
  ends_deletevolume ends_registerimage ends_copyimage ends_makepublic
  ends_makesnappublic : stage.

(** *** The queries take replies off the transport *)

Section Consumes.

Variable E : env.
Variables key_id key_secret region s : string.

Lemma consumes_ec2_apicall :
  consumes (ec2_apicall E key_id key_secret region s).
Proof.
  intros w b w' Hrun. unfold ec2_apicall in Hrun.
  unfold bind at 1 in Hrun. unfold observe in Hrun.
  destruct (aws_sign_ec2_headers E w key_id key_secret region s)
    as [[[sha date] auth]|]; [|discriminate].
  unfold bind at 1 in Hrun. unfold sslreq at 1 in Hrun.
  destruct (net w) as [|[r|] rest]; try discriminate.
  destruct (negb _); [discriminate|].
  destruct (negb _); [discriminate|].
  destruct (strstr _ _); [|discriminate].
  apply (f_equal snd) in Hrun. cbn [snd] in Hrun. rewrite <- Hrun.
  cbn [net tl List.length snd ret]. lia.
Qed.

Lemma consumes_ec2_apicall_tries (tries : nat) :
  forall i : Z, consumes (ec2_apicall_tries E tries i key_id key_secret
                            region s).
Proof.
  induction tries as [|tries IH]; intros i w b w' Hrun; [discriminate|].
  destruct (ec2_apicall_run E key_id key_secret region s w)
    as (body & w1 & Hcall & _ & _).
  rewrite (ec2_apicall_tries_S E key_id key_secret region s tries i w w1
             body Hcall) in Hrun.
  destruct body as [b0|].
  - injection Hrun as <- <-. now apply (consumes_ec2_apicall w b0 w1).
  - apply IH in Hrun. cbn [snd eprintf net] in Hrun.
    destruct (ends_ec2_apicall E False True (fun _ _ => True) O key_id
                key_secret region s w) as [(_ & _ & _ & Hnet) _].
    rewrite Hcall in Hnet. cbn [snd] in Hnet. lia.
Qed.

Lemma consumes_ec2_apicall_loop :
  consumes (ec2_apicall_loop E key_id key_secret region s).
Proof. apply consumes_ec2_apicall_tries. Qed.

End Consumes.

(** *** The polling loops *)

Section Polls.

Variable E : env.
Variables p u : Prop.
Variable X : Z -> world -> Prop.

Lemma ends_waitforimport (region taskid key_id key_secret : string)
    (fuel : nat) :
  ends fuel p u (waitforimport E fuel region taskid key_id key_secret)
    (fun _ => True) X.
Proof.
  unfold waitforimport. generalize (@None string).
  induction fuel as [|fuel IH]; intros laststatus;
    [apply ends_out_of_fuel|].
  cbn [waitforimport_poll].
  poll ends_ec2_apicall_loop consumes_ec2_apicall_loop.
Qed.

Lemma ends_waitforsnapshot (region snapshot key_id key_secret : string)
    (fuel : nat) :
  ends fuel p u (waitforsnapshot E fuel region snapshot key_id key_secret)
    (fun _ => True) X.
Proof.
  induction fuel as [|fuel IH]; [apply ends_out_of_fuel|].
  cbn [waitforsnapshot].
  poll ends_ec2_apicall_loop consumes_ec2_apicall_loop.
Qed.

Lemma ends_waitforami (region ami key_id key_secret : string) (fuel : nat) :
  ends fuel p u (waitforami E fuel region ami key_id key_secret)
    (fun _ => True) X.
Proof.
  induction fuel as [|fuel IH]; [apply ends_out_of_fuel|].
  cbn [waitforami].
  poll ends_ec2_apicall_loop consumes_ec2_apicall_loop.
Qed.

End Polls.

#[local] Hint Resolve ends_waitforimport ends_waitforsnapshot
  ends_waitforami : stage.

(** *** The upload *)

Lemma ends_out_of_fuel_true {A} (n : nat) (u : Prop) (R : A -> Prop)
    (X : Z -> world -> Prop) : ends n True u out_of_fuel R X.
Proof. intros w. split; [apply calm_refl | now right]. Qed.

Lemma ends_lively {A} (n : nat) (p u : Prop) (m : M A) (R : A -> Prop)
    (X : Z -> world -> Prop) :
  ends n True u m R X -> (forall w, fst (m w) <> OutOfFuel) ->
  ends n p u m R X.
Proof.
  intros Hm Hlive w. destruct (Hm w) as [Hc Hr]. split; [exact Hc|].
  destruct (fst (m w)) eqn:Hf; try exact Hr. now destruct (Hlive w).
Qed.

Section Uploads.

Variable E : env.
Variable X : Z -> world -> Prop.
Variable n : nat.
Variable u : Prop.
Variables fname region bucket key_id key_secret : string.

Lemma ends_upload_parts (f : disk_image) (noncehex : string) (st_size : Z)
    (fuel : nat) :
  forall (pos buflen : Z) (manifest : list manifest_item),
    ends n True u
      (upload_parts E fuel f fname region bucket key_id key_secret
         noncehex st_size pos buflen manifest) (fun _ => True) X.
Proof.
  induction fuel as [|fuel IH]; intros pos buflen manifest;
    [apply ends_out_of_fuel_true|].
  cbn [upload_parts]. stage.
Qed.

#[local] Hint Resolve ends_upload_parts : stage.

Lemma ends_upload_parts_fits (p : Prop) (f : disk_image)
    (noncehex : string) (L : Z) (fuel : nat)
    (manifest : list manifest_item) :
  0 <= L < 2 ^ 63 -> (parts_left L 0 < fuel)%nat ->
  ends n p u
    (upload_parts E fuel f fname region bucket key_id key_secret
       noncehex L 0 PARTSZ manifest) (fun _ => True) X.
Proof.
  intros HL Hparts. apply ends_lively; [apply ends_upload_parts|].
  intros w.
  now apply (upload_parts_run E f fname region bucket key_id key_secret
               noncehex L HL fuel 0 PARTSZ manifest w); [lia | |].
Qed.

End Uploads.

Section Volumes.

Variable E : env.
Variable X : Z -> world -> Prop.
Variable n : nat.
Variables fname region bucket key_id key_secret : string.

(** [uploadvolume] up to the part loop: the size arithmetic is undefined
    only for an image that is too large. *)
Lemma ends_uploadvolume_with (p : Prop) (fuel : nat) :
  (forall f noncehex L manifest,
      open_image E fname = Some f -> im_fstat f = Some L ->
      ends n p (oversized E fname)
        (upload_parts E fuel f fname region bucket key_id key_secret
           noncehex L 0 PARTSZ manifest) (fun _ => True) X) ->
  ends n p (oversized E fname)
    (uploadvolume E fuel fname region bucket key_id key_secret)
    (fun _ => True) X.
Proof.
  intros Hparts. unfold uploadvolume.
  destruct (entropy_read E) as [nonce|]; [|stage].
  destruct (open_image E fname) as [f|] eqn:Hopen; [|stage].
  destruct (im_fstat f) as [L|] eqn:Hstat; [|stage].
  specialize (fun noncehex manifest =>
                Hparts f noncehex L manifest eq_refl Hstat).
  eapply ends_bind; [apply ends_presign | intros q _].
  destruct q as [query|]; [|stage].
  cbv zeta.
  destruct (negb _) eqn:Hover.
  - apply ends_undefined. exists f, L.
    split; [exact Hopen|]. split; [exact Hstat|].
    now apply size_overflows.
  - stage.
Qed.

(** With fuel for the parts of the image, [uploadvolume] does not run out
    of fuel. *)
Lemma ends_uploadvolume_fits (p : Prop) (fuel : nat) :
  image_fits E fuel fname ->
  ends n p (oversized E fname)
    (uploadvolume E fuel fname region bucket key_id key_secret)
    (fun _ => True) X.
Proof.
  intros Hfits. apply ends_uploadvolume_with.
  intros f noncehex L manifest Hopen Hstat.
  destruct (Hfits f L Hopen Hstat) as [HL Hparts].
  now apply ends_upload_parts_fits.
Qed.

Lemma ends_uploadvolume_true (fuel : nat) :
  ends n True (oversized E fname)
    (uploadvolume E fuel fname region bucket key_id key_secret)
    (fun _ => True) X.
Proof.
  apply ends_uploadvolume_with. intros. apply ends_upload_parts.
Qed.

End Volumes.

Lemma ends_uploadvolume (E : env) (X : Z -> world -> Prop) (n fuel : nat)
    (fname region bucket key_id key_secret : string) :
  ends n (~ image_fits E fuel fname) (oversized E fname)
    (uploadvolume E fuel fname region bucket key_id key_secret)
    (fun _ => True) X.
Proof.
  apply ends_starved; [apply ends_uploadvolume_true|].
  intros w Hout Hfits.
  refine (ends_any_fuel (oversized E fname) _ (fun _ => True)
            (fun _ _ => True) _ w Hout).
  intros n' p'. now apply ends_uploadvolume_fits.
Qed.

(** *** The key file *)

Section Keys.

Variable E : env.
Variable n : nat.
Variables p u : Prop.
Variable X : Z -> world -> Prop.

(** The line loop of [readkeys], with fuel above the length of the
    stream. *)
Lemma ends_readkeys_lines (fname : string) (ferr : bool) (fuel : nat) :
  forall (stream : string) (key_id key_secret : option string),
    ends n True u (readkeys_lines fuel fname ferr stream key_id key_secret)
      (fun _ => True) X.
Proof.
  induction fuel as [|fuel IH]; intros stream key_id key_secret;
    [apply ends_out_of_fuel_true|].
  cbn [readkeys_lines]. stage.
Qed.

Lemma ends_readkeys (fname : string) :
  ends n p u (readkeys E fname) (fun _ => True) X.
Proof.
  unfold readkeys. destruct (open_keyfile E fname) as [f|]; [|stage].
  eapply ends_bind; [|intros ? _; stage].
  apply ends_lively; [apply ends_readkeys_lines|].
  intros w. apply readkeys_lines_fuel. lia.
Qed.

End Keys.

#[local] Hint Resolve ends_readkeys ends_uploadvolume : stage.

(** ** Progress of the import *)

Section Progress.

Variable E : env.
Variables region taskid key_id key_secret : string.

Lemma import_query_quiet (w w1 : world) (r : result (option string)) :
  import_query E region taskid key_id key_secret w = (r, w1) -> quiet w w1.
Proof.
  unfold import_query. intros Hq.
  destruct (ec2_apicall_loop_quiet E key_id key_secret region
              ("Action=DescribeConversionTasks&" ++ "ConversionTaskId.1="
               ++ taskid ++ "&" ++ "Version=2014-09-01") w)
    as (body & w' & Hrun & Hquiet & _).
  rewrite Hrun in Hq. now injection Hq as _ <-.
Qed.

(** A round of the loop on a response that is not final. *)
Lemma waitforimport_round (fuel : nat) (laststatus : option string)
    (w w1 : world) (resp volume status : string) :
  import_query E region taskid key_id key_secret w = (Ret (Some resp), w1) ->
  xmlextract resp "volume" = Some volume ->
  xmlextract resp "statusMessage" = Some status ->
  import_final resp = false ->
  waitforimport_poll E (S fuel) region taskid key_id key_secret laststatus w
  = (last <- printstatus "Importing volume" status laststatus ;;
     sleep 10 ;;
     waitforimport_poll E fuel region taskid key_id key_secret last) w1.
Proof.
  unfold import_query, import_final. intros Hq Hvol Hst Hfinal.
  cbn [waitforimport_poll]. unfold bind at 1.
  rewrite Hq, Hvol, Hst. rewrite Hvol in Hfinal.
  destruct (strstr resp "<state>active</state>"); [reflexivity|].
  destruct (xmlextract volume "id"); [discriminate | reflexivity].
Qed.

(** What [printstatus] does with a status: it reports it as a line the
    first time and as a dot when it is the last one reported. *)
Lemma printstatus_report (status : string) (laststatus : option string)
    (w : world) :
  exists w',
    printstatus "Importing volume" status laststatus w
    = (Ret (Some status), w')
    /\ slept w' = slept w
    /\ dots w'
       = (dots w + match laststatus with
                   | Some l => if (l =? status)%string then 1 else 0
                   | None => 0
                   end)%nat.
Proof.
  unfold printstatus. destruct laststatus as [l|].
  - rewrite String.eqb_sym.
    destruct (String.eqb_spec l status) as [-> | Hne]; cbn [negb].
    + eexists. split; [reflexivity|]. split; [reflexivity|].
      unfold dots. cbn. rewrite count_occ_app. cbn. lia.
    + eexists. split; [reflexivity|]. split; [reflexivity|].
      unfold dots. cbn. rewrite !count_occ_app. cbn. lia.
  - eexists. split; [reflexivity|]. split; [reflexivity|].
    unfold dots. cbn. rewrite count_occ_app. cbn. lia.
Qed.

Lemma steady_polls_run (status : string) (n : nat) :
  forall (fuel : nat) (laststatus : option string) (w w1 : world),
    steady_polls E n region taskid key_id key_secret status laststatus w
    = Some w1 ->
    (n <= fuel)%nat ->
    waitforimport_poll E fuel region taskid key_id key_secret laststatus w
    = waitforimport_poll E (fuel - n) region taskid key_id key_secret
        (match n with O => laststatus | S _ => Some status end) w1
    /\ slept w1 = slept w + 10 * Z.of_nat n
    /\ dots w1
       = (dots w
          + match n, laststatus with
            | O, _ => 0
            | S n', Some l => (if (l =? status)%string then 1 else 0) + n'
            | S n', None => n'
            end)%nat.
Proof.
  induction n as [|n IH]; intros fuel laststatus w w1 Hpolls Hfuel.
  - injection Hpolls as <-. rewrite Nat.sub_0_r.
    repeat split; lia.
  - destruct fuel as [|fuel]; [lia|].
    cbn [steady_polls] in Hpolls.
    destruct (import_query E region taskid key_id key_secret w)
      as [[[resp|]| | |] w0] eqn:Hq; try discriminate.
    destruct (xmlextract resp "volume") as [volume|] eqn:Hvol;
      [|discriminate].
    destruct (xmlextract resp "statusMessage") as [s|] eqn:Hst;
      [|discriminate].
    destruct (import_final resp) eqn:Hfinal; [discriminate|].
    destruct (String.eqb_spec s status) as [-> | _]; [|discriminate].
    cbn [negb andb] in Hpolls.
    rewrite (waitforimport_round fuel laststatus w w0 resp volume status
               Hq Hvol Hst Hfinal).
    destruct (printstatus_report status laststatus w0)
      as (wp & Hprint & Hps & Hpd).
    rewrite Hprint in Hpolls. cbn [snd] in Hpolls.
    unfold bind at 1. rewrite Hprint. unfold bind at 1.
    change (sleep 10 wp) with (Ret tt, snd (sleep 10 wp)). cbv iota.
    destruct (IH fuel (Some status) _ w1 Hpolls ltac:(lia))
      as (Hrun & Hslept & Hdots).
    destruct (import_query_quiet w w0 _ Hq) as (Hd0 & Hs0 & _).
    cbn [Nat.sub]. split.
    + rewrite Hrun. now destruct n.
    + split.
      * rewrite Hslept. cbn [snd sleep slept]. rewrite Hps, Hs0. lia.
      * rewrite Hdots.
        change (dots (snd (sleep 10 wp))) with (dots wp).
        rewrite Hpd, Hd0, String.eqb_refl.
        destruct n, laststatus as [l|]; try destruct (l =? status)%string;
          lia.
Qed.

(** X17.  While the import answers with the same status message,
    [waitforimport] reports the message once, as a line, and then one dot for
    each further answer; it sleeps 10 seconds after every answer and goes on
    polling with that message as the last one reported. *)
Theorem waitforimport_same_status (status : string) (n fuel : nat)
    (w w1 : world) :
  steady_polls E (S n) region taskid key_id key_secret status None w
  = Some w1 ->
  (S n <= fuel)%nat ->
  waitforimport E fuel region taskid key_id key_secret w
  = waitforimport_poll E (fuel - S n) region taskid key_id key_secret
      (Some status) w1
  /\ slept w1 = slept w + 10 * Z.of_nat (S n)
  /\ dots w1 = (dots w + n)%nat
  /\ In ("Importing volume: " ++ status) (stderr w1).
Proof.
  intros Hpolls Hfuel.
  destruct (steady_polls_run status (S n) fuel None w w1 Hpolls Hfuel)
    as (Hrun & Hslept & Hdots).
  split; [exact Hrun|]. split; [exact Hslept|]. split; [exact Hdots|].
  clear Hrun Hslept Hdots.
  cbn [steady_polls] in Hpolls.
  destruct (import_query E region taskid key_id key_secret w)
    as [[[resp|]| | |] w0]; try discriminate.
  destruct (xmlextract resp "volume") as [volume|]; [|discriminate].
  destruct (xmlextract resp "statusMessage") as [s|]; [|discriminate].
  destruct (negb (import_final resp) && (s =? status)%string);
    [|discriminate].
  assert (Hgrow : forall k last wa wb,
             steady_polls E k region taskid key_id key_secret status last wa
             = Some wb ->
             forall line, In line (stderr wa) -> In line (stderr wb)).
  { induction k as [|k IHk]; intros last wa wb Hk line Hin.
    - now injection Hk as <-.
    - cbn [steady_polls] in Hk.
      destruct (import_query E region taskid key_id key_secret wa)
        as [[[resp'|]| | |] wa'] eqn:Hq'; try discriminate.
      destruct (xmlextract resp' "volume") as [volume'|]; [|discriminate].
      destruct (xmlextract resp' "statusMessage") as [s'|]; [|discriminate].
      destruct (negb (import_final resp') && (s' =? status)%string);
        [|discriminate].
      apply (IHk _ _ _ Hk).
      destruct (ends_ec2_apicall_loop E False True (fun _ _ => True) O key_id
                  key_secret region
                  ("Action=DescribeConversionTasks&" ++ "ConversionTaskId.1="
                   ++ taskid ++ "&" ++ "Version=2014-09-01") wa)
        as [(_ & _ & (lines & Herr) & _) _].
      unfold import_query in Hq'. rewrite Hq' in Herr. cbn [snd] in Herr.
      destruct (ends_printstatus False True (fun _ _ => True) O
                  "Importing volume" status last wa')
        as [(_ & _ & (lines' & Herr') & _) _].
      cbn [sleep snd stderr].
      rewrite Herr', Herr. apply in_or_app. left. apply in_or_app. now left. }
  apply (Hgrow _ _ _ _ Hpolls).
  cbn. apply in_or_app. right. now left.
Qed.

End Progress.

(** Three answers with the same message: the message, then two dots. *)
Lemma waitforimport_same_status_witness :
  let E := demo_env demo_keys 0 in
  let w := fresh_world [http_ok cancelled_task; http_ok cancelled_task;
                        http_ok cancelled_task] in
  let status := "ClientError: Disk validation failed" in
  exists w1 : world,
    waitforimport E 3 "us-west-2" "import-vol-1" "AKIDEXAMPLE"
      "wJalrXUtnFEMI" w
    = waitforimport_poll E 0 "us-west-2" "import-vol-1" "AKIDEXAMPLE"
        "wJalrXUtnFEMI" (Some status) w1
    /\ slept w1 = 30
    /\ dots w1 = 2%nat
    /\ In ("Importing volume: " ++ status) (stderr w1).
Proof.
  intros E w status.
  eexists.
  apply (waitforimport_same_status E "us-west-2" "import-vol-1"
           "AKIDEXAMPLE" "wJalrXUtnFEMI" status 2 3 w);
    [vm_compute; reflexivity | lia].
Defined.

(** ** Waiting for the image *)

Section Image.

Variable E : env.
Variables region ami key_id key_secret : string.

Lemma image_query_quiet (w w1 : world) (r : result (option string)) :
  image_query E region ami key_id key_secret w = (r, w1) -> quiet w w1.
Proof.
  unfold image_query. intros Hq.
  destruct (ec2_apicall_loop_quiet E key_id key_secret region
              ("Action=DescribeImages&" ++ "ImageId.1=" ++ ami
               ++ "&" ++ "Version=2014-09-01") w)
    as (body & w' & Hrun & Hquiet & _).
  rewrite Hrun in Hq. now injection Hq as _ <-.
Qed.

(** One round of the loop, by the state it observes. *)
Lemma waitforami_S (fuel : nat) (w w1 : world) (resp status : string) :
  image_query E region ami key_id key_secret w = (Ret (Some resp), w1) ->
  xmlextract resp "imageState" = Some status ->
  waitforami E (S fuel) region ami key_id key_secret w
  = if (status =? "available")%string then
      (Ret 0, snd (eprintf (" done." ++ LF) w1))
    else if (status =? "pending")%string then
      waitforami E fuel region ami key_id key_secret
        (snd (sleep 10 (snd (eprintf "." w1))))
    else
      (Ret (-1),
       snd (warnp ("Bad status from DescribeImages: " ++ status) w1)).
Proof.
  unfold image_query. intros Hq Hst.
  cbn [waitforami]. unfold bind at 1. rewrite Hq, Hst.
  destruct (status =? "available")%string; [reflexivity|].
  destruct (status =? "pending")%string; reflexivity.
Qed.

(** X18.  [waitforami] polls for as long as the image state is ["pending"] and
    decides at the first other state: after [n] pending answers and one answer
    with another [status] it returns 0 for ["available"] and -1, with a
    diagnostic, for anything else, be it a state of failure or one it does not
    know.  It has then slept 10 seconds for each pending answer, printed one
    dot for each, and sent nothing after the query that saw [status]. *)
Theorem waitforami_outcome (n fuel : nat) (w w1 w2 : world)
    (resp status : string) :
  pending_images E n region ami key_id key_secret w = Some w1 ->
  image_query E region ami key_id key_secret w1 = (Ret (Some resp), w2) ->
  xmlextract resp "imageState" = Some status ->
  status <> "pending" ->
  (n < fuel)%nat ->
  exists w' : world,
    waitforami E fuel region ami key_id key_secret w
    = (Ret (if (status =? "available")%string then 0 else -1), w')
    /\ stderr w'
       = (stderr w2
          ++ [if (status =? "available")%string then (" done." ++ LF)%string
              else ("Bad status from DescribeImages: " ++ status)%string])%list
    /\ sent w' = sent w2
    /\ slept w' = slept w + 10 * Z.of_nat n
    /\ dots w' = (dots w + n)%nat.
Proof.
  intros Hpoll Hq Hst Hnp Hfuel.
  destruct (image_query_quiet w1 w2 _ Hq) as (Hd2 & Hs2 & _).
  revert w fuel Hpoll Hfuel.
  induction n as [|n IH]; intros w fuel Hpoll Hfuel.
  - cbn in Hpoll. injection Hpoll as ->.
    destruct fuel as [|fuel]; [lia|].
    rewrite (waitforami_S fuel w1 w2 resp status Hq Hst).
    destruct (String.eqb_spec status "available") as [Hc | Hc];
      [|destruct (String.eqb_spec status "pending") as [Hp | Hp];
        [contradiction|]];
      (eexists; split; [reflexivity|];
       cbn [snd warnp eprintf stderr sent slept];
       repeat split; try lia;
       rewrite Nat.add_0_r, <- Hd2;
       eapply dots_log; [reflexivity | discriminate]).
  - destruct fuel as [|fuel]; [lia|].
    cbn [pending_images] in Hpoll.
    destruct (image_query E region ami key_id key_secret w)
      as [[[resp0|]| | |] w0] eqn:Hq0; try discriminate.
    destruct (xmlextract resp0 "imageState") as [status0|] eqn:Hst0;
      [|discriminate].
    destruct (String.eqb_spec status0 "pending") as [-> | Hp0];
      [|discriminate].
    rewrite (waitforami_S fuel w w0 resp0 "pending" Hq0 Hst0).
    cbn [String.eqb Ascii.eqb Bool.eqb].
    destruct (IH _ fuel Hpoll ltac:(lia))
      as (w' & Hrun & Herr & Hsent & Hslept & Hdots).
    exists w'. split; [exact Hrun|].
    split; [exact Herr|]. split; [exact Hsent|].
    destruct (image_query_quiet w w0 _ Hq0) as (Hd0 & Hs0 & _).
    split.
    + rewrite Hslept. cbn [snd sleep eprintf slept]. rewrite Hs0. lia.
    + rewrite Hdots. unfold dots at 1. cbn [snd sleep eprintf stderr].
      rewrite count_occ_app. cbn. fold (dots w0). rewrite Hd0. lia.
Qed.

End Image.

(** An image that is pending once and then has failed. *)
Lemma waitforami_outcome_witness :
  let E := demo_env demo_keys 0 in
  let answer state :=
    http_ok ("<DescribeImagesResponse><imagesSet><item>"
             ++ "<imageId>ami-1</imageId><imageState>" ++ state
             ++ "</imageState></item></imagesSet></DescribeImagesResponse>") in
  let w := fresh_world [answer "pending"; answer "failed"] in
  exists w' : world,
    waitforami E 2 "us-west-2" "ami-1" "AKIDEXAMPLE" "wJalrXUtnFEMI" w
    = (Ret (-1), w')
    /\ last (stderr w') "" = "Bad status from DescribeImages: failed"
    /\ List.length (sent w') = 2%nat
    /\ slept w' = 10
    /\ dots w' = 1%nat.
Proof.
  intros E answer w.
  edestruct (waitforami_outcome E "us-west-2" "ami-1" "AKIDEXAMPLE"
               "wJalrXUtnFEMI" 1 2 w)
    as (w' & Hrun & Herr & Hsent & Hslept & Hdots);
    [lazy; reflexivity | lazy; reflexivity | lazy; reflexivity
     | discriminate | lia |].
  exists w'. split; [exact Hrun|].
  split; [rewrite Herr; vm_compute; reflexivity|].
  split; [rewrite Hsent; vm_compute; reflexivity|].
  split; [rewrite Hslept; vm_compute; reflexivity|].
  rewrite Hdots. vm_compute. reflexivity.
Defined.


(** ** The notification message *)

Lemma sns_message_regions_from (name : string) (regions amis : list string) :
  forall (done_regions done_amis : list string),
    List.length regions = List.length amis ->
    List.length done_regions = List.length done_amis ->
    sns_message_regions (List.length regions) (List.length done_regions)
      (List.length done_regions + List.length regions) name
      (done_regions ++ regions) (done_amis ++ amis)
    = comma_separated
        (map (fun ra => region_entry name (fst ra) (snd ra))
           (combine regions amis)).
Proof.
  revert amis.
  induction regions as [|r regions IH];
    intros [|a amis] done_regions done_amis Hlen Hdone; try discriminate.
  - reflexivity.
  - cbn [List.length] in Hlen. injection Hlen as Hlen.
    cbn [List.length sns_message_regions combine map fst snd].
    rewrite (app_nth2 done_regions) by lia.
    rewrite (app_nth2 done_amis) by lia.
    rewrite Hdone at 3. rewrite !Nat.sub_diag. cbn [nth].
    specialize (IH amis (done_regions ++ [r])%list (done_amis ++ [a])%list
                  Hlen).
    rewrite !length_app, <- !app_assoc in IH. cbn [List.length app] in IH.
    replace (List.length done_regions + S (List.length regions))%nat
      with (List.length done_regions + 1 + List.length regions)%nat by lia.
    replace (S (List.length done_regions))
      with (List.length done_regions + 1)%nat by lia.
    rewrite IH by lia.
    unfold region_entry.
    destruct regions as [|r' regions], amis as [|a' amis];
      try discriminate.
    + replace (List.length done_regions
               =? List.length done_regions + 1 + List.length [] - 1)%nat
        with true by (symmetry; apply Nat.eqb_eq; cbn; lia).
      cbn [negb combine map comma_separated].
      now rewrite !append_assoc.
    + replace (List.length done_regions
               =? List.length done_regions + 1
                  + List.length (r' :: regions) - 1)%nat
        with false by (symmetry; apply Nat.eqb_neq; cbn; lia).
      cbn [negb combine map comma_separated].
      now rewrite !append_assoc.
Qed.

(** X19.  The [Regions] object of the notification lists one entry for each
    region, in the order of the regions and with the image of that region; two
    entries are separated by a comma and no comma follows the last one, so
    that the object is closed properly whatever the number of regions. *)
Theorem sns_message_regions_entries (name : string)
    (regions amis : list string) :
  List.length regions = List.length amis ->
  sns_message_regions (List.length regions) 0 (List.length regions) name
    regions amis
  = comma_separated
      (map (fun ra => region_entry name (fst ra) (snd ra))
         (combine regions amis)).
Proof.
  intros Hlen.
  exact (sns_message_regions_from name regions amis [] [] Hlen eq_refl).
Qed.

Lemma sns_message_regions_entries_witness :
  sns_message_regions 2 0 2 "FreeBSD" ["us-west-2"; "eu-west-1"]
    ["ami-1"; "ami-2"]
  = region_entry "FreeBSD" "us-west-2" "ami-1" ++ "," ++ LF
    ++ region_entry "FreeBSD" "eu-west-1" "ami-2" ++ LF.
Proof.
  exact (sns_message_regions_entries "FreeBSD" ["us-west-2"; "eu-west-1"]
           ["ami-1"; "ami-2"] eq_refl).
Defined.

(** ** Key files with carriage returns *)

(** [fgets] reads up to the newline whatever else the line holds. *)
Lemma fgets_split_line (l rest : string) :
  forall n : nat,
    strcspn l (LF ++ String zero EmptyString) = String.length l ->
    (String.length l < n)%nat ->
    fgets_split n (l ++ LF ++ rest) = (l ++ LF, rest).
Proof.
  change (LF ++ String zero EmptyString)
    with (String "010"%char (String zero EmptyString)).
  induction l as [|c l IH]; intros n Hl Hn.
  - destruct n as [|n]; [cbn in Hn; lia | reflexivity].
  - destruct n as [|n]; [cbn in Hn; lia|].
    cbn [strcspn mem String.length] in Hl.
    destruct (Ascii.eqb c "010") eqn:Hlf; [discriminate|].
    destruct (Ascii.eqb c zero); [discriminate|].
    cbn [orb] in Hl. injection Hl as Hl.
    cbn [append fgets_split]. rewrite Hlf.
    change (l ++ String "010" rest) with (l ++ LF ++ rest).
    rewrite IH by (cbn in Hn; auto; lia). reflexivity.
Qed.

Lemma cstr_no_nul (l r : string) :
  strcspn l (LF ++ String zero EmptyString) = String.length l ->
  cstr (l ++ r) = l ++ cstr r.
Proof.
  change (LF ++ String zero EmptyString)
    with (String "010"%char (String zero EmptyString)).
  induction l as [|c l IH]; intros Hl; [reflexivity|].
  cbn [strcspn mem String.length] in Hl.
  destruct (Ascii.eqb c "010"); [discriminate|].
  destruct (Ascii.eqb c zero) eqn:Hz; [discriminate|].
  cbn [orb] in Hl. injection Hl as Hl.
  cbn [append cstr]. now rewrite Hz, IH.
Qed.

Lemma plain_line_no_nul (l : string) :
  plain_line l ->
  strcspn l (LF ++ String zero EmptyString) = String.length l
  /\ strcspn l (CR ++ LF) = String.length l.
Proof.
  induction l as [|c l IH]; intros Hl; [split; reflexivity|].
  apply plain_line_cons in Hl. destruct Hl as (Hcr & Hlf & Hz & Hl).
  destruct (IH Hl) as [IH1 IH2].
  change (LF ++ String zero EmptyString)
    with (String "010"%char (String zero EmptyString)) in *.
  change (CR ++ LF) with (String "013"%char (String "010"%char EmptyString))
    in *.
  cbn [strcspn mem String.length]. rewrite Hcr, Hlf, Hz. cbn [orb].
  now rewrite IH1, IH2.
Qed.

Lemma strcspn_no_nul_app (a b : string) :
  strcspn a (LF ++ String zero EmptyString) = String.length a ->
  strcspn b (LF ++ String zero EmptyString) = String.length b ->
  strcspn (a ++ b) (LF ++ String zero EmptyString)
  = String.length (a ++ b).
Proof.
  intros Ha Hb. induction a as [|c a IH]; [exact Hb|].
  cbn [append strcspn String.length] in *.
  destruct (mem c _); [discriminate|].
  injection Ha as Ha. now rewrite IH.
Qed.

(** One round of the line loop on a line that holds a CR: the line is cut
    at the CR, and the round goes on as it does for the line without what
    follows the CR. *)
Lemma readkeys_lines_cr_line (fname l after rest : string) (fuel : nat)
    (key_id key_secret : option string) (w : world) :
  cr_line (l, after) ->
  readkeys_lines (S fuel) fname false (l ++ CR ++ after ++ LF ++ rest) key_id
    key_secret w
  = match strchr l "="%char with
    | None =>
        (warn0 ("Lines in " ++ fname
                ++ " must be ACCESS_KEY_(ID|SECRET)=...") ;; ret None) w
    | Some q =>
        if (take q l =? "ACCESS_KEY_ID")%string then
          match key_id with
          | Some _ => (warn0 "ACCESS_KEY_ID specified twice" ;; ret None) w
          | None =>
              readkeys_lines fuel fname false rest (Some (drop (S q) l)) key_secret
                w
          end
        else if (take q l =? "ACCESS_KEY_SECRET")%string then
          match key_secret with
          | Some _ =>
              (warn0 "ACCESS_KEY_SECRET specified twice" ;; ret None) w
          | None =>
              readkeys_lines fuel fname false rest key_id (Some (drop (S q) l)) w
          end
        else
          (warn0 ("Lines in " ++ fname
                  ++ " must be ACCESS_KEY_(ID|SECRET)=...") ;; ret None) w
    end.
Proof.
  intros (Hl & Hafter & Hlen). cbn [fst snd] in *.
  destruct (plain_line_no_nul l Hl) as [Hnul Heol].
  assert (Hphys : strcspn (l ++ CR ++ after)
                    (LF ++ String zero EmptyString)
                  = String.length (l ++ CR ++ after))
    by (apply strcspn_no_nul_app; [exact Hnul|];
        apply (strcspn_no_nul_app CR); [reflexivity | exact Hafter]).
  assert (Hgets : fgets 1024 false (l ++ CR ++ after ++ LF ++ rest)
                  = Some ((l ++ CR ++ after) ++ LF, rest)).
  { unfold fgets. cbn [andb].
    replace (l ++ CR ++ after ++ LF ++ rest)
      with ((l ++ CR ++ after) ++ LF ++ rest)
      by now rewrite !append_assoc.
    rewrite fgets_split_line;
      [| exact Hphys
       | rewrite !length_append; change (1024 - 1)%nat with 1023%nat;
         cbn [String.length CR]; lia].
    now destruct l. }
  cbn [readkeys_lines]. rewrite Hgets. cbv zeta.
  rewrite (cstr_no_nul _ LF Hphys).
  change (cstr LF) with LF.
  replace ((l ++ CR ++ after) ++ LF)
    with (l ++ String "013"%char (after ++ LF))
    by now rewrite !append_assoc.
  rewrite (strcspn_app (CR ++ LF) l "013" (after ++ LF) Heol eq_refl).
  replace (String.length l
           =? String.length (l ++ String "013"%char (after ++ LF)))%nat
    with false
    by (symmetry; apply Nat.eqb_neq; rewrite length_append; cbn; lia).
  rewrite take_append.
  destruct (strchr l "=") as [q|]; [|reflexivity].
  destruct (take q l =? "ACCESS_KEY_ID")%string; [now destruct key_id|].
  destruct (take q l =? "ACCESS_KEY_SECRET")%string; [now destruct key_secret|].
  reflexivity.
Qed.

Lemma readkeys_lines_cr (fname : string) (lines : list (string * string)) :
  forall (fuel : nat) (key_id key_secret : option string) (w : world),
    Forall cr_line lines ->
    (String.length (unlines_cr lines) < fuel)%nat ->
    fst (readkeys_lines fuel fname false (unlines_cr lines) key_id key_secret w)
    = Ret (if forallb is_key_line (map fst lines) then
             match
               one_key key_id (values_of "ACCESS_KEY_ID" (map fst lines)),
               one_key key_secret
                 (values_of "ACCESS_KEY_SECRET" (map fst lines))
             with
             | Some id, Some secret => Some (id, secret, false)
             | _, _ => None
             end
           else None).
Proof.
  induction lines as [|[l after] ls IH];
    intros fuel key_id key_secret w Hplain Hfuel.
  - destruct fuel as [|fuel]; [cbn in Hfuel; lia|].
    cbn. now destruct key_id, key_secret.
  - destruct fuel as [|fuel]; [lia|].
    apply Forall_cons_iff in Hplain. destruct Hplain as [Hl Hls].
    cbn [unlines_cr] in *. rewrite !length_append in Hfuel.
    change (String.length CR) with 1%nat in Hfuel.
    change (String.length LF) with 1%nat in Hfuel.
    rewrite (readkeys_lines_cr_line fname l after _ fuel key_id key_secret w
               Hl).
    pose proof (readkeys_line_forms l) as Hforms.
    cbn [map fst forallb values_of]. unfold is_key_line.
    destruct (strchr l "=") as [q|].
    + destruct (take q l =? "ACCESS_KEY_ID")%string.
      * destruct Hforms as [-> ->].
        destruct key_id as [x|].
        -- rewrite one_key_twice. cbn. now destruct (forallb _ _).
        -- rewrite one_key_later. cbn [andb].
           apply IH; [exact Hls | lia].
      * destruct (take q l =? "ACCESS_KEY_SECRET")%string.
        -- destruct Hforms as [-> ->].
           destruct key_secret as [x|].
           ++ rewrite one_key_twice. cbn.
              destruct (forallb _ _); [|reflexivity].
              now destruct (one_key key_id _).
           ++ rewrite one_key_later. cbn [andb].
              apply IH; [exact Hls | lia].
        -- destruct Hforms as [-> ->]. reflexivity.
    + destruct Hforms as [-> ->]. reflexivity.
Qed.

(** X20.  [readkeys] cuts every line at its first CR: a key file with CR LF
    line endings gives what the same lines give with LF endings, and so does a
    file that has any bytes at all between the CR and the newline; they are
    dropped without a warning.  The lines are taken to fit the line buffer,
    and the file to open, read and close without error. *)
Theorem readkeys_cuts_at_cr (E : env) (fname : string) (f : key_file)
    (lines : list (string * string)) (w : world) :
  open_keyfile E fname = Some f ->
  kf_bytes f = unlines_cr lines ->
  Forall cr_line lines ->
  kf_ferror f = false ->
  kf_fclose_fails f = false ->
  fst (readkeys E fname w) = Ret (keys_of (map fst lines)).
Proof.
  intros Hopen Hbytes Hplain Herr Hclose.
  unfold readkeys. rewrite Hopen, Hbytes, Herr. unfold bind at 1.
  pose proof (readkeys_lines_cr fname lines
                (S (String.length (unlines_cr lines))) None None w Hplain
                ltac:(lia)) as Hlines.
  destruct (readkeys_lines _ fname false (unlines_cr lines) None None w)
    as [r w'].
  cbn [fst] in Hlines. subst r. unfold keys_of.
  destruct (forallb is_key_line (map fst lines)); [|reflexivity].
  rewrite Hclose.
  destruct (values_of "ACCESS_KEY_ID" (map fst lines)) as [|id [|id' ids]];
    destruct (values_of "ACCESS_KEY_SECRET" (map fst lines))
      as [|sec [|sec' secs]];
    reflexivity.
Qed.

(** The two keys with CR LF line endings, the second line with a remark
    after its CR. *)
Lemma readkeys_cuts_at_cr_witness :
  let lines := [("ACCESS_KEY_ID=AKIDEXAMPLE", "");
                ("ACCESS_KEY_SECRET=wJalrXUtnFEMI", " # rotated")] in
  fst (readkeys (demo_env (unlines_cr lines) 0) "aws.keys" (fresh_world []))
  = Ret (Some ("AKIDEXAMPLE", "wJalrXUtnFEMI")).
Proof.
  intros lines.
  apply (readkeys_cuts_at_cr (demo_env (unlines_cr lines) 0) "aws.keys"
           {| kf_bytes := unlines_cr lines; kf_ferror := false;
              kf_fclose_fails := false |} lines (fresh_world []));
    try reflexivity.
  repeat constructor; cbn; lia.
Defined.

(** ** The command line *)

Lemma parse_flags_app (fs rest : list string) :
  forallb is_flag fs = true ->
  no_flag_first rest = true ->
  forall fl : flags,
    parse_flags (fs ++ rest) fl
    = ({| public := public fl || given "--public" fs;
          publicsnap := publicsnap fl || given "--publicsnap" fs;
          sriov := sriov fl || given "--sriov" fs;
          ena := ena fl || given "--ena" fs;
          arch := if given "--arm64" fs then "arm64" else arch fl |},
       rest).
Proof.
  intros Hfs Hrest. induction fs as [|a fs IH]; intros fl.
  - cbn [app given existsb]. rewrite !orb_false_r.
    destruct fl. destruct rest as [|a rest]; [reflexivity|].
    cbn [no_flag_first is_flag existsb] in Hrest.
    cbn [parse_flags].
    destruct (a =? "--public")%string; [discriminate|].
    destruct (a =? "--publicsnap")%string; [discriminate|].
    destruct (a =? "--sriov")%string; [discriminate|].
    destruct (a =? "--ena")%string; [discriminate|].
    destruct (a =? "--arm64")%string; [discriminate|].
    reflexivity.
  - cbn [forallb] in Hfs. apply andb_prop in Hfs as [Ha Hfs].
    specialize (IH Hfs).
    cbn [app parse_flags given existsb].
    cbn [is_flag existsb] in Ha.
    destruct (String.eqb_spec a "--public") as [-> | _];
      [rewrite IH; cbn; now rewrite !orb_true_r|].
    destruct (String.eqb_spec a "--publicsnap") as [-> | _];
      [rewrite IH; cbn; now rewrite !orb_true_r|].
    destruct (String.eqb_spec a "--sriov") as [-> | _];
      [rewrite IH; cbn; now rewrite !orb_true_r|].
    destruct (String.eqb_spec a "--ena") as [-> | _];
      [rewrite IH; cbn; now rewrite !orb_true_r|].
    destruct (String.eqb_spec a "--arm64") as [-> | _];
      [|discriminate].
    rewrite IH. cbn. now destruct (given "--arm64" fs).
Qed.

(** X21.  The flags are the words before the first word that is not one of the
    five flags: each flag is set exactly when its word is among them, in any
    order and any number of times, and whatever comes from the first other
    word on is a positional argument, also a word that looks like a flag. *)
Theorem parse_flags_leading (fs rest : list string) :
  forallb is_flag fs = true ->
  no_flag_first rest = true ->
  parse_flags (fs ++ rest) no_flags
  = ({| public := given "--public" fs;
        publicsnap := given "--publicsnap" fs;
        sriov := given "--sriov" fs;
        ena := given "--ena" fs;
        arch := if given "--arm64" fs then "arm64" else "x86_64" |},
     rest).
Proof.
  intros Hfs Hrest. now rewrite (parse_flags_app fs rest Hfs Hrest).
Qed.

Lemma parse_flags_leading_witness :
  parse_flags (["--ena"; "--public"; "--ena"] ++ ["disk.img"; "--arm64"])
    no_flags
  = ({| public := true; publicsnap := false; sriov := false; ena := true;
        arch := "x86_64" |},
     ["disk.img"; "--arm64"]).
Proof.
  apply (parse_flags_leading ["--ena"; "--public"; "--ena"]
           ["disk.img"; "--arm64"]); reflexivity.
Defined.

(** X22.  With a number of positional arguments other than 6 or 9, [main]
    prints the usage text and ends the process with status 1; it has not
    opened a file, sent a request or printed anything else by then. *)
Theorem main_usage (E : env) (fuel : nat) (prog : string)
    (fs rest : list string) (w : world) :
  forallb is_flag fs = true ->
  no_flag_first rest = true ->
  List.length rest <> 6%nat ->
  List.length rest <> 9%nat ->
  main E fuel (prog :: fs ++ rest) w = (Exit 1, snd (eprintf usage w)).
Proof.
  intros Hfs Hrest H6 H9. unfold main. cbn [tl].
  rewrite (parse_flags_app fs rest Hfs Hrest).
  destruct (Nat.eqb_spec (1 + List.length rest) 7) as [Hc | _]; [lia|].
  destruct (Nat.eqb_spec (1 + List.length rest) 10) as [Hc | _]; [lia|].
  reflexivity.
Qed.

Lemma main_usage_witness :
  main (demo_env demo_keys 0) 0
    ("bsdec2-image-upload" :: ["--public"] ++ ["disk.img"; "name"])
    (fresh_world [])
  = (Exit 1, snd (eprintf usage (fresh_world []))).
Proof.
  apply (main_usage (demo_env demo_keys 0) 0 "bsdec2-image-upload"
           ["--public"] ["disk.img"; "name"] (fresh_world []));
    try reflexivity; cbn; lia.
Defined.


(** ** How [main] ends *)

Section Main.

Variable E : env.
Variables p u : Prop.

Lemma ends_copy_images (n : nat) (region ami key_id key_secret : string)
    (regions : list string) :
  ends n p u (copy_images E regions region ami key_id key_secret)
    (fun _ => True) main_exit.
Proof.
  induction regions as [|r regions IH]; cbn [copy_images]; stage.
Qed.

Lemma ends_wait_copies (region key_id key_secret : string) (fuel : nat)
    (regions : list string) :
  forall amis : list string,
    ends fuel p u (wait_copies E fuel regions amis region key_id key_secret)
      (fun _ => True) main_exit.
Proof.
  induction regions as [|r regions IH]; intros [|a amis];
    cbn [wait_copies]; stage.
Qed.

Lemma ends_make_all_public (n : nat) (key_id key_secret : string)
    (regions : list string) :
  forall amis : list string,
    ends n p u (make_all_public E regions amis key_id key_secret)
      (fun _ => True) main_exit.
Proof.
  induction regions as [|r regions IH]; intros [|a amis];
    cbn [make_all_public]; stage.
Qed.

Lemma ends_print_amis (n : nat) (X : Z -> world -> Prop)
    (regions : list string) :
  forall amis : list string,
    ends n p u (print_amis regions amis) (fun _ => True) X.
Proof.
  induction regions as [|r regions IH]; intros [|a amis];
    cbn [print_amis]; stage.
Qed.

End Main.

#[local] Hint Resolve ends_copy_images ends_wait_copies ends_make_all_public
  ends_print_amis : stage.

(** The stages of [main] before the notification.  They hand over to the
    notification only when [--public] was given, and they run out of fuel
    only when the fuel is not above the number of replies or not above the
    number of parts of the image. *)
Lemma ends_main_stages (E : env) (fuel : nat) (fl : flags)
    (args : list string) :
  ends fuel (~ image_fits E fuel (nth 0 args ""))
    (oversized E (nth 0 args ""))
    (main_stages E fuel fl args) (fun _ => public fl = true) main_exit.
Proof.
  unfold main_stages. destruct (public fl); cbn [negb]; stage.
Qed.


Section Whole.

Variable E : env.

(** [sns_publish] returns 0 or -1 and leaves stdout alone; it has no
    defined behaviour only for a topic that [sns_region] cannot read. *)
Lemma sns_publish_run (key_id key_secret topicarn rv iv name : string)
    (n : nat) (regions amis : list string) (w : world) :
  exists r w',
    sns_publish E key_id key_secret topicarn rv iv name n regions amis w
    = (r, w')
    /\ stdout w' = stdout w
    /\ match r with
       | Ret v => v = 0 \/ v = -1
       | Undefined => sns_region topicarn = None
       | _ => False
       end.
Proof.
  unfold sns_publish.
  destruct (sns_region topicarn) as [region|];
    [|do 2 eexists; repeat split].
  cbv zeta. unfold bind at 1. unfold observe.
  destruct (aws_sign_sns_headers E w key_id key_secret region _)
    as [[[sha date] auth]|];
    [|do 2 eexists; split; [reflexivity|]; split; [reflexivity | now right]].
  unfold bind at 1. unfold sslreq at 1.
  destruct (match net w with
            | Some r :: _ => Some (take (Z.to_nat 16384) r)
            | _ => None
            end) as [resp|];
    [|do 2 eexists; split; [reflexivity|]; split; [reflexivity | now right]].
  destruct (negb (String.length (cstr resp) =? String.length resp)%nat);
    [do 2 eexists; split; [reflexivity|]; split; [reflexivity | now right]|].
  destruct (negb (status_200 resp));
    [do 2 eexists; split; [reflexivity|]; split; [reflexivity | now right]|].
  destruct (strstr resp _);
    [|do 2 eexists; split; [reflexivity|]; split; [reflexivity | now right]].
  destruct (strstr _ _);
    do 2 eexists; (split; [reflexivity|]); (split; [reflexivity|]);
    [now left | now right].
Qed.

(** X23.  However a run of [main] goes, it ends in one of three ways:
    [main] returns 0; or the process is ended with status 1, and the last
    line on stderr is then the usage text or the diagnostic that names the
    stage that failed; or it is ended with status 0 after the line that
    names the image, which is then the last line on stdout.  Of the two
    kinds of undefined behaviour that the embedding tracks, a run meets
    the read past the end of the topic only with nine arguments of which
    the topic is shorter than 12 bytes, and the overflow of the size
    arithmetic only with an image that is too large. *)
Theorem main_exit_status (fuel : nat) (argv : list string) (w : world) :
  let args := snd (parse_flags (tl argv) no_flags) in
  let r := main E fuel argv w in
  match fst r with
  | Ret v => v = 0
  | Exit code => main_exit code (snd r)
  | OutOfFuel => True
  | Undefined =>
      (List.length args = 9%nat /\ (String.length (nth 6 args "") < 12)%nat)
      \/ oversized E (nth 0 args "")
  end.
Proof.
  cbv zeta. destruct (main E fuel argv w) as [r w'] eqn:Hrun.
  cbn [fst snd]. unfold main in Hrun.
  destruct (parse_flags (tl argv) no_flags) as [fl args]. cbn [snd].
  destruct (negb (1 + List.length args =? 7)%nat
            && negb (1 + List.length args =? 10)%nat) eqn:Hargc.
  - destruct (ends_fail (A := Z) O True True usage (fun _ => True) eq_refl w)
      as [_ Hexit].
    cbv [bind warnp eprintf exit fst snd] in Hexit, Hrun.
    injection Hrun as <- <-. exact Hexit.
  - unfold bind at 1 in Hrun.
    destruct (ends_main_stages E fuel fl args w) as [_ Hend].
    destruct (main_stages E fuel fl args w) as [[rs|code| |] w1];
      cbn [fst snd] in Hend;
      try (injection Hrun as <- <-;
           first [exact Hend | exact I | right; exact Hend]).
    destruct rs as [[[key_id key_secret] regions] amis].
    destruct (1 + List.length args =? 10)%nat eqn:Hten;
      [|now injection Hrun as <- <-].
    unfold bind at 1 in Hrun.
    destruct (sns_publish_run key_id key_secret (nth 6 args "")
                (nth 7 args "") (nth 8 args "") (nth 1 args "")
                (List.length regions) regions amis w1)
      as (rp & w2 & Hp & _ & Hsns).
    rewrite Hp in Hrun.
    destruct rp as [st|c| |]; try contradiction.
    + destruct (negb (st =? 0)); now injection Hrun as <- <-.
    + injection Hrun as <- <-. left.
      split; [apply Nat.eqb_eq in Hten; lia|].
      unfold sns_region in Hsns.
      destruct (String.length (nth 6 args "") <? 12)%nat eqn:Hlen;
        [now apply Nat.ltb_lt | discriminate].
Qed.

(** X24.  Without [--public] a run never reaches the notification, whether
    a topic is given or not: [main] does not return; the process is ended
    with status 1 after a diagnostic, or with status 0 after the line that
    names the image (or the run is still polling when the fuel is used up,
    or the image is too large for the size arithmetic); and no request is
    sent to a notification host. *)
Theorem main_without_public (fuel : nat) (argv : list string) (w : world) :
  public (fst (parse_flags (tl argv) no_flags)) = false ->
  let args := snd (parse_flags (tl argv) no_flags) in
  let r := main E fuel argv w in
  match fst r with
  | Ret _ => False
  | Exit code => main_exit code (snd r)
  | OutOfFuel => True
  | Undefined => oversized E (nth 0 args "")
  end
  /\ exists rqs,
       sent (snd r) = (sent w ++ rqs)%list
       /\ Forall (fun rq => sns_host rq = false) rqs.
Proof.
  intros Hpub. cbv zeta.
  destruct (main E fuel argv w) as [r w'] eqn:Hrun.
  cbn [fst snd]. unfold main in Hrun.
  destruct (parse_flags (tl argv) no_flags) as [fl args].
  cbn [fst snd] in *.
  destruct (negb (1 + List.length args =? 7)%nat
            && negb (1 + List.length args =? 10)%nat).
  - destruct (ends_fail (A := Z) O True True usage (fun _ => True) eq_refl w)
      as [_ Hexit].
    cbv [bind warnp eprintf exit fst snd] in Hexit, Hrun.
    injection Hrun as <- <-. split; [exact Hexit|].
    exists []. cbn. rewrite app_nil_r. split; auto.
  - unfold bind at 1 in Hrun.
    destruct (ends_main_stages E fuel fl args w) as [[Hsent _] Hend].
    destruct (main_stages E fuel fl args w) as [[rs|code| |] w1];
      cbn [fst snd] in *.
    + congruence.
    + injection Hrun as <- <-. split; [exact Hend | exact Hsent].
    + injection Hrun as <- <-. split; [exact I | exact Hsent].
    + injection Hrun as <- <-. split; [exact Hend | exact Hsent].
Qed.

(** X25.  Stdout is kept for the result: whatever a run of [main] writes to it
    is a line of the list of images, [Created AMI in <region> region: <ami>];
    every diagnostic and every progress report goes elsewhere. *)
Theorem main_stdout (fuel : nat) (argv : list string) (w : world) :
  exists lines,
    stdout (snd (main E fuel argv w)) = (stdout w ++ lines)%list
    /\ Forall (fun l => ami_line l = true) lines.
Proof.
  unfold main.
  destruct (parse_flags (tl argv) no_flags) as [fl args].
  destruct (negb (1 + List.length args =? 7)%nat
            && negb (1 + List.length args =? 10)%nat).
  - exists []. cbn. rewrite app_nil_r. split; auto.
  - unfold bind at 1.
    destruct (ends_main_stages E fuel fl args w) as [(_ & Hout & _) _].
    destruct (main_stages E fuel fl args w) as [[r|code| |] w1];
      cbn [fst snd] in *; try exact Hout.
    destruct r as [[[key_id key_secret] regions] amis].
    destruct (1 + List.length args =? 10)%nat; [|exact Hout].
    unfold bind at 1.
    destruct (sns_publish_run key_id key_secret (nth 6 args "")
                (nth 7 args "") (nth 8 args "") (nth 1 args "")
                (List.length regions) regions amis w1)
      as (r & w2 & -> & Hsame & _).
    destruct r as [st|c| |]; cbn [fst snd] in *;
      try (rewrite Hsame; exact Hout).
    destruct (negb (st =? 0)); cbn; rewrite Hsame; exact Hout.
Qed.

(** X26.  A run makes progress only by what it gets from the network and from
    the image: every round of a polling loop takes at least one reply off the
    transport, and the part loop takes one round for each part.  So a run
    whose fuel is above the number of replies the transport holds and above
    the number of parts of the image does not run out of fuel: it ends. *)
Theorem main_terminates (fuel : nat) (argv : list string) (w : world) :
  (List.length (net w) < fuel)%nat ->
  image_fits E fuel (nth 0 (snd (parse_flags (tl argv) no_flags)) "") ->
  fst (main E fuel argv w) <> OutOfFuel.
Proof.
  intros Hnet Hfits.
  destruct (main E fuel argv w) as [r w'] eqn:Hrun.
  cbn [fst]. unfold main in Hrun.
  destruct (parse_flags (tl argv) no_flags) as [fl args]. cbn [snd] in Hfits.
  destruct (negb (1 + List.length args =? 7)%nat
            && negb (1 + List.length args =? 10)%nat).
  - cbv [bind eprintf exit] in Hrun. now injection Hrun as <- _.
  - unfold bind at 1 in Hrun.
    destruct (ends_main_stages E fuel fl args w) as [_ Hend].
    destruct (main_stages E fuel fl args w) as [[rs|code| |] w1];
      cbn [fst snd] in Hend; try contradiction.
    + destruct rs as [[[key_id key_secret] regions] amis].
      destruct (1 + List.length args =? 10)%nat;
        [|now injection Hrun as <- _].
      unfold bind at 1 in Hrun.
      destruct (sns_publish_run key_id key_secret (nth 6 args "")
                  (nth 7 args "") (nth 8 args "") (nth 1 args "")
                  (List.length regions) regions amis w1)
        as (rp & w2 & Hp & _ & Hsns).
      rewrite Hp in Hrun.
      destruct rp as [st|c| |]; try contradiction.
      * destruct (negb (st =? 0)); now injection Hrun as <- _.
      * now injection Hrun as <- _.
    + now injection Hrun as <- _.
    + destruct Hend as [Hn | Hp]; [lia | contradiction].
    + now injection Hrun as <- _.
Qed.

End Whole.

(** Every stage succeeds, a topic is given, [--public] is not: the run
    ends at the line that names the image, with five replies left. *)
Lemma main_without_public_witness :
  let E := demo_env demo_keys 0 in
  let argv := ["bsdec2-image-upload"; "disk.img"; "FreeBSD 12.0-RELEASE";
               "FreeBSD/amd64 releng/12.0"; "us-west-2"; "bucket";
               "aws.keys"; "arn:aws:sns:us-east-1:123456789012:ami-updates";
               "12.0-RELEASE"; "1"] in
  let w := fresh_world (happy_answers (http_ok "<MessageId>1</MessageId>")) in
  let r := main E 1 argv w in
  fst r = Exit 0
  /\ stdout (snd r) = ["Created AMI in us-west-2 region: ami-1" ++ LF]
  /\ List.length (net (snd r)) = 5%nat
  /\ match fst r with
     | Ret _ => False
     | Exit code => main_exit code (snd r)
     | OutOfFuel => True
     | Undefined => oversized E "disk.img"
     end
  /\ exists rqs,
       sent (snd r) = ([] ++ rqs)%list
       /\ Forall (fun rq => sns_host rq = false) rqs.
Proof.
  intros E argv w r.
  split; [vm_compute; reflexivity|].
  split; [vm_compute; reflexivity|].
  split; [vm_compute; reflexivity|].
  apply (main_without_public E 1 argv w). reflexivity.
Defined.

(** The whole run of the concrete environment, with fuel 15 for its 14
    replies and an empty image. *)
Lemma main_terminates_witness :
  fst (main (demo_env demo_keys 0) 15 demo_argv
         (fresh_world (happy_answers (http_ok "<PublishResponse/>"))))
  <> OutOfFuel.
Proof.
  apply main_terminates.
  - cbn. lia.
  - intros f L Hopen Hstat. cbn in Hopen. injection Hopen as <-.
    cbn in Hstat. injection Hstat as <-.
    split; [lia | vm_compute; lia].
Defined.
